(** * lhotse.cut: cuts, mixed cuts and cut sets

    A shallow embedding of [lhotse/cut.py].  Python's [float] is IEEE 754
    binary64, which is the kernel's primitive [float]: arithmetic and
    comparisons below are the very operations CPython performs.  Exceptions
    are values of [exn]; a call that may raise returns a [result].  The
    collaborators that live in other modules of the package
    ([lhotse.features], [lhotse.supervision], [lhotse.utils]), PyYAML and
    [uuid4] are variables of the section [Lhotse]. *)

From Stdlib Require Import ZArith List String Bool Lia Arith.
From Stdlib Require Import Floats.
Import ListNotations.

Set Warnings "-register-all".
Set Warnings "-inexact-float".

(** ** Python values *)

(** [lhotse.utils] declares [Seconds = float] and [Decibels = float];
    a [Pathlike] is a path, kept as a string. *)
Definition Seconds : Set := float.
Definition Decibels : Set := float.
Definition Pathlike : Set := string.

Bind Scope float_scope with Seconds Decibels.

(** The exceptions [cut.py] can raise by itself.  [IllTyped] is not a Python
    exception: it marks a YAML document whose values do not have the types the
    dataclass annotations announce, which Python would load without a check
    and which the typed records below cannot hold. *)
Inductive exn : Set :=
| AttributeError (attr : string)
| KeyError (key : string)
| IndexError
| AssertionError
| TypeError
| ValueError (msg : string)
| RecursionError
| IllTyped.

Inductive result (A : Type) : Type :=
| Ok (a : A)
| Raise (e : exn).

Arguments Ok {A} a.
Arguments Raise {A} e.

Definition bind {A B : Type} (r : result A) (k : A -> result B) : result B :=
match r with
| Ok a => k a
| Raise e => Raise e
end.

Declare Scope py_scope.
Delimit Scope py_scope with py.
Notation "x <- r ;; k" := (bind r (fun x => k))
  (at level 61, r at next level, right associativity) : py_scope.
Notation "'assert' b ;; k" := (if b then k else Raise AssertionError)
  (at level 61, b at next level, right associativity) : py_scope.
Local Open Scope py_scope.

(** [max(x, y)] of two arguments: CPython keeps the first argument unless
    the second compares greater ([y > x], that is [x < y]). *)
Definition pymax (x y : float) : float :=
if (x <? y)%float then y else x.

(** The literal [1e-5], that is the double nearest to it. *)
Definition tolerance : float := 0x1.4f8b588e368f1p-17%float.

(** ** Python dictionaries

    A [dict] keeps its keys in insertion order; assigning to a key that is
    present replaces the value where it stands. *)
Section Dict.
Variable V : Type.

Definition dict : Type := list (string * V).

Fixpoint dict_get (d : dict) (k : string) : option V :=
match d with
| [] => None
| (k', v) :: d' => if String.eqb k' k then Some v else dict_get d' k
end.

(** [d[k]] *)
Definition getitem (d : dict) (k : string) : result V :=
match dict_get d k with
| Some v => Ok v
| None => Raise (KeyError k)
end.

(** [d[k] = v] *)
Fixpoint setitem (d : dict) (k : string) (v : V) : dict :=
match d with
| [] => [(k, v)]
| (k', v') :: d' =>
  if String.eqb k' k then (k', v) :: d' else (k', v') :: setitem d' k v
end.

(** [del d[k]] *)
Fixpoint delitem (d : dict) (k : string) : result dict :=
match d with
| [] => Raise (KeyError k)
| (k', v') :: d' =>
  if String.eqb k' k then Ok d'
  else d'' <- delitem d' k ;; Ok ((k', v') :: d'')
end.

Definition keys (d : dict) : list string := map fst d.
Definition values (d : dict) : list V := map snd d.

(** [{k: v for (k, v) in items}] *)
Definition dict_of_items (items : list (string * V)) : dict :=
fold_left (fun d kv => setitem d (fst kv) (snd kv)) items [].

End Dict.

Arguments dict_get {V} d k.
Arguments getitem {V} d k.
Arguments setitem {V} d k v.
Arguments delitem {V} d k.
Arguments keys {V} d.
Arguments values {V} d.
Arguments dict_of_items {V} items.

(** ** YAML documents

    The values [yaml.safe_load] returns and [yaml.safe_dump] accepts: scalars,
    sequences and mappings with string keys.  The text PyYAML writes and reads
    back is PyYAML's business; the embedding of [to_yaml] stops at the document
    handed to [safe_dump] and the one of [from_yaml] starts at the document
    [safe_load] returns. *)
Inductive yaml : Set :=
| YNone
| YBool (b : bool)
| YInt (z : Z)
| YFloat (f : float)
| YStr (s : string)
| YSeq (l : list yaml)
| YMap (m : list (string * yaml)).

Definition as_str (y : yaml) : result string :=
match y with YStr s => Ok s | _ => Raise IllTyped end.

Definition as_int (y : yaml) : result Z :=
match y with YInt z => Ok z | _ => Raise IllTyped end.

Definition as_float (y : yaml) : result float :=
match y with YFloat f => Ok f | _ => Raise IllTyped end.

(** [**kwargs] handed to a dataclass constructor: every keyword has to name a
    field, else [TypeError] (unexpected keyword argument). *)
Definition only_fields (fields : list string) (kwargs : dict yaml) : bool :=
forallb (fun k => existsb (String.eqb k) fields) (keys kwargs).

(** A keyword argument without default: [TypeError] when it is missing. *)
Definition required (kwargs : dict yaml) (field : string) : result yaml :=
match dict_get kwargs field with
| Some y => Ok y
| None => Raise TypeError
end.

(** [[f(x) for x in xs]], stopping at the first exception. *)
Fixpoint traverse {A B : Type} (f : A -> result B) (xs : list A) : result (list B) :=
match xs with
| [] => Ok []
| x :: xs' => y <- f x ;; ys <- traverse f xs' ;; Ok (y :: ys)
end.

(** ** Time spans (lhotse.utils) *)

(** Modelled from the spec: [TimeSpan], the named pair [(start, end)] of
    [lhotse.utils], which is not among the sources; [truncate] builds it with
    these two fields. *)
Record TimeSpan : Set := mkTimeSpan { span_start : Seconds; span_end : Seconds }.

(** ** Relations used in the statements *)

(** [l1] is [l2] with some entries left out: same values, same order. *)
Inductive subsequence {A : Type} : list A -> list A -> Prop :=
| subsequence_nil : subsequence [] []
| subsequence_skip (x : A) (l1 l2 : list A) :
    subsequence l1 l2 -> subsequence l1 (x :: l2)
| subsequence_keep (x : A) (l1 l2 : list A) :
    subsequence l1 l2 -> subsequence (x :: l1) (x :: l2).

(** Two floats that are the same number: the same value bit for bit, or equal
    under Python's [==] (which also identifies [0.0] and [-0.0]). *)
Definition same_seconds (x y : Seconds) : Prop :=
x = y \/ (x =? y)%float = true.

(** ** Rounding, as the specification of binary64 sums has it

    The sum of two floats is specified by [SFadd] of the standard library:
    the exact sum of the aligned mantissas, rounded by [binary_round].  The
    four definitions below describe the steps of that rounding, for the facts
    about sums further down. *)

(** What [k] steps of [shr_1] make of the mantissa [M]: its quotient by
    [2 ^ k], and no round or sticky bit when nothing was lost. *)
Definition shifted (M k : Z) (mrs : shr_record) : Prop :=
shr_m mrs = (M / 2 ^ k)%Z /\
((M mod 2 ^ k)%Z = 0%Z -> shr_r mrs = false /\ shr_s mrs = false).

(** The last step of [binary_round_aux]: the float of sign [s], mantissa [m]
    and exponent [e], an infinity when the exponent is too large. *)
Definition pack (prec emax : Z) (s : bool) (m e : Z) : spec_float :=
match m with
| Z0 => S754_zero s
| Zpos m => if (e <=? emax - prec)%Z then S754_finite s m e else S754_infinity s
| Zneg _ => S754_nan
end.

(** [r] has the sign [s] and a magnitude that [SFcompare] places at or above
    the one of mantissa [mx] and exponent [ex]. *)
Definition at_least (s : bool) (mx : positive) (ex : Z) (r : spec_float) : Prop :=
match r with
| S754_finite s' m2 e2 =>
  s' = s /\ ((ex < e2)%Z \/ (e2 = ex /\ (Zpos mx <= Zpos m2)%Z))
| S754_infinity s' => s' = s
| _ => False
end.

(** [r] has the sign [s] and a magnitude that [SFcompare] places at or below
    the one of mantissa [mx] and exponent [ex]. *)
Definition at_most (s : bool) (mx : positive) (ex : Z) (r : spec_float) : Prop :=
match r with
| S754_finite s' m2 e2 =>
  s' = s /\ ((e2 < ex)%Z \/ (e2 = ex /\ (Zpos m2 <= Zpos mx)%Z))
| S754_zero s' => s' = s
| _ => False
end.

Section Lhotse.

(** *** Collaborators outside [cut.py] *)

(** [lhotse.features.Features] with the attributes [MixedCut.load_features]
    reads and its [load] method, [FeatureSet] with [find], and the two array
    routines.  Arrays are numpy's. *)
Variable Features : Type.
Variable FeatureSet : Type.
Variable ndarray : Type.
Variable frame_length : Features -> Seconds.
Variable frame_shift : Features -> Seconds.
Variable Features_load : Features -> option Pathlike -> Seconds -> Seconds -> ndarray.
Variable FeatureSet_find : FeatureSet -> string -> Z -> Seconds -> Seconds -> Features.
Variable pad_shorter : ndarray -> ndarray -> ndarray * ndarray.
Variable overlay_fbank :
  ndarray -> ndarray -> Decibels -> Seconds -> Seconds -> Seconds -> ndarray.

(** [lhotse.supervision.SupervisionSegment] with the attributes read here. *)
Variable SupervisionSegment : Type.
Variable recording_id : SupervisionSegment -> string.
Variable channel_id : SupervisionSegment -> Z.
Variable segment_start : SupervisionSegment -> Seconds.
Variable segment_duration : SupervisionSegment -> Seconds.
Variable segment_end : SupervisionSegment -> Seconds.

(** [asdict_nonull] on the two foreign dataclasses, and their constructors
    called with keyword arguments. *)
Variable Features_asdict : Features -> dict yaml.
Variable Features_init : dict yaml -> result Features.
Variable SupervisionSegment_asdict : SupervisionSegment -> dict yaml.
Variable SupervisionSegment_init : dict yaml -> result SupervisionSegment.

(** [str(uuid4())]: the identifiers drawn, in the order of the calls.  The
    state threaded through the constructors below counts the calls made. *)
Variable uuid4 : nat -> string.

(** The order in which CPython iterates [set(xs)]. *)
Variable set_iteration : list Z -> list Z.

(** Modelled from the spec: [overlaps] of [lhotse.utils], not among the
    sources.  The spec's words: two spans overlap when they have any
    intersection; spans are closed intervals. *)
Definition overlaps (lhs : TimeSpan) (rhs : SupervisionSegment) : bool :=
(span_start lhs <=? segment_end rhs)%float && (segment_start rhs <=? span_end lhs)%float.

(** Modelled from the spec: [overspans] of [lhotse.utils], not among the
    sources.  The spec's words: the annotation's span [[start, end]] is a
    subset of the window. *)
Definition overspans (spanning : TimeSpan) (spanned : SupervisionSegment) : bool :=
(span_start spanning <=? segment_start spanned)%float
&& (segment_start spanned <=? segment_end spanned)%float
&& (segment_end spanned <=? span_end spanning)%float.

(** *** Cut *)

Record Cut : Type := mkCut {
  Cut_id : string;
  channel : Z;
  start : Seconds;
  duration : Seconds;
  features : Features;
  supervisions : list SupervisionSegment
}.

(** The property [Cut.end]. *)
Definition Cut_end (self : Cut) : Seconds := (start self + duration self)%float.

Definition Cut_load_features (self : Cut) (root_dir : option Pathlike) : ndarray :=
Features_load (features self) root_dir (start self) (duration self).

(** [Cut.truncate(offset=..., until=..., keep_excessive_supervisions=...)];
    [n] counts the identifiers drawn so far. *)
Definition Cut_truncate (self : Cut) (offset : Seconds) (until : option Seconds)
  (keep_excessive_supervisions : bool) (n : nat) : result (Cut * nat) :=
let new_start := (start self + offset)%float in
let new_duration :=
  match until with
  | None => (duration self - new_start)%float
  | Some until => (until - offset)%float
  end in
assert (0 <? new_duration)%float ;;
assert (new_start + new_duration <=? start self + duration self + tolerance)%float ;;
let new_time_span := mkTimeSpan new_start (new_start + new_duration)%float in
let criterion := if keep_excessive_supervisions then overlaps else overspans in
Ok (mkCut (uuid4 n) (channel self) new_start new_duration (features self)
      (filter (fun segment => criterion new_time_span segment) (supervisions self)),
    S n).

(** The values of [new_start] and [new_duration] in [truncate], for the
    statements about it. *)
Definition truncated_start (self : Cut) (offset : Seconds) : Seconds :=
(start self + offset)%float.

Definition truncated_duration (self : Cut) (offset : Seconds) (until : option Seconds)
  : Seconds :=
match until with
| None => (duration self - (start self + offset))%float
| Some until => (until - offset)%float
end.

(** *** MixedCut *)

(** The attribute [_cut_set], which only [with_cut_set] creates, is [None]
    until then; a bound mixed cut holds a reference to a [CutSet] object. *)
Record MixedCut : Set := mkMixedCut {
  MixedCut_id : string;
  left_cut_id : string;
  right_cut_id : string;
  offset_right_by : Seconds;
  snr : Decibels;
  _cut_set : option nat
}.

Definition Cut_overlay (self other : Cut) (offset_other_by : Seconds) (snr : Decibels)
  (n : nat) : MixedCut * nat :=
(mkMixedCut (uuid4 n) (Cut_id self) (Cut_id other) offset_other_by snr None, S n).

Definition Cut_append (self other : Cut) (snr : Decibels) (n : nat) : MixedCut * nat :=
Cut_overlay self other (duration self) snr n.

(** What a [CutSet] holds under an id: [Union[Cut, MixedCut]]. *)
Inductive AnyCut : Type :=
| ACut (c : Cut)
| AMixedCut (m : MixedCut).

Record CutSet : Type := mkCutSet { cuts : dict AnyCut }.

(** The [CutSet] objects alive, by reference. *)
Definition heap : Type := nat -> CutSet.

Definition MixedCut_with_cut_set (self : MixedCut) (cut_set : nat) : MixedCut :=
mkMixedCut (MixedCut_id self) (left_cut_id self) (right_cut_id self)
  (offset_right_by self) (snr self) (Some cut_set).

(** [self._cut_set]: an [AttributeError] on a mixed cut never bound. *)
Definition get_cut_set (h : heap) (self : MixedCut) : result CutSet :=
match _cut_set self with
| Some r => Ok (h r)
| None => Raise (AttributeError "_cut_set")
end.

(** The properties [MixedCut.duration] and [MixedCut.supervisions].  An
    operand found in the cut set may be a mixed cut itself, whose property is
    then evaluated in turn; [fuel] bounds the depth of these calls, and
    running out of it is Python's [RecursionError]. *)
Fixpoint MixedCut_duration (fuel : nat) (h : heap) (self : MixedCut) {struct fuel}
  : result Seconds :=
match fuel with
| O => Raise RecursionError
| S fuel' =>
  let duration_of (c : AnyCut) : result Seconds :=
    match c with
    | ACut c => Ok (duration c)
    | AMixedCut m => MixedCut_duration fuel' h m
    end in
  cut_set <- get_cut_set h self ;;
  left <- getitem (cuts cut_set) (left_cut_id self) ;;
  left_duration <- duration_of left ;;
  cut_set <- get_cut_set h self ;;
  right <- getitem (cuts cut_set) (right_cut_id self) ;;
  right_duration <- duration_of right ;;
  Ok (pymax left_duration (offset_right_by self + right_duration)%float)
end.

Fixpoint MixedCut_supervisions (fuel : nat) (h : heap) (self : MixedCut) {struct fuel}
  : result (list SupervisionSegment) :=
match fuel with
| O => Raise RecursionError
| S fuel' =>
  let supervisions_of (c : AnyCut) : result (list SupervisionSegment) :=
    match c with
    | ACut c => Ok (supervisions c)
    | AMixedCut m => MixedCut_supervisions fuel' h m
    end in
  cut_set <- get_cut_set h self ;;
  left <- getitem (cuts cut_set) (left_cut_id self) ;;
  left_supervisions <- supervisions_of left ;;
  cut_set <- get_cut_set h self ;;
  right <- getitem (cuts cut_set) (right_cut_id self) ;;
  right_supervisions <- supervisions_of right ;;
  Ok (left_supervisions ++ right_supervisions)
end.

(** The attributes [duration] and [supervisions] of whatever a cut set holds. *)
Definition AnyCut_duration (fuel : nat) (h : heap) (c : AnyCut) : result Seconds :=
match c with
| ACut c => Ok (duration c)
| AMixedCut m => MixedCut_duration fuel h m
end.

Definition AnyCut_supervisions (fuel : nat) (h : heap) (c : AnyCut)
  : result (list SupervisionSegment) :=
match c with
| ACut c => Ok (supervisions c)
| AMixedCut m => MixedCut_supervisions fuel h m
end.

Definition AnyCut_id (c : AnyCut) : string :=
match c with
| ACut c => Cut_id c
| AMixedCut m => MixedCut_id m
end.

(** [MixedCut.load_features].  Both operands are asked for [.features], an
    attribute a [MixedCut] does not have. *)
Definition MixedCut_load_features (h : heap) (self : MixedCut) (root_dir : option Pathlike)
  : result ndarray :=
cut_set <- get_cut_set h self ;;
left <- getitem (cuts cut_set) (left_cut_id self) ;;
cut_set <- get_cut_set h self ;;
right <- getitem (cuts cut_set) (right_cut_id self) ;;
match left, right with
| ACut cut0, ACut cut1 =>
  let frame_length' := frame_length (features cut0) in
  let frame_shift' := frame_shift (features cut0) in
  assert (frame_length' =? frame_length (features cut1))%float ;;
  assert (frame_shift' =? frame_shift (features cut1))%float ;;
  let feats :=
    pad_shorter (Cut_load_features cut0 root_dir) (Cut_load_features cut1 root_dir) in
  Ok (overlay_fbank (fst feats) (snd feats) (snr self) (offset_right_by self)
        frame_length' frame_shift')
| _, _ => Raise (AttributeError "features")
end.

(** *** CutSet *)

Definition CutSet_iter (self : CutSet) : list AnyCut := values (cuts self).

Definition CutSet_len (self : CutSet) : nat := List.length (cuts self).

(** [{**self.cuts, **other.cuts}] *)
Definition CutSet_add (self other : CutSet) : CutSet :=
mkCutSet (fold_left (fun d kv => setitem d (fst kv) (snd kv)) (cuts other) (cuts self)).

(** The properties [CutSet.mixed_cuts] and [CutSet.simple_cuts]: dictionary
    comprehensions over [self.cuts.items()].  [Cut] and [MixedCut] are
    unrelated classes, so [isinstance] tells the two constructors apart. *)
Definition CutSet_mixed_cuts (self : CutSet) : dict MixedCut :=
dict_of_items
  (flat_map (fun '(id_, cut) =>
               match cut with
               | AMixedCut m => [(id_, m)]
               | ACut _ => []
               end)
     (cuts self)).

Definition CutSet_simple_cuts (self : CutSet) : dict Cut :=
dict_of_items
  (flat_map (fun '(id_, cut) =>
               match cut with
               | ACut c => [(id_, c)]
               | AMixedCut _ => []
               end)
     (cuts self)).

(** [CutSet.with_source_cuts_from(source)] calls [with_cut_set(source)] on
    every value of [self.mixed_cuts] and returns [self].  The values of
    [mixed_cuts] are the very objects [self.cuts] holds under the same keys,
    so the cut set returned is [self] with each of them rebound where it
    stands; [source] is the reference of the source cut set. *)
Definition CutSet_with_source_cuts_from (self : CutSet) (source : nat) : CutSet :=
mkCutSet
  (fold_left
     (fun d '(id_, cut) => setitem d id_ (AMixedCut (MixedCut_with_cut_set cut source)))
     (CutSet_mixed_cuts self) (cuts self)).

(** What [with_cut_set] makes of an entry of a cut set when it is called on
    the mixed cuts only, for the statements about [with_source_cuts_from]. *)
Definition bound_to (source : nat) (c : AnyCut) : AnyCut :=
match c with
| ACut c => ACut c
| AMixedCut m => AMixedCut (MixedCut_with_cut_set m source)
end.

(** Modelled from the spec: [asdict_nonull] of [lhotse.utils], not among the
    sources, on the two dataclasses of [cut.py]: the mapping from each set
    field to its value, nested dataclasses converted in the same way.  No field
    of a [Cut] or a [MixedCut] built here is [None], and [_cut_set] is no
    dataclass field. *)
Definition asdict_nonull (c : AnyCut) : dict yaml :=
match c with
| ACut c =>
  [("id", YStr (Cut_id c)); ("channel", YInt (channel c));
   ("start", YFloat (start c)); ("duration", YFloat (duration c));
   ("features", YMap (Features_asdict (features c)));
   ("supervisions",
    YSeq (map (fun s => YMap (SupervisionSegment_asdict s)) (supervisions c)))]%string
| AMixedCut m =>
  [("id", YStr (MixedCut_id m)); ("left_cut_id", YStr (left_cut_id m));
   ("right_cut_id", YStr (right_cut_id m));
   ("offset_right_by", YFloat (offset_right_by m)); ("snr", YFloat (snr m))]%string
end.

(** [type(cut).__name__] *)
Definition type_name (c : AnyCut) : string :=
match c with
| ACut _ => "Cut"
| AMixedCut _ => "MixedCut"
end.

(** [CutSet.to_yaml]: the document handed to [yaml.safe_dump]. *)
Definition CutSet_to_yaml (self : CutSet) : yaml :=
YSeq (map (fun cut => YMap (setitem (asdict_nonull cut) "type" (YStr (type_name cut))))
        (CutSet_iter self)).

(** The constructor [MixedCut] called with the keywords [kwargs]. *)
Definition MixedCut_init (kwargs : dict yaml) : result MixedCut :=
if only_fields ["id"; "left_cut_id"; "right_cut_id"; "offset_right_by"; "snr"]%string kwargs
then
  id <- required kwargs "id" ;;
  left_cut_id <- required kwargs "left_cut_id" ;;
  right_cut_id <- required kwargs "right_cut_id" ;;
  offset_right_by <- required kwargs "offset_right_by" ;;
  snr <- required kwargs "snr" ;;
  id <- as_str id ;;
  left_cut_id <- as_str left_cut_id ;;
  right_cut_id <- as_str right_cut_id ;;
  offset_right_by <- as_float offset_right_by ;;
  snr <- as_float snr ;;
  Ok (mkMixedCut id left_cut_id right_cut_id offset_right_by snr None)
else Raise TypeError.

(** The constructor [Cut] called with the keywords [kwargs] and the two
    explicit arguments [features] and [supervisions]. *)
Definition Cut_init (kwargs : dict yaml) (features : Features)
  (supervisions : list SupervisionSegment) : result Cut :=
if only_fields ["id"; "channel"; "start"; "duration"]%string kwargs
then
  id <- required kwargs "id" ;;
  channel <- required kwargs "channel" ;;
  start <- required kwargs "start" ;;
  duration <- required kwargs "duration" ;;
  id <- as_str id ;;
  channel <- as_int channel ;;
  start <- as_float start ;;
  duration <- as_float duration ;;
  Ok (mkCut id channel start duration features supervisions)
else Raise TypeError.

(** [cut_type == name] for whatever the document holds under [type]. *)
Definition is_str (y : yaml) (name : string) : bool :=
match y with
| YStr s => String.eqb s name
| _ => false
end.

(** [**y]: a mapping, or [TypeError]. *)
Definition as_mapping (y : yaml) : result (dict yaml) :=
match y with
| YMap m => Ok m
| _ => Raise TypeError
end.

(** The local function [deserialize_one] of [from_yaml]. *)
Definition deserialize_one (cut : dict yaml) : result AnyCut :=
cut_type <- getitem cut "type" ;;
cut <- delitem cut "type" ;;
if is_str cut_type "MixedCut" then
  m <- MixedCut_init cut ;; Ok (AMixedCut m)
else if negb (is_str cut_type "Cut") then
  Raise (ValueError "Unexpected cut type during deserialization")
else
  feature_info <- getitem cut "features" ;;
  cut <- delitem cut "features" ;;
  supervision_infos <- getitem cut "supervisions" ;;
  cut <- delitem cut "supervisions" ;;
  feature_info <- as_mapping feature_info ;;
  features <- Features_init feature_info ;;
  supervisions <-
    match supervision_infos with
    | YSeq infos =>
      traverse (fun s => s <- as_mapping s ;; SupervisionSegment_init s) infos
    | YMap [] | YStr EmptyString => Ok []
    | _ => Raise TypeError
    end ;;
  c <- Cut_init cut features supervisions ;; Ok (ACut c).

(** [CutSet.from_yaml], from the document [yaml.safe_load] returned. *)
Definition CutSet_from_yaml (raw_cuts : yaml) : result CutSet :=
match raw_cuts with
| YSeq raw_cuts =>
  items <-
    traverse
      (fun cut =>
         match cut with
         | YMap cut =>
           key <- getitem cut "id" ;;
           value <- deserialize_one cut ;;
           key <- as_str key ;;
           Ok (key, value)
         | _ => Raise TypeError
         end)
      raw_cuts ;;
  Ok (mkCutSet (dict_of_items items))
| YMap [] | YStr EmptyString => Ok (mkCutSet [])
| _ => Raise TypeError
end.

(** The dataclass fields of what a cut set holds: all but the binding
    [_cut_set] of a mixed cut, which is no declared field. *)
Definition declared_fields (c : AnyCut) : AnyCut :=
match c with
| ACut c => ACut c
| AMixedCut m =>
  AMixedCut
    (mkMixedCut (MixedCut_id m) (left_cut_id m) (right_cut_id m)
       (offset_right_by m) (snr m) None)
end.

(** No field absent, as far as the foreign dataclasses go: their constructors,
    called with the keywords [asdict_nonull] wrote for a value, return the
    value.  The fields of [Cut] and [MixedCut] themselves are never absent. *)
Definition fields_present (c : AnyCut) : Prop :=
match c with
| ACut c =>
  Features_init (Features_asdict (features c)) = Ok (features c) /\
  Forall (fun s => SupervisionSegment_init (SupervisionSegment_asdict s) = Ok s)
    (supervisions c)
| AMixedCut _ => True
end.

(** *** Utilities *)

(** [enumerate(xs)] *)
Definition enumerate {A : Type} (xs : list A) : list (nat * A) :=
combine (seq 0 (List.length xs)) xs.

Definition make_cuts_from_supervisions (supervision_set : list SupervisionSegment)
  (feature_set : FeatureSet) (n : nat) : CutSet * nat :=
let cuts :=
  map (fun '(idx, supervision) =>
         mkCut (uuid4 (n + idx))
           (channel_id supervision)
           (segment_start supervision)
           (segment_duration supervision)
           (FeatureSet_find feature_set (recording_id supervision) (channel_id supervision)
              (segment_start supervision) (segment_duration supervision))
           [supervision])
      (enumerate supervision_set) in
(mkCutSet (dict_of_items (map (fun cut => (Cut_id cut, ACut cut)) cuts)),
 n + List.length supervision_set).

(** [c.channel], an attribute only a [Cut] has. *)
Definition channel_of (c : AnyCut) : result Cut :=
match c with
| ACut c => Ok c
| AMixedCut _ => Raise (AttributeError "channel")
end.

(** [[c for c in cut_set if c.channel == channels[i]]]: the subscript is
    evaluated once per element, so not at all over an empty cut set. *)
Definition cuts_of_channel (cs : list Cut) (channels : list Z) (i : nat) : result (list Cut) :=
match cs with
| [] => Ok []
| _ :: _ =>
  match nth_error channels i with
  | Some ch => Ok (filter (fun c => Z.eqb (channel c) ch) cs)
  | None => Raise IndexError
  end
end.

Definition mix_stereo_cut_set (cut_set : CutSet) (n : nat) : result (CutSet * nat) :=
cs <- traverse channel_of (CutSet_iter cut_set) ;;
let channels := set_iteration (map channel cs) in
channel0_cuts <- cuts_of_channel cs channels 0 ;;
channel1_cuts <- cuts_of_channel cs channels 1 ;;
let mixed_cuts :=
  map (fun '(idx, (c0, c1)) => fst (Cut_overlay c0 c1 0%float 0%float (n + idx)))
      (enumerate (combine channel0_cuts channel1_cuts)) in
Ok (mkCutSet (dict_of_items (map (fun cut => (MixedCut_id cut, AMixedCut cut)) mixed_cuts)),
    n + List.length mixed_cuts).

(** ** Facts about the Python layer *)

Lemma bind_Ok {A B : Type} (r : result A) (k : A -> result B) (b : B) :
  bind r k = Ok b -> exists a, r = Ok a /\ k a = Ok b.
Proof.
  destruct r as [a|e]; simpl; intros H.
  - exists a; split; [reflexivity | exact H].
  - discriminate H.
Qed.

Lemma assert_Ok {A : Type} (c : bool) (k : result A) (a : A) :
  (if c then k else Raise AssertionError) = Ok a -> c = true /\ k = Ok a.
Proof.
  destruct c; intros H; [split; [reflexivity | exact H] | discriminate H].
Qed.

Lemma getitem_Ok {V : Type} (d : dict V) (k : string) (v : V) :
  getitem d k = Ok v <-> dict_get d k = Some v.
Proof.
  unfold getitem; destruct (dict_get d k); split; intros H;
    try discriminate H; inversion H; reflexivity.
Qed.

Lemma dict_get_setitem_same {V : Type} (d : dict V) (k : string) (v : V) :
  dict_get (setitem d k v) k = Some v.
Proof.
  induction d as [|[k' v'] d IH]; simpl.
  - rewrite String.eqb_refl; reflexivity.
  - destruct (String.eqb_spec k' k) as [->|Hne]; simpl.
    + rewrite String.eqb_refl; reflexivity.
    + destruct (String.eqb_spec k' k) as [E|_]; [contradiction | exact IH].
Qed.

Lemma dict_get_setitem_other {V : Type} (d : dict V) (k k0 : string) (v : V) :
  k <> k0 -> dict_get (setitem d k v) k0 = dict_get d k0.
Proof.
  intros Hne; induction d as [|[k' v'] d IH]; simpl.
  - destruct (String.eqb_spec k k0); [contradiction | reflexivity].
  - destruct (String.eqb_spec k' k) as [->|Hk]; simpl.
    + destruct (String.eqb_spec k k0); [contradiction | reflexivity].
    + destruct (String.eqb_spec k' k0); [reflexivity | exact IH].
Qed.

Lemma dict_get_delitem_other {V : Type} (d d' : dict V) (k k0 : string) :
  delitem d k = Ok d' -> k <> k0 -> dict_get d' k0 = dict_get d k0.
Proof.
  revert d'; induction d as [|[k' v'] d IH]; simpl; intros d' H Hne; [discriminate|].
  destruct (String.eqb_spec k' k) as [->|Hk].
  - inversion H; subst.
    destruct (String.eqb_spec k k0); [contradiction | reflexivity].
  - apply bind_Ok in H; destruct H as (d'' & Hd & H); inversion H; subst; simpl.
    destruct (String.eqb_spec k' k0); [reflexivity | apply IH; assumption].
Qed.

Lemma traverse_Ok_In {A B : Type} (f : A -> result B) (xs : list A) (ys : list B) :
  traverse f xs = Ok ys -> forall y, In y ys -> exists x, In x xs /\ f x = Ok y.
Proof.
  revert ys; induction xs as [|x xs IH]; simpl; intros ys H y Hy.
  - inversion H; subst; destruct Hy.
  - apply bind_Ok in H; destruct H as (y0 & Hx & H).
    apply bind_Ok in H; destruct H as (ys0 & Hxs & H).
    inversion H; subst; destruct Hy as [<-|Hy].
    + exists x; split; [left; reflexivity | exact Hx].
    + destruct (IH _ Hxs _ Hy) as (x' & Hin & Hf).
      exists x'; split; [right; exact Hin | exact Hf].
Qed.

Lemma subsequence_In {A : Type} (l1 l2 : list A) :
  subsequence l1 l2 -> forall x, In x l1 -> In x l2.
Proof.
  induction 1 as [|x l1 l2 _ IH|x l1 l2 _ IH]; intros y Hy.
  - exact Hy.
  - right; apply IH; exact Hy.
  - destruct Hy as [<-|Hy]; [left; reflexivity | right; apply IH; exact Hy].
Qed.

(** Filtering by a criterion keeps a subsequence, and a stronger criterion
    keeps a subsequence of what a weaker one keeps. *)
Lemma filter_subsequence {A : Type} (f g : A -> bool) (l : list A) :
  (forall x, In x l -> f x = true -> g x = true) ->
  subsequence (filter f l) (filter g l).
Proof.
  induction l as [|x l IH]; simpl; intros Himp; [constructor|].
  assert (IH' : subsequence (filter f l) (filter g l)).
  { apply IH; intros y Hy; apply Himp; right; exact Hy. }
  destruct (f x) eqn:Ef.
  - rewrite (Himp x (or_introl eq_refl) Ef); constructor; exact IH'.
  - destruct (g x); [constructor|]; exact IH'.
Qed.

Lemma filter_subsequence_self {A : Type} (f : A -> bool) (l : list A) :
  subsequence (filter f l) l.
Proof.
  induction l as [|x l IH]; simpl; [constructor|].
  destruct (f x); constructor; exact IH.
Qed.

(** ** Facts about binary64 comparisons and sums *)

Ltac compare_cases :=
  repeat match goal with
  | |- context [Z.compare ?a ?b] => destruct (Z.compare_spec a b)
  | H : context [Z.compare ?a ?b] |- _ => destruct (Z.compare_spec a b)
  | |- context [Pos.compare_cont Eq ?a ?b] =>
    change (Pos.compare_cont Eq a b) with (Pos.compare a b) in *;
    destruct (Pos.compare_spec a b)
  | H : context [Pos.compare_cont Eq ?a ?b] |- _ =>
    change (Pos.compare_cont Eq a b) with (Pos.compare a b) in *;
    destruct (Pos.compare_spec a b)
  end.

(** [<=] on floats is transitive (a comparison with NaN is false). *)
Lemma SFleb_trans (x y z : spec_float) :
  SFleb x y = true -> SFleb y z = true -> SFleb x z = true.
Proof.
  unfold SFleb, SFcompare.
  destruct x as [sx|sx| |sx mx ex], y as [sy|sy| |sy my ey], z as [sz|sz| |sz mz ez];
    try discriminate; try reflexivity;
    try destruct sx; try destruct sy; try destruct sz;
    try discriminate; try reflexivity;
    intros H1 H2;
    compare_cases; simpl in *; try discriminate; try reflexivity; subst; try lia.
Qed.

Lemma leb_trans (x y z : float) :
  (x <=? y)%float = true -> (y <=? z)%float = true -> (x <=? z)%float = true.
Proof.
  rewrite !leb_spec; apply SFleb_trans.
Qed.

Lemma SFcompare_zero_sign (x : spec_float) (s s' : bool) :
  SFcompare x (S754_zero s) = SFcompare x (S754_zero s').
Proof. destruct x; reflexivity. Qed.

(** [0.0 + x] is [x], except that [0.0 + -0.0] is [0.0]. *)
Lemma add_zero_l (x : float) :
  Prim2SF x <> S754_zero true -> (0 + x)%float = x.
Proof.
  intros Hx; apply Prim2SF_inj; rewrite add_spec.
  change (Prim2SF 0) with (S754_zero false).
  destruct (Prim2SF x) as [[|]| | |]; try reflexivity.
  contradiction Hx; reflexivity.
Qed.

Lemma add_zero_l_neg_zero (x : float) :
  Prim2SF x = S754_zero true -> Prim2SF (0 + x)%float = S754_zero false.
Proof.
  intros Hx; rewrite add_spec, Hx; reflexivity.
Qed.

Lemma SFltb_zero_sign (x : spec_float) (s s' : bool) :
  SFltb x (S754_zero s) = SFltb x (S754_zero s').
Proof. unfold SFltb; rewrite (SFcompare_zero_sign x s s'); reflexivity. Qed.

Lemma pymax_add_zero_l (a b : float) :
  same_seconds (pymax a (0 + b)%float) (pymax a b).
Proof.
  destruct (Prim2SF b) as [[|]| | |] eqn:Hb.
  2-5: rewrite add_zero_l by (rewrite Hb; discriminate); left; reflexivity.
  unfold pymax. rewrite !ltb_spec, (add_zero_l_neg_zero _ Hb), Hb.
  rewrite (SFltb_zero_sign (Prim2SF a) false true).
  destruct (SFltb (Prim2SF a) (S754_zero true)).
  - right. rewrite eqb_spec, (add_zero_l_neg_zero _ Hb), Hb; reflexivity.
  - left; reflexivity.
Qed.

(** *** Rounding a sum

    A sum [x + y] with [y] not negative is not below [x]: the exact sum is
    not, and rounding to nearest cannot cross [x], which is a float.  The
    proof follows [binary_round] step by step, for any precision. *)

Section Rounding.
Local Open Scope Z_scope.

Variables prec emax : Z.
Hypothesis prec_gt_0 : 0 < prec.

Local Abbreviation fexp_ := (SpecFloat.fexp prec emax).
Local Abbreviation emin_ := (SpecFloat.emin prec emax).

Lemma digits2_pos_size (m : positive) : digits2_pos m = Pos.size m.
Proof. induction m; simpl; congruence. Qed.

(** A mantissa of [d] binary digits lies between [2 ^ (d - 1)] and [2 ^ d]. *)
Lemma digits2_bounds (m : positive) :
  2 ^ (Zpos (digits2_pos m) - 1) <= Zpos m < 2 ^ Zpos (digits2_pos m).
Proof.
  rewrite digits2_pos_size; split.
  - pose proof (Pos.size_le m) as H.
    apply Pos2Z.pos_le_pos in H. rewrite Pos2Z.inj_pow in H.
    change (Zpos m~0) with (2 * Zpos m) in H.
    replace (Zpos (Pos.size m)) with (Z.succ (Zpos (Pos.size m) - 1)) in H by lia.
    rewrite Z.pow_succ_r in H by lia. lia.
  - pose proof (Pos.size_gt m) as H.
    apply Pos2Z.pos_lt_pos in H. rewrite Pos2Z.inj_pow in H. exact H.
Qed.

Lemma digits2_le (m1 m2 : positive) (c : Z) :
  0 <= c -> Zpos m1 * 2 ^ c <= Zpos m2 ->
  Zpos (digits2_pos m1) + c <= Zpos (digits2_pos m2).
Proof.
  intros Hc H.
  destruct (digits2_bounds m1) as [L1 _]. destruct (digits2_bounds m2) as [_ U2].
  assert (H0 : 2 ^ (Zpos (digits2_pos m1) - 1 + c) < 2 ^ Zpos (digits2_pos m2)).
  { rewrite Z.pow_add_r by lia.
    apply Z.le_lt_trans with (Zpos m1 * 2 ^ c); [| lia].
    apply Z.mul_le_mono_nonneg_r; [apply Z.pow_nonneg; lia | exact L1]. }
  apply Z.pow_lt_mono_r_iff in H0; lia.
Qed.

Lemma digits2_ge (m1 m2 : positive) (c : Z) :
  0 <= c -> Zpos m2 <= Zpos m1 * 2 ^ c ->
  Zpos (digits2_pos m2) <= Zpos (digits2_pos m1) + c.
Proof.
  intros Hc H.
  destruct (digits2_bounds m2) as [L2 _]. destruct (digits2_bounds m1) as [_ U1].
  assert (H0 : 2 ^ (Zpos (digits2_pos m2) - 1) < 2 ^ (Zpos (digits2_pos m1) + c)).
  { rewrite Z.pow_add_r by lia.
    apply Z.le_lt_trans with (Zpos m1 * 2 ^ c); [lia |].
    apply Z.mul_lt_mono_pos_r; [apply Z.pow_pos_nonneg; lia | lia]. }
  apply Z.pow_lt_mono_r_iff in H0; lia.
Qed.

Lemma digits2_lt_pow (p : positive) (k : Z) :
  Zpos p < 2 ^ k -> Zpos (digits2_pos p) <= k.
Proof.
  intros H. destruct (digits2_bounds p) as [L _].
  assert (Hk : 0 <= k).
  { destruct (Z_lt_le_dec k 0) as [Hneg|]; [| assumption].
    rewrite Z.pow_neg_r in H by assumption. lia. }
  assert (H0 : 2 ^ (Zpos (digits2_pos p) - 1) < 2 ^ k) by lia.
  apply Z.pow_lt_mono_r_iff in H0; lia.
Qed.

Lemma iter_pos_iter {A : Type} (f : A -> A) (n : positive) (x : A) :
  iter_pos f n x = Pos.iter f x n.
Proof.
  revert x; induction n as [n IH|n IH|]; intros x; simpl.
  - rewrite !IH, <- !Pos.iter_swap; reflexivity.
  - rewrite !IH; reflexivity.
  - reflexivity.
Qed.

Lemma pos_iter_xO (m d : positive) : Zpos (Pos.iter xO m d) = Zpos m * 2 ^ Zpos d.
Proof.
  induction d as [|d IH] using Pos.peano_ind.
  - simpl. lia.
  - rewrite Pos.iter_succ, Pos2Z.inj_succ, Z.pow_succ_r by lia.
    change (Zpos (Pos.iter xO m d)~0) with (2 * Zpos (Pos.iter xO m d)). rewrite IH; ring.
Qed.

(** Aligning a mantissa to a smaller exponent keeps the value. *)
Lemma shl_align_spec (m : positive) (e e' : Z) :
  let r := shl_align m e e' in
  snd r = Z.min e e' /\ Zpos (fst r) = Zpos m * 2 ^ (e - snd r).
Proof.
  unfold shl_align. destruct (e' - e) as [|d|d] eqn:E; simpl.
  - assert (e' = e) by lia; subst. rewrite Z.min_id, Z.sub_diag; simpl; lia.
  - assert (e < e') by lia. rewrite Z.min_l by lia. rewrite Z.sub_diag; simpl; lia.
  - assert (e' < e) by lia. rewrite Z.min_r by lia.
    rewrite pos_iter_xO. replace (e - e') with (Zpos d) by lia. split; reflexivity.
Qed.

Lemma shr_1_spec (mrs : shr_record) :
  0 <= shr_m mrs ->
  shr_m (shr_1 mrs) = shr_m mrs / 2 /\
  shr_r (shr_1 mrs) = Z.odd (shr_m mrs) /\
  shr_s (shr_1 mrs) = shr_r mrs || shr_s mrs.
Proof.
  destruct mrs as [m r s]; simpl; intros Hm. rewrite <- Z.div2_div.
  destruct m as [|[p|p|]|p]; simpl; try lia; repeat split.
Qed.

Lemma shifted_step (M k : Z) (mrs : shr_record) :
  0 <= M -> 0 <= k -> shifted M k mrs -> shifted M (k + 1) (shr_1 mrs).
Proof.
  intros HM Hk [Hm Hex].
  assert (Hpos : 0 < 2 ^ k) by (apply Z.pow_pos_nonneg; lia).
  assert (Hm0 : 0 <= shr_m mrs) by (rewrite Hm; apply Z.div_pos; lia).
  destruct (shr_1_spec mrs Hm0) as (E1 & E2 & E3).
  unfold shifted. rewrite Z.pow_add_r, Z.pow_1_r by lia. split.
  - rewrite E1, Hm, Z.div_div by lia. reflexivity.
  - intros Hmod.
    assert (Hdiv : M = 2 ^ k * 2 * (M / (2 ^ k * 2))).
    { apply Z.div_exact; lia. }
    remember (M / (2 ^ k * 2)) as c eqn:Ec.
    assert (Hq : M / 2 ^ k = 2 * c).
    { rewrite Hdiv. replace (2 ^ k * 2 * c) with (2 * c * 2 ^ k) by ring.
      apply Z.div_mul; lia. }
    assert (Hmod_k : M mod 2 ^ k = 0).
    { rewrite Hdiv. replace (2 ^ k * 2 * c) with (2 * c * 2 ^ k) by ring.
      apply Z.mod_mul; lia. }
    destruct (Hex Hmod_k) as [Hr Hs]. rewrite E2, E3, Hr, Hs, Hm, Hq; split; [| reflexivity].
    rewrite Z.odd_mul; reflexivity.
Qed.

Lemma shifted_iter (M : Z) (n : positive) :
  0 <= M -> shifted M (Zpos n) (iter_pos shr_1 n (Build_shr_record M false false)).
Proof.
  intros HM. rewrite iter_pos_iter.
  assert (H0 : shifted M 0 (Build_shr_record M false false)).
  { split; simpl; [rewrite Z.div_1_r; reflexivity | intros _; split; reflexivity]. }
  induction n as [|n IH] using Pos.peano_ind.
  - simpl. apply (shifted_step M 0 _ HM (Z.le_refl 0) H0).
  - rewrite Pos.iter_succ, Pos2Z.inj_succ. apply shifted_step; [exact HM | lia | exact IH].
Qed.

Lemma round_nearest_even_bounds (m : Z) (l : location) :
  m <= round_nearest_even m l <= m + 1.
Proof.
  destruct l as [|[| |]]; simpl; try lia. destruct (Z.even m); lia.
Qed.

Lemma fexp_ge_emin (e : Z) : emin_ <= fexp_ e.
Proof. unfold SpecFloat.fexp, SpecFloat.emin; lia. Qed.

Lemma fexp_mono (e1 e2 : Z) : e1 <= e2 -> fexp_ e1 <= fexp_ e2.
Proof. unfold SpecFloat.fexp, SpecFloat.emin; lia. Qed.

(** The first stage of [binary_round_aux] on an exact mantissa. *)
Lemma shr_fexp_exact (M : positive) (E : Z) :
  let f0 := fexp_ (Zpos (digits2_pos M) + E) in
  let r := shr_fexp prec emax (Zpos M) E loc_Exact in
  (f0 <= E -> r = (Build_shr_record (Zpos M) false false, E)) /\
  (E < f0 -> snd r = f0 /\ shifted (Zpos M) (f0 - E) (fst r)).
Proof.
  unfold shr_fexp, shr; simpl Zdigits2; simpl shr_record_of_loc.
  destruct (fexp_ (Zpos (digits2_pos M) + E) - E) as [|p|p] eqn:En; split; intros H;
    try lia; try reflexivity.
  cbn [fst snd]; split; [lia |]. apply shifted_iter; lia.
Qed.

Lemma shr_fexp_zero (E : Z) :
  emin_ <= E ->
  shr_fexp prec emax 0 E loc_Exact = (Build_shr_record 0 false false, E).
Proof.
  intros HE. unfold shr_fexp, shr; simpl.
  destruct (fexp_ E - E) as [|p|p] eqn:En; try reflexivity.
  unfold SpecFloat.fexp in En; lia.
Qed.

Lemma binary_round_aux_stages (s : bool) (M E : Z) :
  binary_round_aux prec emax s M E loc_Exact =
  let r1 := shr_fexp prec emax M E loc_Exact in
  let r2 := shr_fexp prec emax
              (round_nearest_even (shr_m (fst r1)) (loc_of_shr_record (fst r1)))
              (snd r1) loc_Exact in
  pack prec emax s (shr_m (fst r2)) (snd r2).
Proof.
  unfold binary_round_aux, pack.
  destruct (shr_fexp prec emax M E loc_Exact) as [mrs' e']; cbn [fst snd].
  destruct (shr_fexp prec emax _ e' loc_Exact) as [mrs'' e'']; reflexivity.
Qed.

(** The second stage on a positive mantissa [p] at an exponent [f0] that is
    at least [emin]: nothing moves, or the mantissa loses [digits - prec]
    low bits and stays positive. *)
Lemma second_stage (s : bool) (p : positive) (f0 : Z) :
  emin_ <= f0 ->
  let r2 := shr_fexp prec emax (Zpos p) f0 loc_Exact in
  let f1 := fexp_ (Zpos (digits2_pos p) + f0) in
  (f1 <= f0 /\
   pack prec emax s (shr_m (fst r2)) (snd r2) = pack prec emax s (Zpos p) f0) \/
  (f0 < f1 /\ f1 = Zpos (digits2_pos p) + f0 - prec /\
   exists m2, Zpos m2 = Zpos p / 2 ^ (f1 - f0) /\
              pack prec emax s (shr_m (fst r2)) (snd r2) = pack prec emax s (Zpos m2) f1).
Proof.
  intros Hf0; cbv zeta.
  destruct (shr_fexp_exact p f0) as [H1 H2].
  destruct (Z_le_gt_dec (fexp_ (Zpos (digits2_pos p) + f0)) f0) as [Hle|Hgt].
  - left; split; [exact Hle |]. rewrite (H1 Hle); reflexivity.
  - right. assert (Hlt : f0 < fexp_ (Zpos (digits2_pos p) + f0)) by lia.
    destruct (H2 Hlt) as [Hsnd [Hm _]].
    assert (Hf1 : fexp_ (Zpos (digits2_pos p) + f0) = Zpos (digits2_pos p) + f0 - prec).
    { unfold SpecFloat.fexp in *; lia. }
    split; [exact Hlt | split; [exact Hf1 |]].
    assert (Hq : 1 <= Zpos p / 2 ^ (fexp_ (Zpos (digits2_pos p) + f0) - f0)).
    { apply Z.div_le_lower_bound; [apply Z.pow_pos_nonneg; lia |].
      rewrite Z.mul_1_r. destruct (digits2_bounds p) as [L _].
      apply Z.le_trans with (2 ^ (Zpos (digits2_pos p) - 1)); [| exact L].
      apply Z.pow_le_mono_r; lia. }
    destruct (Zpos p / 2 ^ (fexp_ (Zpos (digits2_pos p) + f0) - f0)) as [|m2|m2] eqn:Em2;
      try lia.
    exists m2; split; [reflexivity |]. rewrite Hm, Hsnd; reflexivity.
Qed.

(** Rounding a mantissa [M] at exponent [E] whose value is at least the one
    of the float [(mx, ex)] gives a float at or above it. *)
Lemma round_lower (s : bool) (mx M : positive) (ex E : Z) :
  canonical_mantissa prec emax mx ex = true ->
  E <= ex ->
  Zpos mx * 2 ^ (ex - E) <= Zpos M ->
  at_least s mx ex (binary_round_aux prec emax s (Zpos M) E loc_Exact).
Proof.
  intros Hcan HE Hval. apply Z.eqb_eq in Hcan.
  assert (Hdig : Zpos (digits2_pos mx) + (ex - E) <= Zpos (digits2_pos M))
    by (apply digits2_le; [lia | exact Hval]).
  assert (Hf0 : ex <= fexp_ (Zpos (digits2_pos M) + E)).
  { rewrite <- Hcan at 1. apply fexp_mono; lia. }
  assert (Hemin : emin_ <= fexp_ (Zpos (digits2_pos M) + E)) by apply fexp_ge_emin.
  rewrite binary_round_aux_stages; cbv zeta.
  destruct (shr_fexp_exact M E) as [H1 H2].
  destruct (Z_le_gt_dec (fexp_ (Zpos (digits2_pos M) + E)) E) as [Hle|Hgt].
  - (* nothing to shift: [E = ex] *)
    assert (E = ex) by lia; subst E.
    rewrite (H1 Hle); cbn [fst snd shr_m loc_of_shr_record round_nearest_even].
    rewrite (H1 Hle); cbn [fst snd shr_m pack].
    rewrite Z.sub_diag, Z.mul_1_r in Hval.
    destruct (ex <=? emax - prec); simpl; [split; [reflexivity | right; lia] | reflexivity].
  - assert (Hlt : E < fexp_ (Zpos (digits2_pos M) + E)) by lia.
    destruct (H2 Hlt) as [Hsnd [Hm _]]. rewrite Hsnd.
    set (f0 := fexp_ (Zpos (digits2_pos M) + E)) in *.
    set (q := shr_m (fst (shr_fexp prec emax (Zpos M) E loc_Exact))) in *.
    pose proof (round_nearest_even_bounds q
                  (loc_of_shr_record (fst (shr_fexp prec emax (Zpos M) E loc_Exact))))
      as [Hr1 _].
    set (m1 := round_nearest_even q _) in *.
    assert (Hpow : 0 < 2 ^ (f0 - E)) by (apply Z.pow_pos_nonneg; lia).
    assert (Hqx : ex = f0 -> Zpos mx <= q).
    { intros Heq. rewrite Hm. apply Z.div_le_lower_bound; [exact Hpow |].
      rewrite <- Heq, Z.mul_comm. exact Hval. }
    assert (Hq1 : 1 <= q).
    { destruct (Z.eq_dec ex f0) as [Heq|Hne]; [specialize (Hqx Heq); lia |].
      assert (Hf0' : f0 = Zpos (digits2_pos M) + E - prec).
      { unfold f0, SpecFloat.fexp in *.
        assert (emin_ <= ex) by (rewrite <- Hcan; apply fexp_ge_emin). lia. }
      rewrite Hm. apply Z.div_le_lower_bound; [exact Hpow |].
      rewrite Z.mul_1_r. destruct (digits2_bounds M) as [L _].
      apply Z.le_trans with (2 ^ (Zpos (digits2_pos M) - 1)); [| exact L].
      apply Z.pow_le_mono_r; lia. }
    destruct m1 as [|p1|p1] eqn:Em1; try lia.
    destruct (second_stage s p1 f0 Hemin) as [[Hle2 ->]|(Hlt2 & _ & m2 & _ & ->)];
      unfold pack.
    + destruct (f0 <=? emax - prec); cbn [at_least]; [| reflexivity].
      split; [reflexivity |].
      destruct (Z.eq_dec ex f0) as [Heq|Hne]; [right | left; lia].
      split; [lia |]. specialize (Hqx Heq). lia.
    + destruct (_ <=? emax - prec); cbn [at_least]; [| reflexivity].
      split; [reflexivity | left; lia].
Qed.

(** Rounding a mantissa [M] at exponent [E] whose value is at most the one of
    the float [(mx, ex)] gives a zero or a float at or below it. *)
Lemma round_upper (s : bool) (mx M : positive) (ex E : Z) :
  canonical_mantissa prec emax mx ex = true ->
  ex <= emax - prec ->
  E <= ex ->
  Zpos M <= Zpos mx * 2 ^ (ex - E) ->
  at_most s mx ex (binary_round_aux prec emax s (Zpos M) E loc_Exact).
Proof.
  intros Hcan Hbound HE Hval. apply Z.eqb_eq in Hcan.
  assert (Hdig : Zpos (digits2_pos M) <= Zpos (digits2_pos mx) + (ex - E))
    by (apply digits2_ge; [lia | exact Hval]).
  assert (Hf0 : fexp_ (Zpos (digits2_pos M) + E) <= ex).
  { rewrite <- Hcan. apply fexp_mono; lia. }
  assert (Hemin : emin_ <= fexp_ (Zpos (digits2_pos M) + E)) by apply fexp_ge_emin.
  assert (Hlow : Zpos (digits2_pos M) + E - prec <= fexp_ (Zpos (digits2_pos M) + E))
    by (unfold SpecFloat.fexp; lia).
  rewrite binary_round_aux_stages; cbv zeta.
  destruct (shr_fexp_exact M E) as [H1 H2].
  destruct (Z_le_gt_dec (fexp_ (Zpos (digits2_pos M) + E)) E) as [Hle|Hgt].
  - rewrite (H1 Hle); cbn [fst snd shr_m loc_of_shr_record round_nearest_even].
    rewrite (H1 Hle); cbn [fst snd shr_m pack].
    replace (E <=? emax - prec) with true by (symmetry; apply Z.leb_le; lia).
    cbn [at_most]. split; [reflexivity |].
    destruct (Z.eq_dec E ex) as [->|Hne]; [right | left; lia].
    rewrite Z.sub_diag, Z.mul_1_r in Hval. split; [reflexivity | exact Hval].
  - assert (Hlt : E < fexp_ (Zpos (digits2_pos M) + E)) by lia.
    destruct (H2 Hlt) as [Hsnd [Hm Hexact]]. rewrite Hsnd.
    set (f0 := fexp_ (Zpos (digits2_pos M) + E)) in *.
    destruct (fst (shr_fexp prec emax (Zpos M) E loc_Exact)) as [q rb sb].
    cbn [shr_m shr_r shr_s] in *.
    pose proof (round_nearest_even_bounds q (loc_of_shr_record (Build_shr_record q rb sb)))
      as [Hr1 Hr2].
    assert (Hpow : 0 < 2 ^ (f0 - E)) by (apply Z.pow_pos_nonneg; lia).
    assert (Hq0 : 0 <= q) by (rewrite Hm; apply Z.div_pos; lia).
    assert (Hqlt : q < 2 ^ prec).
    { rewrite Hm. apply Z.div_lt_upper_bound; [exact Hpow |].
      rewrite <- Z.pow_add_r by lia. destruct (digits2_bounds M) as [_ U].
      apply Z.lt_le_trans with (2 ^ Zpos (digits2_pos M)); [exact U |].
      apply Z.pow_le_mono_r; lia. }
    assert (Hqx : ex = f0 ->
                  round_nearest_even q (loc_of_shr_record (Build_shr_record q rb sb))
                  <= Zpos mx).
    { intros Heq. rewrite <- Heq in *.
      assert (Hqle : q <= Zpos mx).
      { rewrite Hm. apply Z.div_le_upper_bound; [exact Hpow |].
        rewrite Z.mul_comm. exact Hval. }
      destruct (Z_lt_le_dec q (Zpos mx)) as [Hqlt'|Hqge]; [lia |].
      assert (Hqeq : q = Zpos mx) by lia.
      assert (HM : Zpos M = Zpos mx * 2 ^ (ex - E)).
      { apply Z.le_antisymm; [exact Hval |].
        rewrite <- Hqeq, Hm, Z.mul_comm. apply Z.mul_div_le; exact Hpow. }
      assert (Hmod : Zpos M mod 2 ^ (ex - E) = 0).
      { rewrite HM. apply Z.mod_mul; lia. }
      destruct (Hexact Hmod) as [-> ->]. cbn [loc_of_shr_record round_nearest_even]. lia. }
    destruct (round_nearest_even q (loc_of_shr_record (Build_shr_record q rb sb)))
      as [|p1|p1] eqn:Em1; try lia.
    + rewrite (shr_fexp_zero f0 Hemin); cbn [fst snd shr_m pack at_most]. reflexivity.
    + assert (Hp1 : Zpos p1 <= 2 ^ prec) by lia.
      assert (Hd1 : Zpos (digits2_pos p1) <= prec + 1).
      { apply digits2_lt_pow. rewrite Z.pow_add_r, Z.pow_1_r by lia. lia. }
      destruct (second_stage s p1 f0 Hemin) as [[Hle2 ->]|(Hlt2 & Hf1 & m2 & Hm2 & ->)];
        unfold pack.
      * replace (f0 <=? emax - prec) with true by (symmetry; apply Z.leb_le; lia).
        cbn [at_most]. split; [reflexivity |].
        destruct (Z.eq_dec ex f0) as [Heq|Hne]; [right | left; lia].
        split; [lia |]. exact (Hqx Heq).
      * set (f1 := fexp_ (Zpos (digits2_pos p1) + f0)) in *.
        assert (Hne : ex <> f0).
        { intros Heq. specialize (Hqx Heq).
          assert (Zpos (digits2_pos p1) <= Zpos (digits2_pos mx) + 0).
          { apply digits2_ge; [lia | rewrite Z.pow_0_r; lia]. }
          assert (f1 <= ex).
          { rewrite <- Hcan. apply fexp_mono. lia. }
          lia. }
        assert (Hf1' : f1 = f0 + 1) by lia.
        assert (Hdp : Zpos (digits2_pos p1) = prec + 1) by lia.
        assert (Hp1' : Zpos p1 = 2 ^ prec).
        { destruct (digits2_bounds p1) as [L _]. rewrite Hdp in L.
          replace (prec + 1 - 1) with prec in L by lia. lia. }
        assert (Hm2' : Zpos m2 = 2 ^ (prec - 1)).
        { rewrite Hm2, Hp1', Hf1'. replace (f0 + 1 - f0) with 1 by lia.
          rewrite Z.pow_1_r. replace prec with (Z.succ (prec - 1)) at 1 by lia.
          rewrite Z.pow_succ_r by lia. rewrite Z.mul_comm, Z.div_mul by lia. reflexivity. }
        replace (f1 <=? emax - prec) with true by (symmetry; apply Z.leb_le; lia).
        cbn [at_most]. split; [reflexivity |].
        destruct (Z.eq_dec f1 ex) as [Heq|Hne']; [right | left; lia].
        split; [exact Heq |].
        assert (Hdx : Zpos (digits2_pos mx) = prec).
        { unfold SpecFloat.fexp in Hcan. unfold SpecFloat.fexp in Hemin. lia. }
        destruct (digits2_bounds mx) as [L _]. rewrite Hdx in L. lia.
Qed.

Lemma binary_round_lower (s : bool) (mx pm : positive) (ex ez : Z) :
  canonical_mantissa prec emax mx ex = true ->
  ez <= ex ->
  Zpos mx * 2 ^ (ex - ez) <= Zpos pm ->
  at_least s mx ex (binary_round prec emax s pm ez).
Proof.
  intros Hcan Hez Hval. unfold binary_round.
  destruct (shl_align_spec pm ez (fexp_ (Zpos (digits2_pos pm) + ez))) as [Hsnd Hfst].
  destruct (shl_align pm ez (fexp_ (Zpos (digits2_pos pm) + ez))) as [mz ez'].
  cbn [fst snd] in *.
  apply round_lower; [exact Hcan | lia |].
  rewrite Hfst. replace (ex - ez') with ((ex - ez) + (ez - ez')) by lia.
  rewrite Z.pow_add_r, Z.mul_assoc by lia.
  apply Z.mul_le_mono_nonneg_r; [apply Z.pow_nonneg; lia | exact Hval].
Qed.

Lemma binary_round_upper (s : bool) (mx pm : positive) (ex ez : Z) :
  canonical_mantissa prec emax mx ex = true ->
  ex <= emax - prec ->
  ez <= ex ->
  Zpos pm <= Zpos mx * 2 ^ (ex - ez) ->
  at_most s mx ex (binary_round prec emax s pm ez).
Proof.
  intros Hcan Hbound Hez Hval. unfold binary_round.
  destruct (shl_align_spec pm ez (fexp_ (Zpos (digits2_pos pm) + ez))) as [Hsnd Hfst].
  destruct (shl_align pm ez (fexp_ (Zpos (digits2_pos pm) + ez))) as [mz ez'].
  cbn [fst snd] in *.
  apply round_upper; [exact Hcan | exact Hbound | lia |].
  rewrite Hfst. replace (ex - ez') with ((ex - ez) + (ez - ez')) by lia.
  rewrite Z.pow_add_r, Z.mul_assoc by lia.
  apply Z.mul_le_mono_nonneg_r; [apply Z.pow_nonneg; lia | exact Hval].
Qed.

(** A rounded value has the sign it was given, unless it is NaN. *)
Lemma binary_round_sign (s : bool) (pm : positive) (ez : Z) :
  match binary_round prec emax s pm ez with
  | S754_zero s' | S754_infinity s' | S754_finite s' _ _ => s' = s
  | S754_nan => True
  end.
Proof.
  unfold binary_round. destruct (shl_align pm ez _) as [mz ez'].
  rewrite binary_round_aux_stages; cbv zeta. unfold pack.
  destruct (shr_m _) as [|m|m]; [reflexivity | | exact I].
  destruct (_ <=? _); reflexivity.
Qed.

Lemma at_least_not_lt (mx : positive) (ex : Z) (r : spec_float) :
  at_least false mx ex r -> SFltb r (S754_finite false mx ex) = false.
Proof.
  destruct r as [s|s| |s m2 e2]; cbn [at_least]; try contradiction.
  - intros ->; reflexivity.
  - intros [-> H]. unfold SFltb, SFcompare.
    destruct H as [H|[-> H]].
    + rewrite (proj2 (Z.compare_gt_iff e2 ex)) by lia. reflexivity.
    + rewrite Z.compare_refl.
      change (Pos.compare_cont Eq m2 mx) with (Pos.compare m2 mx).
      destruct (Pos.compare_spec m2 mx); try reflexivity. lia.
Qed.

Lemma at_most_not_lt (mx : positive) (ex : Z) (r : spec_float) :
  at_most true mx ex r -> SFltb r (S754_finite true mx ex) = false.
Proof.
  destruct r as [s|s| |s m2 e2]; cbn [at_most]; try contradiction.
  - intros ->; reflexivity.
  - intros [-> H]. unfold SFltb, SFcompare.
    destruct H as [H|[-> H]].
    + rewrite (proj2 (Z.compare_lt_iff e2 ex)) by lia. reflexivity.
    + rewrite Z.compare_refl.
      change (Pos.compare_cont Eq m2 mx) with (Pos.compare m2 mx).
      destruct (Pos.compare_spec m2 mx); try reflexivity. lia.
Qed.

(** The sum of a finite [x] and a positive finite number is not below [x]. *)
Lemma SFadd_finite_not_lt (sx : bool) (mx my : positive) (ex ey : Z) :
  bounded prec emax mx ex = true ->
  SFltb (SFadd prec emax (S754_finite sx mx ex) (S754_finite false my ey))
    (S754_finite sx mx ex) = false.
Proof.
  intros Hb. apply andb_prop in Hb; destruct Hb as [Hcan Hbound].
  apply Z.leb_le in Hbound.
  cbn [SFadd cond_Zopp].
  destruct (shl_align_spec mx ex (Z.min ex ey)) as [_ HX].
  destruct (shl_align_spec my ey (Z.min ex ey)) as [_ HY].
  replace (snd (shl_align mx ex (Z.min ex ey))) with (Z.min ex ey) in HX
    by (destruct (shl_align_spec mx ex (Z.min ex ey)) as [-> _]; lia).
  set (X := Zpos (fst (shl_align mx ex (Z.min ex ey)))) in *.
  set (Y := Zpos (fst (shl_align my ey (Z.min ex ey)))) in *.
  assert (HYpos : 0 < Y) by (unfold Y; lia).
  assert (HXpos : 0 < X) by (unfold X; lia).
  assert (Hez : Z.min ex ey <= ex) by lia.
  destruct sx; cbn [cond_Zopp].
  - destruct (- X + Y) as [|pm|pm] eqn:Em; cbn [binary_normalize].
    + reflexivity.
    + pose proof (binary_round_sign false pm (Z.min ex ey)) as Hs.
      destruct (binary_round prec emax false pm (Z.min ex ey)) as [s|s| |s m e];
        try rewrite Hs; reflexivity.
    + apply at_most_not_lt, binary_round_upper; try assumption. lia.
  - destruct (X + Y) as [|pm|pm] eqn:Em; cbn [binary_normalize]; try lia.
    apply at_least_not_lt, binary_round_lower; try assumption. lia.
Qed.

End Rounding.

Lemma SFltb_irrefl (x : spec_float) : SFltb x x = false.
Proof.
  unfold SFltb, SFcompare. destruct x as [s|[|]| |[|] m e]; try reflexivity;
    rewrite Z.compare_refl;
    change (Pos.compare_cont Eq m m) with (Pos.compare m m);
    rewrite Pos.compare_refl; reflexivity.
Qed.

(** Adding a number that is not negative does not give less, unless the sum
    is NaN. *)
Lemma SFadd_nonneg_not_lt (x y : spec_float) :
  valid_binary x = true ->
  SFleb (S754_zero false) y = true ->
  SF64add x y <> S754_nan ->
  SFltb (SF64add x y) x = false.
Proof.
  intros Hx Hy Hnan.
  destruct y as [sy|[|]| |[|] my ey]; try discriminate Hy.
  - (* a zero *)
    destruct x as [[|]|sx| |sx mx ex], sy; try apply SFltb_irrefl; try reflexivity.
  - (* plus infinity *)
    destruct x as [sx|[|]| |sx mx ex]; try reflexivity; try destruct sx; try reflexivity;
      contradiction Hnan; reflexivity.
  - (* a positive finite number *)
    destruct x as [sx|sx| |sx mx ex].
    + reflexivity.
    + apply SFltb_irrefl.
    + reflexivity.
    + apply (SFadd_finite_not_lt prec emax); [reflexivity | exact Hx].
Qed.

(** Two numbers neither of which is below the other are equal. *)
Lemma SFcompare_Eq_of_not_lt (x y : spec_float) :
  x <> S754_nan -> y <> S754_nan ->
  SFltb x y = false -> SFltb y x = false -> SFeqb x y = true.
Proof.
  unfold SFltb, SFeqb, SFcompare.
  destruct x as [sx|sx| |sx mx ex], y as [sy|sy| |sy my ey]; intros Hx Hy;
    try contradiction; try reflexivity;
    try destruct sx; try destruct sy; try discriminate; try reflexivity;
    intros H1 H2; compare_cases; simpl in *; try discriminate; try reflexivity;
    subst; lia.
Qed.

Lemma Prim2SF_not_nan (x : float) : is_nan x = false -> Prim2SF x <> S754_nan.
Proof.
  unfold is_nan; rewrite eqb_spec; intros H E; rewrite E in H; discriminate H.
Qed.

(** [max(a, a + b)] is [a + b] when [b >= 0], unless the sum is NaN. *)
Lemma pymax_add_nonneg (a b : float) :
  (0 <=? b)%float = true ->
  is_nan (a + b)%float = false ->
  same_seconds (pymax a (a + b)%float) (a + b)%float.
Proof.
  intros Hb Hnan. apply Prim2SF_not_nan in Hnan.
  unfold pymax. destruct (a <? a + b)%float eqn:Hlt; [left; reflexivity | right].
  rewrite eqb_spec. rewrite ltb_spec in Hlt.
  assert (Hge : SFltb (Prim2SF (a + b)%float) (Prim2SF a) = false).
  { rewrite add_spec. apply SFadd_nonneg_not_lt.
    - apply Prim2SF_valid.
    - rewrite leb_spec in Hb. exact Hb.
    - rewrite <- add_spec. exact Hnan. }
  apply SFcompare_Eq_of_not_lt; try assumption.
  intros Ea. apply Hnan. rewrite add_spec, Ea. reflexivity.
Qed.

(** ** Truncation *)

(** What a call of [truncate] that passes both assertions returns. *)
Lemma Cut_truncate_Ok (self : Cut) (offset : Seconds) (until : option Seconds)
  (keep : bool) (n : nat) (c' : Cut) (n' : nat) :
  Cut_truncate self offset until keep n = Ok (c', n') ->
  let new_start := truncated_start self offset in
  let new_duration := truncated_duration self offset until in
  let window := mkTimeSpan new_start (new_start + new_duration)%float in
  (0 <? new_duration)%float = true /\
  (new_start + new_duration <=? start self + duration self + tolerance)%float = true /\
  c' = mkCut (uuid4 n) (channel self) new_start new_duration (features self)
         (filter (fun segment => (if keep then overlaps else overspans) window segment)
            (supervisions self)) /\
  n' = S n.
Proof.
  unfold Cut_truncate, truncated_start, truncated_duration; intros H.
  destruct until as [until|];
    apply assert_Ok in H; destruct H as [H1 H];
    apply assert_Ok in H; destruct H as [H2 H];
    inversion H; subst; repeat split; assumption.
Qed.

(** Without [until], the duration returned is the duration of the cut minus
    the absolute start of the new cut. *)
Lemma Cut_truncate_without_until (self : Cut) (offset : Seconds) (keep : bool)
  (n : nat) (c' : Cut) (n' : nat) :
  Cut_truncate self offset None keep n = Ok (c', n') ->
  start c' = (start self + offset)%float /\
  duration c' = (duration self - (start self + offset))%float.
Proof.
  intros H; apply Cut_truncate_Ok in H; destruct H as (_ & _ & -> & _).
  split; reflexivity.
Qed.

(** A window that spans a supervision overlaps it. *)
Lemma overspans_overlaps (w : TimeSpan) (s : SupervisionSegment) :
  overspans w s = true -> overlaps w s = true.
Proof.
  unfold overspans, overlaps; intros H.
  apply andb_prop in H; destruct H as [H H3].
  apply andb_prop in H; destruct H as [H1 H2].
  apply andb_true_intro; split.
  - exact (leb_trans _ _ _ H1 H2).
  - exact (leb_trans _ _ _ H2 H3).
Qed.

(** C4. A truncation that passes its assertions keeps a supervision of the
    cut exactly when the supervision overlaps the new window
    [[new start, new start + new duration]] if [keep_excessive_supervisions]
    is true, and exactly when the window spans it if the flag is false; and
    for the same arguments what the second rule keeps is part of what the
    first keeps, in the same order. *)
Theorem truncate_keeps_by_criterion
  (self : Cut) (offset : Seconds) (until : option Seconds) :
  (forall (keep : bool) (n : nat) (c' : Cut) (n' : nat),
      Cut_truncate self offset until keep n = Ok (c', n') ->
      let window := mkTimeSpan (start c') (start c' + duration c')%float in
      forall s,
        In s (supervisions c') <->
        In s (supervisions self) /\
        (if keep then overlaps window s else overspans window s) = true) /\
  (forall (n m : nat) (kept_overlapping kept_contained : Cut) (n' m' : nat),
      Cut_truncate self offset until true n = Ok (kept_overlapping, n') ->
      Cut_truncate self offset until false m = Ok (kept_contained, m') ->
      start kept_contained = start kept_overlapping /\
      duration kept_contained = duration kept_overlapping /\
      subsequence (supervisions kept_contained) (supervisions kept_overlapping) /\
      forall s, In s (supervisions kept_contained) ->
                In s (supervisions kept_overlapping)).
Proof.
  split.
  - intros keep n c' n' H.
    apply Cut_truncate_Ok in H; destruct H as (_ & _ & -> & _); simpl.
    intros s; rewrite filter_In; destruct keep; reflexivity.
  - intros n m c1 c2 n' m' H1 H2.
    apply Cut_truncate_Ok in H1; destruct H1 as (_ & _ & -> & _).
    apply Cut_truncate_Ok in H2; destruct H2 as (_ & _ & -> & _).
    simpl; split; [reflexivity | split; [reflexivity | ]].
    assert (Hsub : subsequence
              (filter
                 (overspans
                    (mkTimeSpan (truncated_start self offset)
                       (truncated_start self offset
                        + truncated_duration self offset until)%float))
                 (supervisions self))
              (filter
                 (overlaps
                    (mkTimeSpan (truncated_start self offset)
                       (truncated_start self offset
                        + truncated_duration self offset until)%float))
                 (supervisions self))).
    { apply filter_subsequence; intros s _; apply overspans_overlaps. }
    split; [exact Hsub | exact (subsequence_In _ _ Hsub)].
Qed.

(** C10. The supervisions of a truncated cut are a subsequence of the
    supervisions of the cut: the same values, in the same order. *)
Theorem truncate_supervisions_subsequence
  (self : Cut) (offset : Seconds) (until : option Seconds) (keep : bool) (n : nat)
  (c' : Cut) (n' : nat) :
  Cut_truncate self offset until keep n = Ok (c', n') ->
  subsequence (supervisions c') (supervisions self) /\
  (forall s, In s (supervisions c') -> In s (supervisions self)).
Proof.
  intros H; apply Cut_truncate_Ok in H; destruct H as (_ & _ & -> & _); simpl.
  assert (Hsub : subsequence
            (filter
               (fun segment =>
                  (if keep then overlaps else overspans)
                    (mkTimeSpan (truncated_start self offset)
                       (truncated_start self offset
                        + truncated_duration self offset until)%float) segment)
               (supervisions self))
            (supervisions self)) by apply filter_subsequence_self.
  split; [exact Hsub | exact (subsequence_In _ _ Hsub)].
Qed.

(** ** Mixed cuts *)

(** Once the cut set and both operands are found, [duration] is the maximum
    over the operands' own durations. *)
Lemma MixedCut_duration_step (fuel : nat) (h : heap) (self : MixedCut) (r : nat)
  (left right : AnyCut) :
  _cut_set self = Some r ->
  getitem (cuts (h r)) (left_cut_id self) = Ok left ->
  getitem (cuts (h r)) (right_cut_id self) = Ok right ->
  MixedCut_duration (S fuel) h self =
  (left_duration <- AnyCut_duration fuel h left ;;
   right_duration <- AnyCut_duration fuel h right ;;
   Ok (pymax left_duration (offset_right_by self + right_duration)%float)).
Proof.
  intros Hr Hl Hrt; simpl; unfold get_cut_set; rewrite Hr; simpl.
  rewrite Hl; simpl.
  destruct left as [c|m]; simpl;
    [| destruct (MixedCut_duration fuel h m); simpl; [| reflexivity]];
    rewrite Hrt; simpl; destruct right; reflexivity.
Qed.

Lemma MixedCut_supervisions_step (fuel : nat) (h : heap) (self : MixedCut) (r : nat)
  (left right : AnyCut) :
  _cut_set self = Some r ->
  getitem (cuts (h r)) (left_cut_id self) = Ok left ->
  getitem (cuts (h r)) (right_cut_id self) = Ok right ->
  MixedCut_supervisions (S fuel) h self =
  (left_supervisions <- AnyCut_supervisions fuel h left ;;
   right_supervisions <- AnyCut_supervisions fuel h right ;;
   Ok (left_supervisions ++ right_supervisions)).
Proof.
  intros Hr Hl Hrt; simpl; unfold get_cut_set; rewrite Hr; simpl.
  rewrite Hl; simpl.
  destruct left as [c|m]; simpl;
    [| destruct (MixedCut_supervisions fuel h m); simpl; [| reflexivity]];
    rewrite Hrt; simpl; destruct right; reflexivity.
Qed.

(** A property that has a value keeps it with a deeper call stack. *)
Lemma MixedCut_duration_fuel (h : heap) (fuel : nat) :
  forall (self : MixedCut) (d : Seconds),
    MixedCut_duration fuel h self = Ok d ->
    forall fuel', fuel <= fuel' -> MixedCut_duration fuel' h self = Ok d.
Proof.
  induction fuel as [|fuel IH]; intros self d H fuel' Hle; [discriminate H|].
  destruct fuel' as [|fuel']; [lia|].
  assert (Hle' : fuel <= fuel') by lia.
  simpl in H |- *.
  destruct (get_cut_set h self) as [cs|e]; simpl in *; [| discriminate H].
  destruct (getitem (cuts cs) (left_cut_id self)) as [l|e]; simpl in *; [| discriminate H].
  assert (Hl : forall dl,
             match l with ACut c => Ok (duration c) | AMixedCut m => MixedCut_duration fuel h m end
             = Ok dl ->
             match l with ACut c => Ok (duration c) | AMixedCut m => MixedCut_duration fuel' h m end
             = Ok dl).
  { destruct l as [c|m]; intros dl Hdl; [exact Hdl | exact (IH _ _ Hdl _ Hle')]. }
  destruct (match l with ACut c => Ok (duration c) | AMixedCut m => MixedCut_duration fuel h m end)
    as [dl|e]; simpl in *; [| discriminate H].
  rewrite (Hl dl eq_refl); simpl.
  destruct (getitem (cuts cs) (right_cut_id self)) as [rt|e]; simpl in *; [| discriminate H].
  assert (Hr : forall dr,
             match rt with ACut c => Ok (duration c) | AMixedCut m => MixedCut_duration fuel h m end
             = Ok dr ->
             match rt with ACut c => Ok (duration c) | AMixedCut m => MixedCut_duration fuel' h m end
             = Ok dr).
  { destruct rt as [c|m]; intros dr Hdr; [exact Hdr | exact (IH _ _ Hdr _ Hle')]. }
  destruct (match rt with ACut c => Ok (duration c) | AMixedCut m => MixedCut_duration fuel h m end)
    as [dr|e]; simpl in *; [| discriminate H].
  rewrite (Hr dr eq_refl); simpl; exact H.
Qed.

Lemma MixedCut_supervisions_fuel (h : heap) (fuel : nat) :
  forall (self : MixedCut) (ss : list SupervisionSegment),
    MixedCut_supervisions fuel h self = Ok ss ->
    forall fuel', fuel <= fuel' -> MixedCut_supervisions fuel' h self = Ok ss.
Proof.
  induction fuel as [|fuel IH]; intros self d H fuel' Hle; [discriminate H|].
  destruct fuel' as [|fuel']; [lia|].
  assert (Hle' : fuel <= fuel') by lia.
  simpl in H |- *.
  destruct (get_cut_set h self) as [cs|e]; simpl in *; [| discriminate H].
  destruct (getitem (cuts cs) (left_cut_id self)) as [l|e]; simpl in *; [| discriminate H].
  assert (Hl : forall dl,
             match l with ACut c => Ok (supervisions c) | AMixedCut m => MixedCut_supervisions fuel h m end
             = Ok dl ->
             match l with ACut c => Ok (supervisions c) | AMixedCut m => MixedCut_supervisions fuel' h m end
             = Ok dl).
  { destruct l as [c|m]; intros dl Hdl; [exact Hdl | exact (IH _ _ Hdl _ Hle')]. }
  destruct (match l with ACut c => Ok (supervisions c) | AMixedCut m => MixedCut_supervisions fuel h m end)
    as [dl|e]; simpl in *; [| discriminate H].
  rewrite (Hl dl eq_refl); simpl.
  destruct (getitem (cuts cs) (right_cut_id self)) as [rt|e]; simpl in *; [| discriminate H].
  assert (Hr : forall dr,
             match rt with ACut c => Ok (supervisions c) | AMixedCut m => MixedCut_supervisions fuel h m end
             = Ok dr ->
             match rt with ACut c => Ok (supervisions c) | AMixedCut m => MixedCut_supervisions fuel' h m end
             = Ok dr).
  { destruct rt as [c|m]; intros dr Hdr; [exact Hdr | exact (IH _ _ Hdr _ Hle')]. }
  destruct (match rt with ACut c => Ok (supervisions c) | AMixedCut m => MixedCut_supervisions fuel h m end)
    as [dr|e]; simpl in *; [| discriminate H].
  rewrite (Hr dr eq_refl); simpl; exact H.
Qed.

Lemma AnyCut_duration_fuel (h : heap) (fuel fuel' : nat) (c : AnyCut) (d : Seconds) :
  AnyCut_duration fuel h c = Ok d -> fuel <= fuel' -> AnyCut_duration fuel' h c = Ok d.
Proof.
  destruct c as [c|m]; simpl; intros H Hle;
    [exact H | exact (MixedCut_duration_fuel h _ _ _ H _ Hle)].
Qed.

Lemma AnyCut_supervisions_fuel (h : heap) (fuel fuel' : nat) (c : AnyCut)
  (ss : list SupervisionSegment) :
  AnyCut_supervisions fuel h c = Ok ss -> fuel <= fuel' ->
  AnyCut_supervisions fuel' h c = Ok ss.
Proof.
  destruct c as [c|m]; simpl; intros H Hle;
    [exact H | exact (MixedCut_supervisions_fuel h _ _ _ H _ Hle)].
Qed.

(** C3. For a mixed cut bound to a cut set in which both operand ids are
    found, [duration] is [max(left.duration, offset_right_by +
    right.duration)], whatever the operands are (cuts, or mixed cuts whose own
    duration has a value); and [a.overlay(b, 0.0, 0.0)], bound to a cut set
    that holds [a] and [b] under their ids, has the duration
    [max(a.duration, b.duration)]. *)
Theorem MixedCut_duration_is_max (h : heap) :
  (forall (self : MixedCut) (r : nat) (left right : AnyCut) (fuel : nat)
          (left_duration right_duration : Seconds),
      _cut_set self = Some r ->
      getitem (cuts (h r)) (left_cut_id self) = Ok left ->
      getitem (cuts (h r)) (right_cut_id self) = Ok right ->
      AnyCut_duration fuel h left = Ok left_duration ->
      AnyCut_duration fuel h right = Ok right_duration ->
      forall fuel', fuel < fuel' ->
        MixedCut_duration fuel' h self =
        Ok (pymax left_duration (offset_right_by self + right_duration)%float)) /\
  (forall (a b : Cut) (n r fuel : nat),
      getitem (cuts (h r)) (Cut_id a) = Ok (ACut a) ->
      getitem (cuts (h r)) (Cut_id b) = Ok (ACut b) ->
      exists d,
        MixedCut_duration (S fuel) h
          (MixedCut_with_cut_set (fst (Cut_overlay a b 0%float 0%float n)) r) = Ok d /\
        same_seconds d (pymax (duration a) (duration b))).
Proof.
  split.
  - intros self r left right fuel dl dr Hr Hl Hrt Hdl Hdr fuel' Hlt.
    destruct fuel' as [|fuel']; [lia|].
    rewrite (MixedCut_duration_step fuel' h self r left right Hr Hl Hrt).
    rewrite (AnyCut_duration_fuel h fuel fuel' left _ Hdl) by lia; simpl.
    rewrite (AnyCut_duration_fuel h fuel fuel' right _ Hdr) by lia; reflexivity.
  - intros a b n r fuel Ha Hb.
    exists (pymax (duration a) (0 + duration b)%float); split.
    + rewrite (MixedCut_duration_step fuel h _ r (ACut a) (ACut b));
        [reflexivity | reflexivity | exact Ha | exact Hb].
    + apply pymax_add_zero_l.
Qed.

(** C8. For a mixed cut bound to a cut set in which both operand ids are
    found, [supervisions] is the list of the left operand's supervisions
    followed by the list of the right operand's: every entry of either, as it
    is, no entry dropped or changed. *)
Theorem MixedCut_supervisions_is_concatenation (h : heap)
  (self : MixedCut) (r : nat) (left right : AnyCut) (fuel : nat)
  (left_supervisions right_supervisions : list SupervisionSegment) :
  _cut_set self = Some r ->
  getitem (cuts (h r)) (left_cut_id self) = Ok left ->
  getitem (cuts (h r)) (right_cut_id self) = Ok right ->
  AnyCut_supervisions fuel h left = Ok left_supervisions ->
  AnyCut_supervisions fuel h right = Ok right_supervisions ->
  forall fuel', fuel < fuel' ->
    MixedCut_supervisions fuel' h self = Ok (left_supervisions ++ right_supervisions) /\
    (forall ss, MixedCut_supervisions fuel' h self = Ok ss ->
                List.length ss
                = List.length left_supervisions + List.length right_supervisions).
Proof.
  intros Hr Hl Hrt Hdl Hdr fuel' Hlt.
  destruct fuel' as [|fuel']; [lia|].
  assert (E : MixedCut_supervisions (S fuel') h self
              = Ok (left_supervisions ++ right_supervisions)).
  { rewrite (MixedCut_supervisions_step fuel' h self r left right Hr Hl Hrt).
    rewrite (AnyCut_supervisions_fuel h fuel fuel' left _ Hdl) by lia; simpl.
    rewrite (AnyCut_supervisions_fuel h fuel fuel' right _ Hdr) by lia; reflexivity. }
  split; [exact E |].
  intros ss Hss; rewrite E in Hss; inversion Hss; subst; apply length_app.
Qed.

(** C5. A mixed cut on which [with_cut_set] was never called raises
    [AttributeError] (no [_cut_set]) from [load_features], [duration] and
    [supervisions]; the same mixed cut bound to a cut set that holds two cuts
    under its operand ids, with equal frame length and frame shift, loads its
    features: the overlay of the two cuts' padded features. *)
Theorem MixedCut_load_features_needs_binding (h : heap) (self : MixedCut)
  (root_dir : option Pathlike) :
  _cut_set self = None ->
  (MixedCut_load_features h self root_dir = Raise (AttributeError "_cut_set") /\
   forall fuel,
     MixedCut_duration (S fuel) h self = Raise (AttributeError "_cut_set") /\
     MixedCut_supervisions (S fuel) h self = Raise (AttributeError "_cut_set")) /\
  (forall (r : nat) (cut0 cut1 : Cut),
      getitem (cuts (h r)) (left_cut_id self) = Ok (ACut cut0) ->
      getitem (cuts (h r)) (right_cut_id self) = Ok (ACut cut1) ->
      (frame_length (features cut0) =? frame_length (features cut1))%float = true ->
      (frame_shift (features cut0) =? frame_shift (features cut1))%float = true ->
      MixedCut_load_features h (MixedCut_with_cut_set self r) root_dir =
      Ok (let feats :=
            pad_shorter (Cut_load_features cut0 root_dir)
              (Cut_load_features cut1 root_dir) in
          overlay_fbank (fst feats) (snd feats) (snr self) (offset_right_by self)
            (frame_length (features cut0)) (frame_shift (features cut0)))).
Proof.
  intros Hunbound; split.
  - split; [| intros fuel; split];
      simpl; unfold MixedCut_load_features, get_cut_set; rewrite Hunbound; reflexivity.
  - intros r cut0 cut1 Hl Hrt Hfl Hfs.
    unfold MixedCut_load_features, get_cut_set; simpl.
    rewrite Hl; simpl; rewrite Hrt; simpl.
    rewrite Hfl, Hfs; reflexivity.
Qed.

(** C7, amended.  [a.append(b, g)] is [a.overlay(b, a.duration, g)]: the same
    mixed cut when the same identifier is drawn, and whatever identifiers are
    drawn the same operands, offset, gain and (absent) binding.  Bound to a
    cut set that holds [a] and [b] under their ids, its duration is
    [max(a.duration, a.duration + b.duration)], which is the number
    [a.duration + b.duration] when [b.duration >= 0] and that sum is not
    NaN. *)
Theorem append_is_overlay_at_the_end (a b : Cut) (g : Decibels) :
  (forall n, Cut_append a b g n = Cut_overlay a b (duration a) g n) /\
  (forall n n',
      let appended := fst (Cut_append a b g n) in
      let overlaid := fst (Cut_overlay a b (duration a) g n') in
      left_cut_id appended = left_cut_id overlaid /\
      right_cut_id appended = right_cut_id overlaid /\
      offset_right_by appended = offset_right_by overlaid /\
      snr appended = snr overlaid /\
      _cut_set appended = _cut_set overlaid) /\
  (forall (h : heap) (n r fuel : nat),
      getitem (cuts (h r)) (Cut_id a) = Ok (ACut a) ->
      getitem (cuts (h r)) (Cut_id b) = Ok (ACut b) ->
      MixedCut_duration (S fuel) h (MixedCut_with_cut_set (fst (Cut_append a b g n)) r)
      = Ok (pymax (duration a) (duration a + duration b)%float) /\
      ((0 <=? duration b)%float = true ->
       is_nan (duration a + duration b)%float = false ->
       same_seconds (pymax (duration a) (duration a + duration b)%float)
         (duration a + duration b)%float)).
Proof.
  split; [intros n; reflexivity |].
  split; [intros n n'; cbv zeta; repeat split |].
  intros h n r fuel Ha Hb; split.
  - rewrite (MixedCut_duration_step fuel h _ r (ACut a) (ACut b));
      [reflexivity | reflexivity | exact Ha | exact Hb].
  - apply pymax_add_nonneg.
Qed.

(** ** Cut sets *)

Lemma In_setitem {V : Type} (d : dict V) (k : string) (v : V) (k' : string) (v' : V) :
  In (k', v') (setitem d k v) -> (k', v') = (k, v) \/ In (k', v') d.
Proof.
  induction d as [|[k1 v1] d IH]; simpl.
  - intros [H|[]]; left; symmetry; exact H.
  - destruct (String.eqb_spec k1 k) as [->|Hne]; simpl.
    + intros [H|H]; [left; symmetry; exact H | right; right; exact H].
    + intros [H|H]; [right; left; exact H |].
      destruct (IH H) as [E|Hin]; [left; exact E | right; right; exact Hin].
Qed.

(** Every entry of a dictionary built by assignments is an assigned pair or an
    entry that was there before. *)
Lemma In_fold_setitem {V : Type} (items : list (string * V)) (d : dict V)
  (k : string) (v : V) :
  In (k, v) (fold_left (fun d kv => setitem d (fst kv) (snd kv)) items d) ->
  In (k, v) items \/ In (k, v) d.
Proof.
  revert d; induction items as [|[k1 v1] items IH]; simpl; intros d H.
  - right; exact H.
  - destruct (IH _ H) as [Hin|Hin]; [left; right; exact Hin |].
    destruct (In_setitem _ _ _ _ _ Hin) as [E|Hd];
      [left; left; symmetry; exact E | right; exact Hd].
Qed.

Lemma In_dict_of_items {V : Type} (items : list (string * V)) (k : string) (v : V) :
  In (k, v) (dict_of_items items) -> In (k, v) items.
Proof.
  intros H; destruct (In_fold_setitem items [] k v H) as [Hin|[]]; exact Hin.
Qed.

Lemma setitem_fresh {V : Type} (d : dict V) (k : string) (v : V) :
  ~ In k (keys d) -> setitem d k v = d ++ [(k, v)].
Proof.
  induction d as [|[k1 v1] d IH]; simpl; intros Hfresh; [reflexivity|].
  destruct (String.eqb_spec k1 k) as [->|Hne].
  - exfalso; apply Hfresh; left; reflexivity.
  - rewrite IH; [reflexivity | intros Hin; apply Hfresh; right; exact Hin].
Qed.

(** Assigning pairs with distinct new keys appends them in order. *)
Lemma fold_setitem_fresh {V : Type} (items : list (string * V)) (d : dict V) :
  NoDup (keys d ++ keys items) ->
  fold_left (fun d kv => setitem d (fst kv) (snd kv)) items d = d ++ items.
Proof.
  revert d; induction items as [|[k1 v1] items IH]; simpl; intros d Hnd.
  - rewrite app_nil_r; reflexivity.
  - rewrite setitem_fresh.
    + rewrite IH; [rewrite <- app_assoc; reflexivity |].
      unfold keys in *; rewrite map_app; simpl; rewrite <- app_assoc; exact Hnd.
    + apply NoDup_remove_2 in Hnd; intros Hin; apply Hnd.
      apply in_or_app; left; exact Hin.
Qed.

Lemma dict_of_items_NoDup {V : Type} (items : list (string * V)) :
  NoDup (keys items) -> dict_of_items items = items.
Proof.
  intros Hnd; unfold dict_of_items; rewrite fold_setitem_fresh; [reflexivity | exact Hnd].
Qed.

(** Deleting other keys leaves what [id] holds. *)
Lemma MixedCut_init_id (kwargs : dict yaml) (m : MixedCut) :
  MixedCut_init kwargs = Ok m -> dict_get kwargs "id" = Some (YStr (MixedCut_id m)).
Proof.
  unfold MixedCut_init; destruct (only_fields _ kwargs); [| discriminate].
  unfold required; destruct (dict_get kwargs "id") as [y|]; simpl; [| discriminate].
  intros H.
  repeat (apply bind_Ok in H; let E := fresh "E" in destruct H as (? & E & H)).
  inversion H; subst; simpl.
  destruct y; simpl in *; congruence.
Qed.

Lemma Cut_init_id (kwargs : dict yaml) (f : Features) (ss : list SupervisionSegment)
  (c : Cut) :
  Cut_init kwargs f ss = Ok c -> dict_get kwargs "id" = Some (YStr (Cut_id c)).
Proof.
  unfold Cut_init; destruct (only_fields _ kwargs); [| discriminate].
  unfold required; destruct (dict_get kwargs "id") as [y|]; simpl; [| discriminate].
  intros H.
  repeat (apply bind_Ok in H; let E := fresh "E" in destruct H as (? & E & H)).
  inversion H; subst; simpl.
  destruct y; simpl in *; congruence.
Qed.

Lemma deserialize_one_id (cut : dict yaml) (c : AnyCut) :
  deserialize_one cut = Ok c -> dict_get cut "id" = Some (YStr (AnyCut_id c)).
Proof.
  unfold deserialize_one; intros H.
  apply bind_Ok in H; destruct H as (cut_type & _ & H).
  apply bind_Ok in H; destruct H as (cut1 & Hdel1 & H).
  rewrite <- (dict_get_delitem_other cut cut1 "type" "id" Hdel1) by discriminate.
  destruct (is_str cut_type "MixedCut").
  - apply bind_Ok in H; destruct H as (m & Hm & H); inversion H; subst; simpl.
    apply MixedCut_init_id; exact Hm.
  - destruct (negb (is_str cut_type "Cut")); [discriminate H|].
    apply bind_Ok in H; destruct H as (feature_info & _ & H).
    apply bind_Ok in H; destruct H as (cut2 & Hdel2 & H).
    apply bind_Ok in H; destruct H as (supervision_infos & _ & H).
    apply bind_Ok in H; destruct H as (cut3 & Hdel3 & H).
    apply bind_Ok in H; destruct H as (fi & _ & H).
    apply bind_Ok in H; destruct H as (f & _ & H).
    apply bind_Ok in H; destruct H as (ss & _ & H).
    apply bind_Ok in H; destruct H as (c0 & Hc & H); inversion H; subst; simpl.
    rewrite <- (dict_get_delitem_other cut1 cut2 "features" "id" Hdel2) by discriminate.
    rewrite <- (dict_get_delitem_other cut2 cut3 "supervisions" "id" Hdel3) by discriminate.
    apply (Cut_init_id _ _ _ _ Hc).
Qed.

(** C9. In a cut set made by [from_yaml], by [make_cuts_from_supervisions] or
    by [mix_stereo_cut_set], every entry is stored under its own id. *)
Theorem produced_cut_sets_are_keyed_by_id :
  (forall (raw_cuts : yaml) (cut_set : CutSet),
      CutSet_from_yaml raw_cuts = Ok cut_set ->
      forall k c, In (k, c) (cuts cut_set) -> AnyCut_id c = k) /\
  (forall (supervision_set : list SupervisionSegment) (feature_set : FeatureSet)
          (n : nat) (k : string) (c : AnyCut),
      In (k, c) (cuts (fst (make_cuts_from_supervisions supervision_set feature_set n))) ->
      AnyCut_id c = k) /\
  (forall (source : CutSet) (n : nat) (cut_set : CutSet) (n' : nat),
      mix_stereo_cut_set source n = Ok (cut_set, n') ->
      forall k c, In (k, c) (cuts cut_set) -> AnyCut_id c = k).
Proof.
  split; [| split].
  - intros raw_cuts cut_set H k c Hin.
    destruct raw_cuts as [| | | | s |l|m]; try discriminate H.
    + destruct s; [| discriminate H]. inversion H; subst; destruct Hin.
    + simpl in H. apply bind_Ok in H; destruct H as (items & Hitems & H).
      inversion H; subst; simpl in Hin. apply In_dict_of_items in Hin.
      destruct (traverse_Ok_In _ _ _ Hitems _ Hin) as (y & _ & Hy).
      destruct y; try discriminate Hy.
      apply bind_Ok in Hy; destruct Hy as (key & Hkey & Hy).
      apply bind_Ok in Hy; destruct Hy as (value & Hvalue & Hy).
      apply bind_Ok in Hy; destruct Hy as (key' & Hkey' & Hy).
      inversion Hy; subst.
      apply getitem_Ok in Hkey. rewrite (deserialize_one_id _ _ Hvalue) in Hkey.
      inversion Hkey; subst; simpl in Hkey'; inversion Hkey'; reflexivity.
    + destruct m; [| discriminate H]. inversion H; subst; destruct Hin.
  - intros supervision_set feature_set n k c Hin; simpl in Hin.
    apply In_dict_of_items in Hin. apply in_map_iff in Hin.
    destruct Hin as (cut & E & _); inversion E; reflexivity.
  - intros source n cut_set n' H k c Hin. unfold mix_stereo_cut_set in H.
    apply bind_Ok in H; destruct H as (cs & _ & H).
    apply bind_Ok in H; destruct H as (cuts0 & _ & H).
    apply bind_Ok in H; destruct H as (cuts1 & _ & H).
    inversion H; subst; simpl in Hin.
    apply In_dict_of_items in Hin. apply in_map_iff in Hin.
    destruct Hin as (cut & E & _); inversion E; reflexivity.
Qed.

Lemma traverse_map_Ok {A B C : Type} (f : B -> result C) (g : A -> B) (k : A -> C)
  (xs : list A) :
  (forall x, In x xs -> f (g x) = Ok (k x)) ->
  traverse f (map g xs) = Ok (map k xs).
Proof.
  induction xs as [|x xs IH]; simpl; intros H; [reflexivity|].
  rewrite (H x (or_introl eq_refl)); simpl.
  rewrite IH; [reflexivity | intros y Hy; apply H; right; exact Hy].
Qed.

(** What [from_yaml] makes of the record [to_yaml] wrote for one entry. *)
Lemma deserialize_one_asdict (c : AnyCut) :
  fields_present c ->
  deserialize_one (setitem (asdict_nonull c) "type" (YStr (type_name c)))
  = Ok (declared_fields c).
Proof.
  destruct c as [c|m]; simpl; intros Hc.
  - destruct Hc as [Hf Hss]. unfold deserialize_one; simpl.
    rewrite Hf; simpl.
    rewrite (traverse_map_Ok _ _ (fun s => s)).
    + rewrite map_id; simpl. destruct c; reflexivity.
    + intros s Hs; simpl. rewrite Forall_forall in Hss; apply Hss; exact Hs.
  - reflexivity.
Qed.

Lemma getitem_id_asdict (c : AnyCut) :
  getitem (setitem (asdict_nonull c) "type" (YStr (type_name c))) "id"
  = Ok (YStr (AnyCut_id c)).
Proof. destruct c; reflexivity. Qed.

Lemma dict_get_map_values {V W : Type} (f : V -> W) (d : dict V) (k : string) :
  dict_get (map (fun kv => (fst kv, f (snd kv))) d) k = option_map f (dict_get d k).
Proof.
  induction d as [|[k' v] d IH]; simpl; [reflexivity|].
  destruct (String.eqb k' k); [reflexivity | exact IH].
Qed.

(** C6. A cut set none of whose entries has an absent field, written by
    [to_yaml] and read back by [from_yaml], gives a cut set that holds, under
    the id of each entry, an entry of the same kind with the same declared
    fields; when the cut set stores every entry under the entry's own id, the
    cut set read back has the same keys, in the same order, and under each key
    the entry of the original with its declared fields unchanged. *)
Theorem yaml_round_trip (cut_set : CutSet) :
  (forall c, In c (CutSet_iter cut_set) -> fields_present c) ->
  CutSet_from_yaml (CutSet_to_yaml cut_set)
  = Ok (mkCutSet
          (dict_of_items
             (map (fun c => (AnyCut_id c, declared_fields c)) (CutSet_iter cut_set)))) /\
  (NoDup (keys (cuts cut_set)) ->
   (forall k c, In (k, c) (cuts cut_set) -> AnyCut_id c = k) ->
   exists restored,
     CutSet_from_yaml (CutSet_to_yaml cut_set) = Ok restored /\
     keys (cuts restored) = keys (cuts cut_set) /\
     forall k,
       dict_get (cuts restored) k = option_map declared_fields (dict_get (cuts cut_set) k)).
Proof.
  intros Hpresent.
  assert (E : CutSet_from_yaml (CutSet_to_yaml cut_set)
              = Ok (mkCutSet
                      (dict_of_items
                         (map (fun c => (AnyCut_id c, declared_fields c))
                            (CutSet_iter cut_set))))).
  { unfold CutSet_to_yaml, CutSet_from_yaml.
    rewrite (traverse_map_Ok _ _ (fun c => (AnyCut_id c, declared_fields c)));
      [reflexivity |].
    intros c Hc. cbv beta.
    rewrite getitem_id_asdict; cbn [bind].
    rewrite (deserialize_one_asdict c (Hpresent c Hc)); reflexivity. }
  split; [exact E |].
  intros Hnd Hkeys.
  assert (Eitems : map (fun c => (AnyCut_id c, declared_fields c)) (CutSet_iter cut_set)
                   = map (fun kv => (fst kv, declared_fields (snd kv))) (cuts cut_set)).
  { unfold CutSet_iter, values; rewrite map_map.
    apply map_ext_in; intros [k c] Hin; simpl.
    rewrite (Hkeys k c Hin); reflexivity. }
  assert (Ekeys : keys (map (fun kv => (fst kv, declared_fields (snd kv))) (cuts cut_set))
                  = keys (cuts cut_set)).
  { unfold keys; rewrite map_map; reflexivity. }
  exists (mkCutSet (map (fun kv => (fst kv, declared_fields (snd kv))) (cuts cut_set))).
  split; [| split].
  - rewrite E, Eitems, dict_of_items_NoDup; [reflexivity |].
    rewrite Ekeys; exact Hnd.
  - exact Ekeys.
  - intros k; simpl; apply dict_get_map_values.
Qed.

(** ** Dictionaries: lookups, keys and their order *)

Lemma dict_get_In {V : Type} (d : dict V) (k : string) (v : V) :
  dict_get d k = Some v -> In (k, v) d.
Proof.
  induction d as [|[k' v'] d IH]; simpl; [discriminate|].
  destruct (String.eqb_spec k' k) as [->|Hne]; intros H.
  - inversion H; left; reflexivity.
  - right; apply IH; exact H.
Qed.

Lemma dict_get_None {V : Type} (d : dict V) (k : string) :
  dict_get d k = None <-> ~ In k (keys d).
Proof.
  induction d as [|[k' v'] d IH]; simpl.
  - split; [intros _ [] | reflexivity].
  - destruct (String.eqb_spec k' k) as [->|Hne].
    + split; [discriminate | intros H; exfalso; apply H; left; reflexivity].
    + rewrite IH; split; intros H.
      * intros [E|Hin]; [contradiction | exact (H Hin)].
      * intros Hin; apply H; right; exact Hin.
Qed.

Lemma In_dict_get {V : Type} (d : dict V) (k : string) (v : V) :
  NoDup (keys d) -> In (k, v) d -> dict_get d k = Some v.
Proof.
  induction d as [|[k' v'] d IH]; simpl; intros Hnd Hin; [destruct Hin|].
  inversion Hnd as [|? ? Hfresh Hnd']; subst.
  destruct Hin as [E|Hin].
  - inversion E; subst; rewrite String.eqb_refl; reflexivity.
  - destruct (String.eqb_spec k' k) as [->|Hne].
    + exfalso; apply Hfresh. apply (in_map fst) in Hin; exact Hin.
    + apply IH; assumption.
Qed.

Lemma existsb_eqb_In (k : string) (l : list string) :
  existsb (String.eqb k) l = true <-> In k l.
Proof.
  rewrite existsb_exists; split.
  - intros (x & Hin & E); apply String.eqb_eq in E; subst; exact Hin.
  - intros Hin; exists k; split; [exact Hin | apply String.eqb_refl].
Qed.

Lemma existsb_eqb_not_In (k : string) (l : list string) :
  existsb (String.eqb k) l = false <-> ~ In k l.
Proof.
  rewrite <- existsb_eqb_In; destruct (existsb (String.eqb k) l); split; intros H;
    try reflexivity; try discriminate; try (intros E; discriminate E).
  exfalso; apply H; reflexivity.
Qed.

(** Assigning to a key keeps the keys and their order when the key is there,
    and adds the key at the end when it is new. *)
Lemma keys_setitem {V : Type} (d : dict V) (k : string) (v : V) :
  keys (setitem d k v)
  = if existsb (String.eqb k) (keys d) then keys d else keys d ++ [k].
Proof.
  induction d as [|[k' v'] d IH]; simpl; [reflexivity|].
  rewrite (String.eqb_sym k k').
  destruct (String.eqb_spec k' k) as [->|Hne]; simpl; [reflexivity|].
  fold (keys (setitem d k v)); fold (keys d); rewrite IH.
  destruct (existsb (String.eqb k) (keys d)); reflexivity.
Qed.

Lemma NoDup_keys_setitem {V : Type} (d : dict V) (k : string) (v : V) :
  NoDup (keys d) -> NoDup (keys (setitem d k v)).
Proof.
  intros Hnd; rewrite keys_setitem.
  destruct (existsb (String.eqb k) (keys d)) eqn:E; [exact Hnd|].
  apply existsb_eqb_not_In in E.
  apply NoDup_app; [exact Hnd | repeat constructor; intros [] |].
  intros x Hx [<-|[]]; exact (E Hx).
Qed.

Lemma NoDup_keys_fold_setitem {V : Type} (items : list (string * V)) (d : dict V) :
  NoDup (keys d) ->
  NoDup (keys (fold_left (fun d kv => setitem d (fst kv) (snd kv)) items d)).
Proof.
  revert d; induction items as [|[k1 v1] items IH]; simpl; intros d Hnd; [exact Hnd|].
  apply IH, NoDup_keys_setitem, Hnd.
Qed.

(** A dictionary built by a comprehension has no key twice. *)
Lemma NoDup_keys_dict_of_items {V : Type} (items : list (string * V)) :
  NoDup (keys (dict_of_items items)).
Proof. apply NoDup_keys_fold_setitem; constructor. Qed.

(** Looking a key up after a series of assignments: the value assigned, or
    what was there before. *)
Lemma dict_get_fold_setitem {V : Type} (items : list (string * V)) (d : dict V)
  (k : string) :
  NoDup (keys items) ->
  dict_get (fold_left (fun d kv => setitem d (fst kv) (snd kv)) items d) k
  = match dict_get items k with
    | Some v => Some v
    | None => dict_get d k
    end.
Proof.
  revert d; induction items as [|[k1 v1] items IH]; simpl; intros d Hnd; [reflexivity|].
  inversion Hnd as [|? ? Hfresh Hnd']; subst.
  rewrite (IH _ Hnd').
  destruct (String.eqb_spec k1 k) as [->|Hne].
  - assert (E : dict_get items k = None) by (apply dict_get_None; exact Hfresh).
    rewrite E; apply dict_get_setitem_same.
  - rewrite (dict_get_setitem_other d k1 k v1 Hne); reflexivity.
Qed.

Lemma keys_fold_setitem {V : Type} (items : list (string * V)) (d : dict V) :
  NoDup (keys items) ->
  keys (fold_left (fun d kv => setitem d (fst kv) (snd kv)) items d)
  = keys d ++ filter (fun k => negb (existsb (String.eqb k) (keys d))) (keys items).
Proof.
  revert d; induction items as [|[k1 v1] items IH]; simpl; intros d Hnd.
  - rewrite app_nil_r; reflexivity.
  - inversion Hnd as [|? ? Hfresh Hnd']; subst.
    rewrite (IH _ Hnd'), keys_setitem.
    destruct (existsb (String.eqb k1) (keys d)) eqn:E; simpl; [reflexivity|].
    rewrite <- app_assoc; simpl. f_equal. f_equal.
    apply filter_ext_in; intros k Hk.
    rewrite existsb_app; simpl. rewrite orb_false_r.
    destruct (String.eqb_spec k k1) as [->|Hne]; [contradiction|].
    rewrite orb_false_r; reflexivity.
Qed.

(** ** Truncation: failures and the window returned *)

(** X1. Whether [truncate] raises depends on the cut's [start] and [duration]
    and on [offset] and [until] alone, not on the supervisions, the flag or
    the identifier drawn; and the only exception it raises is
    [AssertionError]. *)
Theorem truncate_fails_only_by_assertion (self other : Cut) (offset : Seconds)
  (until : option Seconds) (keep keep' : bool) (n n' : nat) :
  start other = start self ->
  duration other = duration self ->
  match Cut_truncate self offset until keep n, Cut_truncate other offset until keep' n' with
  | Ok (c, m), Ok (c', m') =>
    start c' = start c /\ duration c' = duration c /\ m = S n /\ m' = S n'
  | Raise e, Raise e' => e = AssertionError /\ e' = AssertionError
  | _, _ => False
  end.
Proof.
  intros Hs Hd; unfold Cut_truncate; rewrite Hs, Hd.
  destruct until as [until|];
    match goal with
    | |- context [(0 <? ?d)%float] => destruct (0 <? d)%float
    end;
    try (split; reflexivity);
    match goal with
    | |- context [(?a <=? ?b)%float] => destruct (a <=? b)%float
    end;
    repeat split; reflexivity.
Qed.

Lemma SFltb_false_SFleb (x y : spec_float) :
  x <> S754_nan -> y <> S754_nan -> SFltb y x = false -> SFleb x y = true.
Proof.
  unfold SFltb, SFleb, SFcompare.
  destruct x as [sx|sx| |sx mx ex], y as [sy|sy| |sy my ey]; intros Hx Hy;
    try contradiction; try reflexivity;
    try destruct sx; try destruct sy; try discriminate; try reflexivity;
    intros H; compare_cases; simpl in *; try discriminate; try reflexivity;
    subst; lia.
Qed.

Lemma SFltb_SFleb (x y : spec_float) : SFltb x y = true -> SFleb x y = true.
Proof.
  unfold SFltb, SFleb; destruct (SFcompare x y) as [[| |]|]; try discriminate; reflexivity.
Qed.

Lemma SFleb_refl (x : spec_float) : x <> S754_nan -> SFleb x x = true.
Proof.
  intros Hx; apply SFltb_false_SFleb; try assumption; apply SFltb_irrefl.
Qed.

Lemma not_nan_Prim2SF (x : float) : Prim2SF x <> S754_nan -> is_nan x = false.
Proof.
  intros Hx; unfold is_nan; rewrite eqb_spec.
  rewrite (SFcompare_Eq_of_not_lt _ _ Hx Hx (SFltb_irrefl _) (SFltb_irrefl _)).
  reflexivity.
Qed.

(** A comparison that holds has no NaN on its left, and a sum that is not NaN
    has no NaN as its first term. *)
Lemma leb_true_not_nan (x y : float) : (x <=? y)%float = true -> is_nan x = false.
Proof.
  rewrite leb_spec; intros H; apply not_nan_Prim2SF; intros E; rewrite E in H.
  discriminate H.
Qed.

Lemma add_not_nan_l (x y : float) : is_nan (x + y)%float = false -> is_nan x = false.
Proof.
  intros H; apply Prim2SF_not_nan in H; apply not_nan_Prim2SF; intros E; apply H.
  rewrite add_spec, E; reflexivity.
Qed.

(** Adding a number that is not negative does not give less. *)
Lemma add_nonneg_le (x y : float) :
  (0 <=? y)%float = true ->
  is_nan (x + y)%float = false ->
  (x <=? x + y)%float = true.
Proof.
  intros Hy Hnan. apply Prim2SF_not_nan in Hnan.
  rewrite leb_spec. apply SFltb_false_SFleb.
  - intros Ex; apply Hnan; rewrite add_spec, Ex; reflexivity.
  - exact Hnan.
  - rewrite add_spec; apply SFadd_nonneg_not_lt.
    + apply Prim2SF_valid.
    + rewrite leb_spec in Hy; exact Hy.
    + rewrite <- add_spec; exact Hnan.
Qed.

(** X2. A cut returned by [truncate] has a positive duration, ends no later
    than the cut it comes from (up to the tolerance of 1e-5), keeps the
    channel and the features object, and carries the identifier drawn; when
    [offset >= 0] it does not start before the cut it comes from. *)
Theorem truncate_window_within_the_cut (self : Cut) (offset : Seconds)
  (until : option Seconds) (keep : bool) (n : nat) (c' : Cut) (n' : nat) :
  Cut_truncate self offset until keep n = Ok (c', n') ->
  (0 <? duration c')%float = true /\
  (Cut_end c' <=? Cut_end self + tolerance)%float = true /\
  ((0 <=? offset)%float = true -> (start self <=? start c')%float = true) /\
  channel c' = channel self /\
  features c' = features self /\
  Cut_id c' = uuid4 n /\
  n' = S n.
Proof.
  intros H; apply Cut_truncate_Ok in H; destruct H as (H1 & H2 & -> & ->).
  unfold Cut_end; simpl.
  split; [exact H1 |]. split; [exact H2 |].
  split; [| repeat split].
  intros Hoff. apply add_nonneg_le; [exact Hoff |].
  exact (add_not_nan_l _ _ (leb_true_not_nan _ _ H2)).
Qed.

(** ** Rounding a difference

    The difference of two floats is positive exactly when the first is the
    larger: the exact difference of two floats is a multiple of the smallest
    positive float, so rounding it cannot give zero, and rounding keeps the
    sign. *)

Section Differences.

Local Open Scope Z_scope.

Variables prec emax : Z.
Hypothesis prec_gt_0 : 0 < prec.

Local Abbreviation fexp_ := (SpecFloat.fexp prec emax).
Local Abbreviation emin_ := (SpecFloat.emin prec emax).

(** Rounding a positive mantissa at an exponent that is at least [emin]
    gives a finite number that is not zero, or an infinity, of the sign
    given. *)
Lemma round_aux_not_zero (s : bool) (M : positive) (E : Z) :
  emin_ <= E ->
  match binary_round_aux prec emax s (Zpos M) E loc_Exact with
  | S754_finite s' _ _ | S754_infinity s' => s' = s
  | _ => False
  end.
Proof.
  intros HE. rewrite binary_round_aux_stages; cbv zeta.
  assert (Hpack : forall (p : positive) (f0 : Z),
             emin_ <= f0 ->
             match pack prec emax s
                     (shr_m (fst (shr_fexp prec emax (Zpos p) f0 loc_Exact)))
                     (snd (shr_fexp prec emax (Zpos p) f0 loc_Exact)) with
             | S754_finite s' _ _ | S754_infinity s' => s' = s
             | _ => False
             end).
  { intros p f0 Hf0.
    destruct (second_stage prec emax prec_gt_0 s p f0 Hf0) as [[_ ->]|(_ & _ & m2 & _ & ->)];
      unfold pack; destruct (_ <=? _); reflexivity. }
  destruct (shr_fexp_exact prec emax M E) as [H1 H2].
  destruct (Z_le_gt_dec (fexp_ (Zpos (digits2_pos M) + E)) E) as [Hle|Hgt].
  - rewrite (H1 Hle); cbn [fst snd shr_m loc_of_shr_record round_nearest_even].
    apply Hpack; exact HE.
  - assert (Hlt : E < fexp_ (Zpos (digits2_pos M) + E)) by lia.
    destruct (H2 Hlt) as [Hsnd [Hm _]]. rewrite Hsnd.
    assert (Hf0 : fexp_ (Zpos (digits2_pos M) + E) = Zpos (digits2_pos M) + E - prec).
    { unfold SpecFloat.fexp in *; lia. }
    assert (Hq : 1 <= Zpos M / 2 ^ (fexp_ (Zpos (digits2_pos M) + E) - E)).
    { apply Z.div_le_lower_bound; [apply Z.pow_pos_nonneg; lia |].
      rewrite Z.mul_1_r. destruct (digits2_bounds M) as [L _].
      apply Z.le_trans with (2 ^ (Zpos (digits2_pos M) - 1)); [| exact L].
      apply Z.pow_le_mono_r; lia. }
    rewrite <- Hm in Hq.
    pose proof (round_nearest_even_bounds
                  (shr_m (fst (shr_fexp prec emax (Zpos M) E loc_Exact)))
                  (loc_of_shr_record (fst (shr_fexp prec emax (Zpos M) E loc_Exact))))
      as Hrne.
    destruct (round_nearest_even _ _) as [|p|p]; try lia.
    apply Hpack, fexp_ge_emin.
Qed.

Lemma binary_round_not_zero (s : bool) (pm : positive) (ez : Z) :
  emin_ <= ez ->
  match binary_round prec emax s pm ez with
  | S754_finite s' _ _ | S754_infinity s' => s' = s
  | _ => False
  end.
Proof.
  intros Hez. unfold binary_round.
  destruct (shl_align_spec pm ez (fexp_ (Zpos (digits2_pos pm) + ez))) as [Hsnd _].
  destruct (shl_align pm ez (fexp_ (Zpos (digits2_pos pm) + ez))) as [mz ez'].
  cbn [fst snd] in *.
  apply round_aux_not_zero.
  pose proof (fexp_ge_emin prec emax (Zpos (digits2_pos pm) + ez)). lia.
Qed.

(** A float with the larger exponent is the larger one, since mantissas are
    normalised above the smallest exponent. *)
Lemma canonical_exponent_order (mx my : positive) (ex ey : Z) :
  canonical_mantissa prec emax mx ex = true ->
  canonical_mantissa prec emax my ey = true ->
  ey < ex ->
  Zpos my < Zpos mx * 2 ^ (ex - ey).
Proof.
  intros Hx Hy Hlt. apply Z.eqb_eq in Hx. apply Z.eqb_eq in Hy.
  assert (Hdx : Zpos (digits2_pos mx) = prec).
  { pose proof (fexp_ge_emin prec emax (Zpos (digits2_pos my) + ey)).
    unfold SpecFloat.fexp in *; lia. }
  assert (Hdy : Zpos (digits2_pos my) <= prec).
  { unfold SpecFloat.fexp in *; lia. }
  destruct (digits2_bounds mx) as [Lx _]. destruct (digits2_bounds my) as [_ Uy].
  rewrite Hdx in Lx.
  assert (H1 : 2 ^ Zpos (digits2_pos my) <= 2 ^ prec) by (apply Z.pow_le_mono_r; lia).
  assert (H2 : 2 ^ prec = 2 ^ (prec - 1) * 2).
  { replace prec with ((prec - 1) + 1) at 1 by lia.
    rewrite Z.pow_add_r by lia. reflexivity. }
  assert (H3 : 2 ^ 1 <= 2 ^ (ex - ey)) by (apply Z.pow_le_mono_r; lia).
  change (2 ^ 1) with 2 in H3.
  assert (H4 : Zpos mx * 2 <= Zpos mx * 2 ^ (ex - ey))
    by (apply Z.mul_le_mono_nonneg_l; lia).
  lia.
Qed.

(** The order of two finite floats is the order of their aligned
    mantissas. *)
Lemma SFltb_aligned (sx sy : bool) (mx my : positive) (ex ey : Z) :
  canonical_mantissa prec emax mx ex = true ->
  canonical_mantissa prec emax my ey = true ->
  let ez := Z.min ex ey in
  SFltb (S754_finite sy my ey) (S754_finite sx mx ex)
  = (0 <? cond_Zopp sx (Zpos (fst (shl_align mx ex ez)))
          - cond_Zopp sy (Zpos (fst (shl_align my ey ez)))).
Proof.
  intros Hx Hy; cbv zeta.
  destruct (shl_align_spec mx ex (Z.min ex ey)) as [HsX HX].
  destruct (shl_align_spec my ey (Z.min ex ey)) as [HsY HY].
  rewrite HsX in HX; rewrite HsY in HY.
  set (X := Zpos (fst (shl_align mx ex (Z.min ex ey)))) in *.
  set (Y := Zpos (fst (shl_align my ey (Z.min ex ey)))) in *.
  assert (HXpos : 0 < X) by (unfold X; lia).
  assert (HYpos : 0 < Y) by (unfold Y; lia).
  assert (Horder : (ey < ex /\ Y < X) \/
                   (ey = ex /\ X = Zpos mx /\ Y = Zpos my) \/
                   (ex < ey /\ X < Y)).
  { destruct (Z.lt_total ey ex) as [H|[H|H]].
    - left; split; [exact H |].
      replace (Z.min ex (Z.min ex ey)) with ey in HX by lia.
      replace (Z.min ey (Z.min ex ey)) with ey in HY by lia.
      rewrite Z.sub_diag, Z.mul_1_r in HY. rewrite HX, HY.
      apply canonical_exponent_order; assumption.
    - right; left; split; [exact H |]. subst ey.
      replace (Z.min ex (Z.min ex ex)) with ex in HX, HY by lia.
      rewrite Z.sub_diag, Z.mul_1_r in HX, HY. split; assumption.
    - right; right; split; [exact H |].
      replace (Z.min ex (Z.min ex ey)) with ex in HX by lia.
      replace (Z.min ey (Z.min ex ey)) with ex in HY by lia.
      rewrite Z.sub_diag, Z.mul_1_r in HX. rewrite HX, HY.
      apply canonical_exponent_order; assumption. }
  clearbody X Y. clear HX HY HsX HsY.
  unfold SFltb, SFcompare.
  destruct sx, sy; cbn [cond_Zopp];
    destruct Horder as [[He Ho]|[(He & EX & EY)|[He Ho]]];
    try (rewrite (proj2 (Z.compare_lt_iff ey ex) He));
    try (rewrite (proj2 (Z.compare_gt_iff ey ex)) by lia);
    try (rewrite He, Z.compare_refl;
         change (Pos.compare_cont Eq my mx) with (Pos.compare my mx);
         destruct (Pos.compare_spec my mx); cbn [CompOpp]);
    symmetry; try (apply Z.ltb_lt; lia); try (apply Z.ltb_ge; lia).
Qed.

(** [x - y] is positive exactly when [y < x]. *)
Lemma SFsub_positive (x y : spec_float) :
  SpecFloat.valid_binary prec emax x = true ->
  SpecFloat.valid_binary prec emax y = true ->
  SFltb (S754_zero false) (SFsub prec emax x y) = SFltb y x.
Proof.
  intros Hx Hy.
  destruct x as [sx|sx| |sx mx ex], y as [sy|sy| |sy my ey];
    try reflexivity;
    try (destruct sx; try destruct sy; reflexivity);
    try (destruct sy; reflexivity).
  cbn [SpecFloat.valid_binary] in Hx, Hy.
  apply andb_prop in Hx; destruct Hx as [Hcx _].
  apply andb_prop in Hy; destruct Hy as [Hcy _].
  rewrite (SFltb_aligned sx sy mx my ex ey Hcx Hcy); cbv zeta.
  cbn [SFsub].
  assert (Hez : emin_ <= Z.min ex ey).
  { apply Z.eqb_eq in Hcx. apply Z.eqb_eq in Hcy.
    pose proof (fexp_ge_emin prec emax (Zpos (digits2_pos mx) + ex)).
    pose proof (fexp_ge_emin prec emax (Zpos (digits2_pos my) + ey)). lia. }
  destruct (cond_Zopp sx (Zpos (fst (shl_align mx ex (Z.min ex ey))))
            - cond_Zopp sy (Zpos (fst (shl_align my ey (Z.min ex ey)))))
    as [|pm|pm]; cbn [binary_normalize].
  - reflexivity.
  - pose proof (binary_round_not_zero false pm (Z.min ex ey) Hez) as Hr.
    destruct (binary_round prec emax false pm (Z.min ex ey)) as [s|s| |s m e];
      try contradiction; rewrite Hr; reflexivity.
  - pose proof (binary_round_sign prec emax true pm (Z.min ex ey)) as Hr.
    destruct (binary_round prec emax true pm (Z.min ex ey)) as [s|s| |s m e];
      try rewrite Hr; reflexivity.
Qed.

End Differences.

(** The difference [x - y] of two floats is positive exactly when
    [y < x]. *)
Lemma sub_positive (x y : float) : (0 <? x - y)%float = (y <? x)%float.
Proof.
  rewrite !ltb_spec, sub_spec.
  change (Prim2SF 0) with (S754_zero false).
  apply (SFsub_positive prec emax); [reflexivity | apply Prim2SF_valid ..].
Qed.

(** X3. With [until] given, [truncate] raises [AssertionError] unless
    [offset < until] (so also when either is NaN), and a cut it returns has
    the duration [until - offset]; without [until], it raises
    [AssertionError] unless [start + offset < duration], the start of the
    cut counting against its duration. *)
Theorem truncate_needs_offset_before_until (self : Cut) (offset : Seconds) (keep : bool)
  (n : nat) :
  (forall until,
      ((offset <? until)%float = false ->
       Cut_truncate self offset (Some until) keep n = Raise AssertionError) /\
      (forall c' n',
          Cut_truncate self offset (Some until) keep n = Ok (c', n') ->
          (offset <? until)%float = true /\ duration c' = (until - offset)%float)) /\
  ((start self + offset <? duration self)%float = false ->
   Cut_truncate self offset None keep n = Raise AssertionError) /\
  (forall c' n',
      Cut_truncate self offset None keep n = Ok (c', n') ->
      (start self + offset <? duration self)%float = true).
Proof.
  split; [intros end_; split | split].
  - intros H; unfold Cut_truncate; rewrite sub_positive, H; reflexivity.
  - intros c' n' H; apply Cut_truncate_Ok in H; destruct H as (H1 & _ & -> & _).
    unfold truncated_duration in H1; rewrite sub_positive in H1.
    split; [exact H1 | reflexivity].
  - intros H; unfold Cut_truncate; rewrite sub_positive, H; reflexivity.
  - intros c' n' H; apply Cut_truncate_Ok in H; destruct H as (H1 & _).
    unfold truncated_duration in H1; rewrite sub_positive in H1; exact H1.
Qed.

(** Numbers equal under [==] are the same float or two zeros. *)
Lemma SFeqb_true (x y : spec_float) :
  SFeqb x y = true ->
  x = y \/ exists s s', x = S754_zero s /\ y = S754_zero s'.
Proof.
  unfold SFeqb, SFcompare.
  destruct x as [sx|sx| |sx mx ex], y as [sy|sy| |sy my ey];
    try discriminate;
    try (intros _; right; eexists; eexists; split; reflexivity);
    try destruct sx; try destruct sy; try discriminate;
    try (intros _; left; reflexivity);
    intros H; compare_cases; simpl in *; try discriminate; subst; left; reflexivity.
Qed.

(** Adding to a zero gives the number added. *)
Lemma zero_add (z x : float) :
  (z =? 0)%float = true -> same_seconds (z + x)%float x.
Proof.
  rewrite eqb_spec; change (Prim2SF 0) with (S754_zero false); intros Hz.
  destruct (SFeqb_true _ _ Hz) as [Ez|(s & s' & Ez & _)].
  - destruct (Prim2SF x) as [sx|sx| |sx mx ex] eqn:Ex.
    + right; rewrite eqb_spec, add_spec, Ez, Ex; destruct sx; reflexivity.
    + left; apply Prim2SF_inj; rewrite add_spec, Ez, Ex; reflexivity.
    + left; apply Prim2SF_inj; rewrite add_spec, Ez, Ex; reflexivity.
    + left; apply Prim2SF_inj; rewrite add_spec, Ez, Ex; reflexivity.
  - destruct (Prim2SF x) as [sx|sx| |sx mx ex] eqn:Ex.
    + right; rewrite eqb_spec, add_spec, Ez, Ex; destruct s, sx; reflexivity.
    + left; apply Prim2SF_inj; rewrite add_spec, Ez, Ex; reflexivity.
    + left; apply Prim2SF_inj; rewrite add_spec, Ez, Ex; reflexivity.
    + left; apply Prim2SF_inj; rewrite add_spec, Ez, Ex; reflexivity.
Qed.

(** Subtracting the same number gives the same number. *)
Lemma sub_same_seconds (d x y : float) :
  same_seconds x y -> same_seconds (d - x)%float (d - y)%float.
Proof.
  intros [->|H]; [left; reflexivity |].
  rewrite eqb_spec in H.
  destruct (SFeqb_true _ _ H) as [E|(s & s' & Ex & Ey)].
  - apply Prim2SF_inj in E; subst; left; reflexivity.
  - destruct (Prim2SF d) as [sd|sd| |sd md ed] eqn:Ed.
    + right; rewrite eqb_spec, !sub_spec, Ed, Ex, Ey; destruct sd, s, s'; reflexivity.
    + left; apply Prim2SF_inj; rewrite !sub_spec, Ed, Ex, Ey; reflexivity.
    + left; apply Prim2SF_inj; rewrite !sub_spec, Ed, Ex, Ey; reflexivity.
    + left; apply Prim2SF_inj; rewrite !sub_spec, Ed, Ex, Ey; reflexivity.
Qed.

(** X4. For a cut that starts at zero, [truncate] without [until] returns
    a cut that starts at [offset] and lasts [duration - offset]: the duration
    left after the offset.  (For any other start the duration returned is
    [duration - (start + offset)].) *)
Theorem truncate_without_until_at_start_zero (self : Cut) (offset : Seconds) (keep : bool)
  (n : nat) (c' : Cut) (n' : nat) :
  (start self =? 0)%float = true ->
  Cut_truncate self offset None keep n = Ok (c', n') ->
  same_seconds (start c') offset /\
  same_seconds (duration c') (duration self - offset)%float /\
  (0 <? duration self - offset)%float = true.
Proof.
  intros Hz H. pose proof H as H'.
  apply Cut_truncate_without_until in H; destruct H as [-> Ed].
  pose proof (zero_add (start self) offset Hz) as Hs.
  pose proof (sub_same_seconds (duration self) _ _ Hs) as Hd.
  rewrite <- Ed in Hd.
  split; [exact Hs |]. split; [exact Hd |].
  apply Cut_truncate_Ok in H'; destruct H' as (Hpos & _).
  unfold truncated_duration in Hpos. rewrite <- Ed in Hpos.
  destruct Hd as [<-|Hd]; [exact Hpos |].
  rewrite eqb_spec in Hd. rewrite ltb_spec in Hpos |- *.
  destruct (SFeqb_true _ _ Hd) as [<-|(s & s' & E1 & E2)]; [exact Hpos |].
  rewrite E1 in Hpos; destruct s; discriminate Hpos.
Qed.

(** ** Mixed cuts: operands that cannot be resolved *)

(** X5. A mixed cut bound to a cut set that lacks one of its operand ids
    raises [KeyError] with that id: for the left id from [duration],
    [supervisions] and [load_features]; for the right id, when the left
    operand is a cut, from all three as well, and from [load_features]
    whatever the left operand is. *)
Theorem MixedCut_unresolved_operand_is_a_KeyError (h : heap) (self : MixedCut) (r : nat) :
  _cut_set self = Some r ->
  (dict_get (cuts (h r)) (left_cut_id self) = None ->
   forall fuel root_dir,
     MixedCut_duration (S fuel) h self = Raise (KeyError (left_cut_id self)) /\
     MixedCut_supervisions (S fuel) h self = Raise (KeyError (left_cut_id self)) /\
     MixedCut_load_features h self root_dir = Raise (KeyError (left_cut_id self))) /\
  (forall left,
      dict_get (cuts (h r)) (left_cut_id self) = Some left ->
      dict_get (cuts (h r)) (right_cut_id self) = None ->
      (forall root_dir,
          MixedCut_load_features h self root_dir = Raise (KeyError (right_cut_id self))) /\
      (forall c fuel,
          left = ACut c ->
          MixedCut_duration (S fuel) h self = Raise (KeyError (right_cut_id self)) /\
          MixedCut_supervisions (S fuel) h self = Raise (KeyError (right_cut_id self)))).
Proof.
  intros Hr; split.
  - intros Hl fuel root_dir; simpl; unfold MixedCut_load_features, get_cut_set, getitem.
    rewrite Hr; simpl; rewrite Hl; repeat split; reflexivity.
  - intros left Hl Hrt; split.
    + intros root_dir; unfold MixedCut_load_features, get_cut_set, getitem.
      rewrite Hr; simpl; rewrite Hl; simpl; rewrite Hrt; reflexivity.
    + intros c fuel ->; simpl; unfold get_cut_set, getitem.
      rewrite Hr; simpl; rewrite Hl; simpl; rewrite Hrt; split; reflexivity.
Qed.

(** X6. [load_features] does not mix mixes: when an operand found in the cut
    set is a mixed cut itself, the call raises [AttributeError] (a mixed cut
    has no [features]), although [duration] and [supervisions] of the same
    mixed cut have their values. *)
Theorem MixedCut_load_features_of_a_mix_of_mixes (h : heap) (self : MixedCut) (r : nat)
  (left right : AnyCut) (root_dir : option Pathlike) :
  _cut_set self = Some r ->
  getitem (cuts (h r)) (left_cut_id self) = Ok left ->
  getitem (cuts (h r)) (right_cut_id self) = Ok right ->
  (exists m, left = AMixedCut m) \/ (exists m, right = AMixedCut m) ->
  MixedCut_load_features h self root_dir = Raise (AttributeError "features") /\
  (forall fuel left_duration right_duration left_supervisions right_supervisions,
      AnyCut_duration fuel h left = Ok left_duration ->
      AnyCut_duration fuel h right = Ok right_duration ->
      AnyCut_supervisions fuel h left = Ok left_supervisions ->
      AnyCut_supervisions fuel h right = Ok right_supervisions ->
      MixedCut_duration (S fuel) h self
      = Ok (pymax left_duration (offset_right_by self + right_duration)%float) /\
      MixedCut_supervisions (S fuel) h self = Ok (left_supervisions ++ right_supervisions)).
Proof.
  intros Hr Hl Hrt Hmixed; split.
  - unfold MixedCut_load_features, get_cut_set; rewrite Hr; simpl.
    rewrite Hl; simpl; rewrite Hrt; simpl.
    destruct Hmixed as [[m ->]|[m ->]]; [reflexivity | destruct left; reflexivity].
  - intros fuel dl dr sl sr Hdl Hdr Hsl Hsr; split.
    + rewrite (MixedCut_duration_step fuel h self r left right Hr Hl Hrt), Hdl; simpl.
      rewrite Hdr; reflexivity.
    + rewrite (MixedCut_supervisions_step fuel h self r left right Hr Hl Hrt), Hsl; simpl.
      rewrite Hsr; reflexivity.
Qed.

(** X7. [load_features] of a mixed cut whose operands are two cuts raises
    [AssertionError] when their features differ in frame length or in frame
    shift (under [==], so also when one of the four numbers is NaN), and
    returns the overlay otherwise: the outcome is decided by the two
    comparisons. *)
Theorem MixedCut_load_features_checks_the_framing (h : heap) (self : MixedCut) (r : nat)
  (cut0 cut1 : Cut) (root_dir : option Pathlike) :
  _cut_set self = Some r ->
  getitem (cuts (h r)) (left_cut_id self) = Ok (ACut cut0) ->
  getitem (cuts (h r)) (right_cut_id self) = Ok (ACut cut1) ->
  ((frame_length (features cut0) =? frame_length (features cut1))%float = false \/
   (frame_shift (features cut0) =? frame_shift (features cut1))%float = false <->
   MixedCut_load_features h self root_dir = Raise AssertionError) /\
  ((frame_length (features cut0) =? frame_length (features cut1))%float = true /\
   (frame_shift (features cut0) =? frame_shift (features cut1))%float = true <->
   exists feats, MixedCut_load_features h self root_dir = Ok feats).
Proof.
  intros Hr Hl Hrt.
  unfold MixedCut_load_features, get_cut_set; rewrite Hr; simpl.
  rewrite Hl; simpl; rewrite Hrt; simpl.
  destruct (frame_length (features cut0) =? frame_length (features cut1))%float;
    destruct (frame_shift (features cut0) =? frame_shift (features cut1))%float;
    split; split;
    try (intros [H|H]; discriminate H);
    try (intros [H1 H2]; discriminate);
    try (intros [feats H]; discriminate H);
    try (intros H; discriminate H);
    try (intros _; eexists; reflexivity);
    try (intros _; split; reflexivity);
    try (intros _; left; reflexivity);
    try (intros _; right; reflexivity);
    try reflexivity.
Qed.

(** X8. A mixed cut that is its own operand (its cut set holds it under its
    left id, or holds a cut under the left id and the mixed cut itself under
    the right id) has no [duration] and no [supervisions]: at every depth of
    the call stack the evaluation ends in [RecursionError]. *)
Theorem MixedCut_that_contains_itself_never_returns (h : heap) (self : MixedCut) (r : nat) :
  _cut_set self = Some r ->
  getitem (cuts (h r)) (left_cut_id self) = Ok (AMixedCut self) \/
  (exists c, getitem (cuts (h r)) (left_cut_id self) = Ok (ACut c)) /\
  getitem (cuts (h r)) (right_cut_id self) = Ok (AMixedCut self) ->
  forall fuel,
    MixedCut_duration fuel h self = Raise RecursionError /\
    MixedCut_supervisions fuel h self = Raise RecursionError.
Proof.
  intros Hr Hcycle fuel; induction fuel as [|fuel [IHd IHs]]; [split; reflexivity|].
  simpl; unfold get_cut_set; rewrite Hr; simpl.
  destruct Hcycle as [Hl|[[c Hl] Hrt]].
  - rewrite Hl; simpl; rewrite IHd, IHs; split; reflexivity.
  - rewrite Hl; simpl; rewrite Hrt; simpl; rewrite IHd, IHs; split; reflexivity.
Qed.

Lemma pymax_ge_l (x y : float) :
  is_nan x = false -> (x <=? pymax x y)%float = true.
Proof.
  intros Hx; apply Prim2SF_not_nan in Hx.
  unfold pymax; destruct (x <? y)%float eqn:E; rewrite leb_spec.
  - rewrite ltb_spec in E; apply SFltb_SFleb; exact E.
  - apply SFleb_refl; exact Hx.
Qed.

Lemma pymax_ge_r (x y : float) :
  is_nan x = false -> is_nan y = false -> (y <=? pymax x y)%float = true.
Proof.
  intros Hx Hy; apply Prim2SF_not_nan in Hx; apply Prim2SF_not_nan in Hy.
  unfold pymax; destruct (x <? y)%float eqn:E; rewrite leb_spec.
  - apply SFleb_refl; exact Hy.
  - rewrite ltb_spec in E; apply SFltb_false_SFleb; assumption.
Qed.

(** X9. The duration of a mixed cut is not below the duration of its left
    operand, nor below the offset plus the duration of its right operand,
    when these two numbers are not NaN. *)
Theorem MixedCut_duration_covers_both_operands (h : heap) (self : MixedCut) (r : nat)
  (left right : AnyCut) (fuel : nat) (left_duration right_duration : Seconds) :
  _cut_set self = Some r ->
  getitem (cuts (h r)) (left_cut_id self) = Ok left ->
  getitem (cuts (h r)) (right_cut_id self) = Ok right ->
  AnyCut_duration fuel h left = Ok left_duration ->
  AnyCut_duration fuel h right = Ok right_duration ->
  is_nan left_duration = false ->
  is_nan (offset_right_by self + right_duration)%float = false ->
  exists d,
    MixedCut_duration (S fuel) h self = Ok d /\
    (left_duration <=? d)%float = true /\
    (offset_right_by self + right_duration <=? d)%float = true.
Proof.
  intros Hr Hl Hrt Hdl Hdr Hnl Hnr.
  exists (pymax left_duration (offset_right_by self + right_duration)%float).
  split; [| split].
  - rewrite (MixedCut_duration_step fuel h self r left right Hr Hl Hrt), Hdl; simpl.
    rewrite Hdr; reflexivity.
  - apply pymax_ge_l; exact Hnl.
  - apply pymax_ge_r; assumption.
Qed.

(** ** Cut sets: union, views and binding *)

(** X10. In [self + other] the entry of [other] wins where both have the key;
    the keys of [self] keep their places and the new keys of [other] follow
    in the order of [other]; so the sum has at least as many entries as
    [self] and at most as many as both together. *)
Theorem CutSet_add_right_operand_wins (self other : CutSet) :
  NoDup (keys (cuts other)) ->
  (forall k,
      dict_get (cuts (CutSet_add self other)) k
      = match dict_get (cuts other) k with
        | Some c => Some c
        | None => dict_get (cuts self) k
        end) /\
  keys (cuts (CutSet_add self other))
  = keys (cuts self)
    ++ filter (fun k => negb (existsb (String.eqb k) (keys (cuts self)))) (keys (cuts other)) /\
  CutSet_len self <= CutSet_len (CutSet_add self other) <= CutSet_len self + CutSet_len other.
Proof.
  intros Hnd.
  assert (Ekeys : keys (cuts (CutSet_add self other))
                  = keys (cuts self)
                    ++ filter (fun k => negb (existsb (String.eqb k) (keys (cuts self))))
                         (keys (cuts other)))
    by (apply keys_fold_setitem; exact Hnd).
  split; [| split].
  - intros k; apply dict_get_fold_setitem; exact Hnd.
  - exact Ekeys.
  - assert (Elen : forall cs : CutSet, CutSet_len cs = List.length (keys (cuts cs)))
      by (intros cs; unfold CutSet_len, keys; rewrite length_map; reflexivity).
    rewrite !Elen, Ekeys, length_app.
    pose proof (filter_length_le
                  (fun k => negb (existsb (String.eqb k) (keys (cuts self))))
                  (keys (cuts other))).
    lia.
Qed.

(** X11. The sum of two cut sets that store every entry under the entry's own
    id, each key once, is such a cut set again. *)
Theorem CutSet_add_keeps_the_keying (self other : CutSet) :
  NoDup (keys (cuts self)) ->
  (forall k c, In (k, c) (cuts self) -> AnyCut_id c = k) ->
  (forall k c, In (k, c) (cuts other) -> AnyCut_id c = k) ->
  NoDup (keys (cuts (CutSet_add self other))) /\
  (forall k c, In (k, c) (cuts (CutSet_add self other)) -> AnyCut_id c = k).
Proof.
  intros Hnd Hself Hother; split.
  - apply NoDup_keys_fold_setitem; exact Hnd.
  - intros k c Hin; destruct (In_fold_setitem _ _ _ _ Hin) as [H|H];
      [exact (Hother k c H) | exact (Hself k c H)].
Qed.

Lemma keys_mixed_items (l : dict AnyCut) (k : string) :
  In k (keys (flat_map (fun '(id_, cut) =>
                          match cut with
                          | AMixedCut m => [(id_, m)]
                          | ACut _ => []
                          end) l)) ->
  In k (keys l).
Proof.
  induction l as [|[k' [c|m]] l IH]; simpl; intros H.
  - exact H.
  - right; exact (IH H).
  - destruct H as [E|H]; [left; exact E | right; exact (IH H)].
Qed.

Lemma keys_simple_items (l : dict AnyCut) (k : string) :
  In k (keys (flat_map (fun '(id_, cut) =>
                          match cut with
                          | ACut c => [(id_, c)]
                          | AMixedCut _ => []
                          end) l)) ->
  In k (keys l).
Proof.
  induction l as [|[k' [c|m]] l IH]; simpl; intros H.
  - exact H.
  - destruct H as [E|H]; [left; exact E | right; exact (IH H)].
  - right; exact (IH H).
Qed.

Lemma CutSet_mixed_cuts_items (self : CutSet) :
  NoDup (keys (cuts self)) ->
  CutSet_mixed_cuts self
  = flat_map (fun '(id_, cut) =>
                match cut with
                | AMixedCut m => [(id_, m)]
                | ACut _ => []
                end) (cuts self).
Proof.
  intros Hnd; unfold CutSet_mixed_cuts; apply dict_of_items_NoDup.
  induction (cuts self) as [|[k [c|m]] l IH]; simpl.
  - constructor.
  - apply IH; inversion Hnd; assumption.
  - inversion Hnd as [|? ? Hfresh Hnd']; subst; constructor; [| exact (IH Hnd')].
    intros H; apply Hfresh; exact (keys_mixed_items _ _ H).
Qed.

Lemma CutSet_simple_cuts_items (self : CutSet) :
  NoDup (keys (cuts self)) ->
  CutSet_simple_cuts self
  = flat_map (fun '(id_, cut) =>
                match cut with
                | ACut c => [(id_, c)]
                | AMixedCut _ => []
                end) (cuts self).
Proof.
  intros Hnd; unfold CutSet_simple_cuts; apply dict_of_items_NoDup.
  induction (cuts self) as [|[k [c|m]] l IH]; simpl.
  - constructor.
  - inversion Hnd as [|? ? Hfresh Hnd']; subst; constructor; [| exact (IH Hnd')].
    intros H; apply Hfresh; exact (keys_simple_items _ _ H).
  - apply IH; inversion Hnd; assumption.
Qed.

(** X12. [simple_cuts] and [mixed_cuts] split the cut set: a key of the cut
    set is found in [simple_cuts] when it holds a cut and in [mixed_cuts] when
    it holds a mixed cut, with the entry itself, and in no other case; the
    two views together have as many entries as the cut set. *)
Theorem simple_and_mixed_cuts_split_the_cut_set (self : CutSet) :
  NoDup (keys (cuts self)) ->
  (forall k,
      dict_get (CutSet_simple_cuts self) k
      = match dict_get (cuts self) k with
        | Some (ACut c) => Some c
        | _ => None
        end) /\
  (forall k,
      dict_get (CutSet_mixed_cuts self) k
      = match dict_get (cuts self) k with
        | Some (AMixedCut m) => Some m
        | _ => None
        end) /\
  List.length (CutSet_simple_cuts self) + List.length (CutSet_mixed_cuts self)
  = CutSet_len self.
Proof.
  intros Hnd.
  rewrite (CutSet_simple_cuts_items self Hnd), (CutSet_mixed_cuts_items self Hnd).
  unfold CutSet_len.
  induction (cuts self) as [|[k' [c|m]] l IH]; simpl.
  - repeat split.
  - inversion Hnd as [|? ? Hfresh Hnd']; subst.
    destruct (IH Hnd') as (IH1 & IH2 & IH3).
    split; [| split].
    + intros k; destruct (String.eqb_spec k' k); [reflexivity | apply IH1].
    + intros k; destruct (String.eqb_spec k' k) as [->|Hne]; [| apply IH2].
      destruct (dict_get _ k) eqn:E; [| reflexivity].
      exfalso; apply Hfresh.
      apply dict_get_In in E; apply (in_map fst) in E.
      exact (keys_mixed_items _ _ E).
    + rewrite IH3; reflexivity.
  - inversion Hnd as [|? ? Hfresh Hnd']; subst.
    destruct (IH Hnd') as (IH1 & IH2 & IH3).
    split; [| split].
    + intros k; destruct (String.eqb_spec k' k) as [->|Hne]; [| apply IH1].
      destruct (dict_get _ k) eqn:E; [| reflexivity].
      exfalso; apply Hfresh.
      apply dict_get_In in E; apply (in_map fst) in E.
      exact (keys_simple_items _ _ E).
    + intros k; destruct (String.eqb_spec k' k); [reflexivity | apply IH2].
    + rewrite <- IH3; lia.
Qed.

Lemma setitem_in_place {V : Type} (l1 l2 : dict V) (k : string) (v v' : V) :
  ~ In k (keys l1) ->
  setitem (l1 ++ (k, v) :: l2) k v' = l1 ++ (k, v') :: l2.
Proof.
  induction l1 as [|[k1 v1] l1 IH]; simpl; intros Hfresh.
  - rewrite String.eqb_refl; reflexivity.
  - destruct (String.eqb_spec k1 k) as [->|Hne].
    + exfalso; apply Hfresh; left; reflexivity.
    + rewrite IH; [reflexivity | intros H; apply Hfresh; right; exact H].
Qed.

Lemma rebind_in_place (source : nat) (l2 l1 : dict AnyCut) :
  NoDup (keys (l1 ++ l2)) ->
  fold_left
    (fun d '(id_, cut) => setitem d id_ (AMixedCut (MixedCut_with_cut_set cut source)))
    (flat_map (fun '(id_, cut) =>
                 match cut with
                 | AMixedCut m => [(id_, m)]
                 | ACut _ => []
                 end) l2)
    (l1 ++ l2)
  = l1 ++ map (fun kv => (fst kv, bound_to source (snd kv))) l2.
Proof.
  revert l1; induction l2 as [|[k [c|m]] l2 IH]; simpl; intros l1 Hnd.
  - reflexivity.
  - change (l1 ++ (k, ACut c) :: l2) with (l1 ++ [(k, ACut c)] ++ l2) in *.
    rewrite app_assoc in *. rewrite (IH _ Hnd), <- app_assoc; reflexivity.
  - rewrite setitem_in_place.
    + change (l1 ++ (k, AMixedCut (MixedCut_with_cut_set m source)) :: l2)
        with (l1 ++ [(k, AMixedCut (MixedCut_with_cut_set m source))] ++ l2).
      rewrite app_assoc, IH, <- app_assoc; [reflexivity |].
      unfold keys in *; rewrite !map_app in *; simpl in *.
      rewrite <- app_assoc; exact Hnd.
    + unfold keys in Hnd; rewrite map_app in Hnd; simpl in Hnd.
      apply NoDup_remove_2 in Hnd; intros H; apply Hnd, in_or_app; left; exact H.
Qed.

Lemma CutSet_with_source_cuts_from_entries (self : CutSet) (source : nat) :
  NoDup (keys (cuts self)) ->
  cuts (CutSet_with_source_cuts_from self source)
  = map (fun kv => (fst kv, bound_to source (snd kv))) (cuts self).
Proof.
  intros Hnd; unfold CutSet_with_source_cuts_from; simpl.
  rewrite (CutSet_mixed_cuts_items self Hnd).
  exact (rebind_in_place source (cuts self) [] Hnd).
Qed.

(** X13. [with_source_cuts_from(source)] leaves the keys, their order and the
    cuts of the cut set as they are and binds every mixed cut to [source],
    whatever it was bound to before, changing no other field; calling it
    again with another source rebinds them all. *)
Theorem with_source_cuts_from_binds_every_mixed_cut (self : CutSet) (source : nat) :
  NoDup (keys (cuts self)) ->
  keys (cuts (CutSet_with_source_cuts_from self source)) = keys (cuts self) /\
  (forall k,
      dict_get (cuts (CutSet_with_source_cuts_from self source)) k
      = option_map (bound_to source) (dict_get (cuts self) k)) /\
  (forall k m,
      In (k, AMixedCut m) (cuts (CutSet_with_source_cuts_from self source)) ->
      _cut_set m = Some source /\
      exists m0, In (k, AMixedCut m0) (cuts self) /\
                 declared_fields (AMixedCut m) = declared_fields (AMixedCut m0)) /\
  (forall k c,
      In (k, ACut c) (cuts (CutSet_with_source_cuts_from self source)) <->
      In (k, ACut c) (cuts self)) /\
  (forall other,
      CutSet_with_source_cuts_from (CutSet_with_source_cuts_from self source) other
      = CutSet_with_source_cuts_from self other).
Proof.
  intros Hnd.
  pose proof (CutSet_with_source_cuts_from_entries self source Hnd) as E.
  assert (Ekeys : keys (cuts (CutSet_with_source_cuts_from self source)) = keys (cuts self)).
  { rewrite E; unfold keys; rewrite map_map; reflexivity. }
  split; [exact Ekeys |].
  split; [intros k; rewrite E; apply dict_get_map_values |].
  split; [| split].
  - intros k m Hin; rewrite E in Hin; apply in_map_iff in Hin.
    destruct Hin as ([k0 [c|m0]] & Heq & Hin); simpl in Heq; inversion Heq; subst.
    split; [reflexivity |]. exists m0; split; [exact Hin | reflexivity].
  - intros k c; rewrite E, in_map_iff; split.
    + intros ([k0 [c0|m0]] & Heq & Hin); simpl in Heq; inversion Heq; subst; exact Hin.
    + intros Hin; exists (k, ACut c); split; [reflexivity | exact Hin].
  - intros other.
    assert (Hnd' : NoDup (keys (cuts (CutSet_with_source_cuts_from self source))))
      by (rewrite Ekeys; exact Hnd).
    pose proof (CutSet_with_source_cuts_from_entries _ other Hnd') as E2.
    pose proof (CutSet_with_source_cuts_from_entries self other Hnd) as E3.
    assert (Hext : forall a b : CutSet, cuts a = cuts b -> a = b)
      by (intros [a] [b]; simpl; intros ->; reflexivity).
    apply Hext; rewrite E2, E3, E, map_map.
    apply map_ext; intros [k [c|m]]; reflexivity.
Qed.

(** ** Reading cut sets: what [from_yaml] rejects *)

Lemma traverse_app {A B : Type} (f : A -> result B) (xs ys : list A) :
  traverse f (xs ++ ys)
  = (a <- traverse f xs ;; b <- traverse f ys ;; Ok (a ++ b)).
Proof.
  induction xs as [|x xs IH]; simpl.
  - destruct (traverse f ys); reflexivity.
  - destruct (f x) as [y|e]; simpl; [| reflexivity].
    rewrite IH; destruct (traverse f xs) as [a|e]; simpl; [| reflexivity].
    destruct (traverse f ys); reflexivity.
Qed.

Lemma delitem_present {V : Type} (d : dict V) (k : string) (v : V) :
  dict_get d k = Some v -> exists d', delitem d k = Ok d'.
Proof.
  induction d as [|[k' v'] d IH]; simpl; [discriminate|].
  destruct (String.eqb_spec k' k) as [->|Hne]; intros H.
  - eexists; reflexivity.
  - destruct (IH H) as [d' ->]; eexists; reflexivity.
Qed.

(** What [deserialize_one] raises on a record without a usable [type]. *)
Lemma deserialize_one_type_errors (cut : dict yaml) :
  (dict_get cut "type" = None -> deserialize_one cut = Raise (KeyError "type")) /\
  (forall t,
      dict_get cut "type" = Some t ->
      is_str t "MixedCut" = false ->
      is_str t "Cut" = false ->
      deserialize_one cut = Raise (ValueError "Unexpected cut type during deserialization")) /\
  (forall t,
      dict_get cut "type" = Some t ->
      is_str t "Cut" = true ->
      dict_get cut "features" = None ->
      deserialize_one cut = Raise (KeyError "features")).
Proof.
  unfold deserialize_one, getitem; split; [| split].
  - intros ->; reflexivity.
  - intros t Ht Hm Hc; rewrite Ht; simpl.
    destruct (delitem_present _ _ _ Ht) as [cut1 ->]; simpl.
    rewrite Hm, Hc; reflexivity.
  - intros t Ht Hc Hf; rewrite Ht; simpl.
    destruct (delitem_present _ _ _ Ht) as [cut1 Hdel]; rewrite Hdel; simpl.
    assert (Hm : is_str t "MixedCut" = false).
    { destruct t; try discriminate Hc; simpl in *.
      apply String.eqb_eq in Hc; subst; reflexivity. }
    rewrite Hm, Hc; simpl.
    rewrite (dict_get_delitem_other cut cut1 "type" "features" Hdel) by discriminate.
    rewrite Hf; reflexivity.
Qed.

(** X14. [from_yaml] reads all records or none: when the records before it
    are read without error, a record without [id] raises [KeyError] for
    [id], one with [id] but without [type] raises [KeyError] for [type], one
    whose [type] is neither [MixedCut] nor [Cut] raises [ValueError], and a
    [Cut] record without [features] raises [KeyError] for [features],
    whatever records follow. *)
Theorem from_yaml_rejects_a_malformed_record (before after : list yaml) (cut : dict yaml)
  (cut_set : CutSet) :
  CutSet_from_yaml (YSeq before) = Ok cut_set ->
  (dict_get cut "id" = None ->
   CutSet_from_yaml (YSeq (before ++ YMap cut :: after)) = Raise (KeyError "id")) /\
  (forall key,
      dict_get cut "id" = Some key ->
      (dict_get cut "type" = None ->
       CutSet_from_yaml (YSeq (before ++ YMap cut :: after)) = Raise (KeyError "type")) /\
      (forall t,
          dict_get cut "type" = Some t ->
          is_str t "MixedCut" = false ->
          is_str t "Cut" = false ->
          CutSet_from_yaml (YSeq (before ++ YMap cut :: after))
          = Raise (ValueError "Unexpected cut type during deserialization")) /\
      (forall t,
          dict_get cut "type" = Some t ->
          is_str t "Cut" = true ->
          dict_get cut "features" = None ->
          CutSet_from_yaml (YSeq (before ++ YMap cut :: after))
          = Raise (KeyError "features"))).
Proof.
  intros Hbefore; simpl in Hbefore.
  apply bind_Ok in Hbefore; destruct Hbefore as (items & Hitems & _).
  destruct (deserialize_one_type_errors cut) as (E1 & E2 & E3).
  split; [| intros key Hkey; split; [| split]].
  - intros Hid; simpl; rewrite traverse_app, Hitems; simpl.
    unfold getitem; rewrite Hid; reflexivity.
  - intros Ht; simpl; rewrite traverse_app, Hitems; simpl.
    unfold getitem at 1; rewrite Hkey; simpl. rewrite (E1 Ht); reflexivity.
  - intros t Ht Hm Hc; simpl; rewrite traverse_app, Hitems; simpl.
    unfold getitem at 1; rewrite Hkey; simpl. rewrite (E2 t Ht Hm Hc); reflexivity.
  - intros t Ht Hc Hf; simpl; rewrite traverse_app, Hitems; simpl.
    unfold getitem at 1; rewrite Hkey; simpl. rewrite (E3 t Ht Hc Hf); reflexivity.
Qed.

Lemma MixedCut_init_unbound (kwargs : dict yaml) (m : MixedCut) :
  MixedCut_init kwargs = Ok m -> _cut_set m = None.
Proof.
  unfold MixedCut_init; destruct (only_fields _ kwargs); [| discriminate].
  intros H.
  repeat (apply bind_Ok in H; let E := fresh "E" in destruct H as (? & E & H)).
  inversion H; reflexivity.
Qed.

Lemma deserialize_one_unbound (cut : dict yaml) (m : MixedCut) :
  deserialize_one cut = Ok (AMixedCut m) -> _cut_set m = None.
Proof.
  unfold deserialize_one; intros H.
  apply bind_Ok in H; destruct H as (cut_type & _ & H).
  apply bind_Ok in H; destruct H as (cut1 & _ & H).
  destruct (is_str cut_type "MixedCut").
  - apply bind_Ok in H; destruct H as (m0 & Hm & H); inversion H; subst.
    exact (MixedCut_init_unbound _ _ Hm).
  - destruct (negb (is_str cut_type "Cut")); [discriminate H|].
    repeat (apply bind_Ok in H; let E := fresh "E" in destruct H as (? & E & H)).
    discriminate H.
Qed.

(** X15. Every mixed cut of a cut set read by [from_yaml] is unbound: until
    [with_cut_set] or [with_source_cuts_from] is called, its [duration],
    [supervisions] and [load_features] raise [AttributeError]; bound by
    [with_source_cuts_from] it refers to the source given. *)
Theorem from_yaml_returns_unbound_mixed_cuts (raw_cuts : yaml) (cut_set : CutSet) :
  CutSet_from_yaml raw_cuts = Ok cut_set ->
  (forall k m,
      In (k, AMixedCut m) (cuts cut_set) ->
      _cut_set m = None /\
      forall h fuel root_dir,
        MixedCut_duration (S fuel) h m = Raise (AttributeError "_cut_set") /\
        MixedCut_supervisions (S fuel) h m = Raise (AttributeError "_cut_set") /\
        MixedCut_load_features h m root_dir = Raise (AttributeError "_cut_set")) /\
  (forall source k m,
      In (k, AMixedCut m) (cuts (CutSet_with_source_cuts_from cut_set source)) ->
      _cut_set m = Some source).
Proof.
  intros H.
  assert (Hunbound : forall k m, In (k, AMixedCut m) (cuts cut_set) -> _cut_set m = None).
  { intros k m Hin.
    destruct raw_cuts as [| | | | s |l|m0]; try discriminate H.
    - destruct s; [| discriminate H]. inversion H; subst; destruct Hin.
    - simpl in H. apply bind_Ok in H; destruct H as (items & Hitems & H).
      inversion H; subst; simpl in Hin. apply In_dict_of_items in Hin.
      destruct (traverse_Ok_In _ _ _ Hitems _ Hin) as (y & _ & Hy).
      destruct y; try discriminate Hy.
      apply bind_Ok in Hy; destruct Hy as (key & _ & Hy).
      apply bind_Ok in Hy; destruct Hy as (value & Hvalue & Hy).
      apply bind_Ok in Hy; destruct Hy as (key' & _ & Hy).
      inversion Hy; subst. exact (deserialize_one_unbound _ _ Hvalue).
    - destruct m0; [| discriminate H]. inversion H; subst; destruct Hin. }
  assert (Hnd : NoDup (keys (cuts cut_set))).
  { destruct raw_cuts as [| | | | s |l|m0]; try discriminate H.
    - destruct s; [| discriminate H]. inversion H; constructor.
    - simpl in H. apply bind_Ok in H; destruct H as (items & _ & H).
      inversion H; apply NoDup_keys_dict_of_items.
    - destruct m0; [| discriminate H]. inversion H; constructor. }
  split.
  - intros k m Hin; pose proof (Hunbound k m Hin) as Hm.
    split; [exact Hm |]. intros h fuel root_dir.
    simpl; unfold MixedCut_load_features, get_cut_set; rewrite Hm; repeat split.
  - intros source k m Hin.
    rewrite (CutSet_with_source_cuts_from_entries cut_set source Hnd) in Hin.
    apply in_map_iff in Hin.
    destruct Hin as ([k0 [c|m0]] & Heq & _); simpl in Heq; inversion Heq; reflexivity.
Qed.

(** ** Making cut sets *)

Lemma nth_error_enumerate {A : Type} (xs : list A) (a i : nat) (x : A) :
  nth_error xs i = Some x ->
  nth_error (combine (seq a (List.length xs)) xs) i = Some (a + i, x).
Proof.
  revert a i; induction xs as [|y xs IH]; intros a [|i]; simpl; intros H;
    try discriminate H.
  - inversion H; rewrite Nat.add_0_r; reflexivity.
  - rewrite (IH (S a) i H); f_equal; f_equal; lia.
Qed.

Lemma map_fst_enumerate {A : Type} (xs : list A) (a : nat) :
  map fst (combine (seq a (List.length xs)) xs) = seq a (List.length xs).
Proof.
  revert a; induction xs as [|y xs IH]; intros a; simpl; [reflexivity|].
  rewrite IH; reflexivity.
Qed.

Lemma In_enumerate {A : Type} (xs : list A) (i : nat) (x : A) :
  In (i, x) (enumerate xs) -> nth_error xs i = Some x.
Proof.
  unfold enumerate.
  assert (G : forall a, In (i, x) (combine (seq a (List.length xs)) xs) ->
                        a <= i /\ nth_error xs (i - a) = Some x).
  { induction xs as [|y xs IH]; intros a; simpl; [intros [] |].
    intros [E|Hin].
    - inversion E; subst; rewrite Nat.sub_diag; split; [lia | reflexivity].
    - destruct (IH _ Hin) as [Hle Hnth]; split; [lia |].
      replace (i - a) with (S (i - S a)) by lia; exact Hnth. }
  intros Hin; destruct (G 0 Hin) as [_ Hnth]; rewrite Nat.sub_0_r in Hnth; exact Hnth.
Qed.

(** X16. [make_cuts_from_supervisions] gives every cut exactly one
    supervision and the channel, start and duration of that supervision, with
    the features the feature set finds for it; when the identifiers drawn are
    pairwise distinct the cut set has one cut per supervision, in the order of
    the supervision set, the cut at position [i] carrying the identifier of
    the draw [i]. *)
Theorem make_cuts_from_supervisions_makes_one_cut_each
  (supervision_set : list SupervisionSegment) (feature_set : FeatureSet) (n : nat) :
  let made := make_cuts_from_supervisions supervision_set feature_set n in
  let cut_of (i : nat) (s : SupervisionSegment) :=
    mkCut (uuid4 (n + i)) (channel_id s) (segment_start s) (segment_duration s)
      (FeatureSet_find feature_set (recording_id s) (channel_id s)
         (segment_start s) (segment_duration s))
      [s] in
  snd made = n + List.length supervision_set /\
  (forall k c,
      In (k, c) (cuts (fst made)) ->
      exists i s, nth_error supervision_set i = Some s /\ c = ACut (cut_of i s)) /\
  (NoDup (map (fun i => uuid4 (n + i)) (seq 0 (List.length supervision_set))) ->
   CutSet_len (fst made) = List.length supervision_set /\
   forall i s,
     nth_error supervision_set i = Some s ->
     nth_error (CutSet_iter (fst made)) i = Some (ACut (cut_of i s)) /\
     dict_get (cuts (fst made)) (uuid4 (n + i)) = Some (ACut (cut_of i s))).
Proof.
  cbv zeta; unfold make_cuts_from_supervisions; simpl.
  split; [reflexivity |]. split.
  - intros k c Hin. apply In_dict_of_items in Hin.
    rewrite map_map in Hin. apply in_map_iff in Hin.
    destruct Hin as ([i s] & E & Hin); simpl in E; inversion E; subst.
    exists i, s; split; [exact (In_enumerate _ _ _ Hin) | reflexivity].
  - intros Hnd.
    rewrite dict_of_items_NoDup.
    + unfold CutSet_len, CutSet_iter, values; simpl.
      split.
      * rewrite !length_map. unfold enumerate.
        rewrite length_combine, length_seq; lia.
      * intros i s Hs.
        pose proof (nth_error_enumerate supervision_set 0 i s Hs) as He.
        split.
        -- rewrite !map_map. erewrite map_nth_error; [| exact He]. reflexivity.
        -- apply In_dict_get.
           ++ unfold keys; rewrite !map_map; simpl.
              unfold enumerate.
              rewrite <- (map_fst_enumerate supervision_set 0) in Hnd.
              rewrite map_map in Hnd.
              erewrite map_ext; [exact Hnd |]. intros [j t]; reflexivity.
           ++ rewrite map_map. apply in_map_iff.
              exists (i, s); split; [reflexivity |].
              exact (nth_error_In _ _ He).
    + unfold keys; rewrite !map_map; simpl.
      unfold enumerate.
      rewrite <- (map_fst_enumerate supervision_set 0) in Hnd.
      rewrite map_map in Hnd.
      erewrite map_ext; [exact Hnd |]. intros [j t]; reflexivity.
Qed.

(** ** Downmixing *)

Lemma traverse_channel_of_Ok (l : list AnyCut) (cs : list Cut) :
  traverse channel_of l = Ok cs <-> l = map ACut cs.
Proof.
  revert cs; induction l as [|[c|m] l IH]; intros cs; simpl.
  - split; intros H; [inversion H; reflexivity | destruct cs; [reflexivity | discriminate H]].
  - split; intros H.
    + apply bind_Ok in H; destruct H as (cs' & Hcs & H); inversion H; subst; simpl.
      f_equal; apply IH; exact Hcs.
    + destruct cs as [|c' cs]; [discriminate H |]; simpl in H; inversion H; subst.
      rewrite (proj2 (IH cs) eq_refl); reflexivity.
  - split; intros H; [discriminate H | destruct cs; discriminate H].
Qed.

Lemma traverse_channel_of_mixed (l : list AnyCut) (m : MixedCut) :
  In (AMixedCut m) l -> traverse channel_of l = Raise (AttributeError "channel").
Proof.
  induction l as [|[c|m'] l IH]; simpl; intros Hin.
  - destruct Hin.
  - destruct Hin as [E|Hin]; [discriminate E |]. rewrite (IH Hin); reflexivity.
  - reflexivity.
Qed.

(** X17. [mix_stereo_cut_set] on an empty cut set returns an empty cut set and
    draws no identifier; on a cut set that holds a mixed cut it raises
    [AttributeError] (a mixed cut has no [channel]); on a cut set of cuts
    whose channels are fewer than two different numbers it raises
    [IndexError]. *)
Theorem mix_stereo_cut_set_edge_cases (cut_set : CutSet) (n : nat) :
  (cuts cut_set = [] -> mix_stereo_cut_set cut_set n = Ok (mkCutSet [], n)) /\
  (forall k m,
      In (k, AMixedCut m) (cuts cut_set) ->
      mix_stereo_cut_set cut_set n = Raise (AttributeError "channel")) /\
  (forall cs,
      CutSet_iter cut_set = map ACut cs ->
      cs <> [] ->
      List.length (set_iteration (map channel cs)) <= 1 ->
      mix_stereo_cut_set cut_set n = Raise IndexError).
Proof.
  unfold mix_stereo_cut_set; split; [| split].
  - intros E; unfold CutSet_iter; rewrite E; simpl; rewrite Nat.add_0_r; reflexivity.
  - intros k m Hin.
    rewrite (traverse_channel_of_mixed (CutSet_iter cut_set) m); [reflexivity |].
    unfold CutSet_iter, values; apply in_map_iff; exists (k, AMixedCut m).
    split; [reflexivity | exact Hin].
  - intros cs Hcs Hne Hlen.
    rewrite (proj2 (traverse_channel_of_Ok _ cs) Hcs); simpl.
    destruct cs as [|c cs]; [contradiction Hne; reflexivity |].
    unfold cuts_of_channel.
    destruct (set_iteration (map channel (c :: cs))) as [|ch0 [|ch1 chs]]; simpl in *;
      try reflexivity; lia.
Qed.

Lemma nth_error_combine {A B : Type} (xs : list A) (ys : list B) (i : nat) (x : A) (y : B) :
  nth_error (combine xs ys) i = Some (x, y) <->
  nth_error xs i = Some x /\ nth_error ys i = Some y.
Proof.
  revert ys i; induction xs as [|x' xs IH]; intros [|y' ys] [|i]; simpl;
    try (split; [discriminate | intros [H1 H2]; discriminate]).
  - split; [intros H; inversion H; split; reflexivity
           | intros [H1 H2]; inversion H1; inversion H2; reflexivity].
  - apply IH.
Qed.

(** X18. On a cut set of cuts with at least two channel numbers,
    [mix_stereo_cut_set] pairs the cuts of the first channel with the cuts of
    the second by position, as many pairs as the shorter of the two lists has
    cuts, the rest being dropped.  Every entry of the result is an unbound
    mixed cut of such a pair, the first-channel cut on the left, with offset
    0.0 and gain 0.0; when the identifiers drawn are pairwise distinct the
    pair at position [i] is the entry at position [i]. *)
Theorem mix_stereo_cut_set_pairs_by_position (cut_set : CutSet) (n : nat) (cs : list Cut)
  (ch0 ch1 : Z) :
  CutSet_iter cut_set = map ACut cs ->
  nth_error (set_iteration (map channel cs)) 0 = Some ch0 ->
  nth_error (set_iteration (map channel cs)) 1 = Some ch1 ->
  let channel0_cuts := filter (fun c => Z.eqb (channel c) ch0) cs in
  let channel1_cuts := filter (fun c => Z.eqb (channel c) ch1) cs in
  let pairs := Nat.min (List.length channel0_cuts) (List.length channel1_cuts) in
  let mix_of (i : nat) (c0 c1 : Cut) :=
    AMixedCut (mkMixedCut (uuid4 (n + i)) (Cut_id c0) (Cut_id c1) 0%float 0%float None) in
  exists mixed,
    mix_stereo_cut_set cut_set n = Ok (mixed, n + pairs) /\
    (forall k c,
        In (k, c) (cuts mixed) ->
        exists i c0 c1,
          nth_error channel0_cuts i = Some c0 /\
          nth_error channel1_cuts i = Some c1 /\
          k = uuid4 (n + i) /\ c = mix_of i c0 c1) /\
    (NoDup (map (fun i => uuid4 (n + i)) (seq 0 pairs)) ->
     CutSet_len mixed = pairs /\
     forall i c0 c1,
       nth_error channel0_cuts i = Some c0 ->
       nth_error channel1_cuts i = Some c1 ->
       nth_error (CutSet_iter mixed) i = Some (mix_of i c0 c1)).
Proof.
  intros Hcs H0 H1; cbv zeta.
  set (l0 := filter (fun c => Z.eqb (channel c) ch0) cs).
  set (l1 := filter (fun c => Z.eqb (channel c) ch1) cs).
  set (items :=
         map (fun cut => (MixedCut_id cut, AMixedCut cut))
           (map (fun '(idx, (c0, c1)) => fst (Cut_overlay c0 c1 0%float 0%float (n + idx)))
              (enumerate (combine l0 l1)))).
  assert (Hlen : List.length (combine l0 l1)
                 = Nat.min (List.length l0) (List.length l1)) by apply length_combine.
  assert (Hrun : mix_stereo_cut_set cut_set n
                 = Ok (mkCutSet (dict_of_items items),
                       n + Nat.min (List.length l0) (List.length l1))).
  { unfold mix_stereo_cut_set.
    rewrite (proj2 (traverse_channel_of_Ok _ cs) Hcs); simpl.
    unfold cuts_of_channel.
    destruct cs as [|c cs'].
    - simpl; rewrite Nat.add_0_r; reflexivity.
    - cbv beta iota; rewrite H0; cbn [bind]; rewrite H1; cbn [bind].
      fold l0 l1. rewrite !length_map.
      unfold enumerate at 2; rewrite length_combine, length_seq, Nat.min_id, Hlen.
      reflexivity. }
  exists (mkCutSet (dict_of_items items)).
  split; [exact Hrun |]. split.
  - intros k c Hin; simpl in Hin. apply In_dict_of_items in Hin.
    unfold items in Hin; rewrite map_map in Hin; apply in_map_iff in Hin.
    destruct Hin as ([i [c0 c1]] & E & Hin); simpl in E; inversion E; subst.
    apply In_enumerate in Hin. apply nth_error_combine in Hin.
    destruct Hin as [Hc0 Hc1].
    exists i, c0, c1; repeat split; assumption.
  - intros Hnd.
    assert (Hkeys : NoDup (keys items)).
    { unfold items, keys; rewrite !map_map; simpl.
      unfold enumerate.
      rewrite <- Hlen, <- (map_fst_enumerate (combine l0 l1) 0), map_map in Hnd.
      erewrite map_ext; [exact Hnd |]. intros [j [c0 c1]]; reflexivity. }
    simpl; rewrite (dict_of_items_NoDup items Hkeys).
    unfold CutSet_len, CutSet_iter, values; simpl.
    split.
    + unfold items; rewrite !length_map. unfold enumerate.
      rewrite length_combine, length_seq, Nat.min_id; exact Hlen.
    + intros i c0 c1 Hc0 Hc1.
      assert (Hpair : nth_error (combine l0 l1) i = Some (c0, c1))
        by (apply nth_error_combine; split; assumption).
      pose proof (nth_error_enumerate (combine l0 l1) 0 i (c0, c1) Hpair) as He.
      unfold items; rewrite !map_map. erewrite map_nth_error; [| exact He]. reflexivity.
Qed.

(** X19. Downmixing a cut set that stores its cuts under their ids, each key
    once, and binding the result to that cut set by [with_source_cuts_from]
    gives mixed cuts that resolve: each has as [duration] the larger of the
    durations of its two cuts, and as [supervisions] the supervisions of the
    left cut followed by those of the right cut. *)
Theorem mix_stereo_cut_set_bound_to_its_source (h : heap) (r n : nat) (mixed : CutSet)
  (n' : nat) :
  NoDup (keys (cuts (h r))) ->
  (forall k c, In (k, c) (cuts (h r)) -> AnyCut_id c = k) ->
  mix_stereo_cut_set (h r) n = Ok (mixed, n') ->
  forall k m,
    In (k, AMixedCut m) (cuts (CutSet_with_source_cuts_from mixed r)) ->
    exists c0 c1,
      dict_get (cuts (h r)) (left_cut_id m) = Some (ACut c0) /\
      dict_get (cuts (h r)) (right_cut_id m) = Some (ACut c1) /\
      forall fuel,
        (exists d, MixedCut_duration (S fuel) h m = Ok d /\
                   same_seconds d (pymax (duration c0) (duration c1))) /\
        MixedCut_supervisions (S fuel) h m = Ok (supervisions c0 ++ supervisions c1).
Proof.
  intros Hnd Hkeyed Hmix k m Hin.
  unfold mix_stereo_cut_set in Hmix.
  apply bind_Ok in Hmix; destruct Hmix as (cs & Hcs & Hmix).
  apply bind_Ok in Hmix; destruct Hmix as (l0 & Hl0 & Hmix).
  apply bind_Ok in Hmix; destruct Hmix as (l1 & Hl1 & Hmix).
  inversion Hmix as [[Hmixed Hn']]; clear Hmix.
  assert (Hsub : forall (l : list Cut) (i : nat),
             cuts_of_channel cs (set_iteration (map channel cs)) i = Ok l ->
             forall c, In c l -> In c cs).
  { intros l i Hl c Hc; unfold cuts_of_channel in Hl.
    destruct cs as [|c' cs']; [inversion Hl; subst; destruct Hc |].
    destruct (nth_error _ i) as [z|]; [| discriminate Hl].
    assert (E : l = filter (fun c => Z.eqb (channel c) z) (c' :: cs'))
      by (inversion Hl; reflexivity).
    rewrite E in Hc; apply filter_In in Hc; exact (proj1 Hc). }
  assert (Hfind : forall c, In c cs -> dict_get (cuts (h r)) (Cut_id c) = Some (ACut c)).
  { intros c Hc. apply traverse_channel_of_Ok in Hcs.
    assert (Hv : In (ACut c) (CutSet_iter (h r))) by (rewrite Hcs; apply in_map; exact Hc).
    unfold CutSet_iter, values in Hv; apply in_map_iff in Hv.
    destruct Hv as ([k0 c0] & E & Hk0); simpl in E; subst c0.
    pose proof (Hkeyed k0 (ACut c) Hk0) as Eid; simpl in Eid; subst k0.
    apply In_dict_get; assumption. }
  assert (Hnd' : NoDup (keys (cuts mixed))).
  { rewrite <- Hmixed; apply NoDup_keys_dict_of_items. }
  rewrite (CutSet_with_source_cuts_from_entries mixed r Hnd') in Hin.
  apply in_map_iff in Hin.
  destruct Hin as ([k0 [c|m0]] & Heq & Hin); simpl in Heq; inversion Heq; subst k0 m;
    clear Heq.
  rewrite <- Hmixed in Hin; simpl in Hin. apply In_dict_of_items in Hin.
  rewrite map_map in Hin; apply in_map_iff in Hin.
  destruct Hin as ([i [c0 c1]] & E & Hin); simpl in E; inversion E; subst k m0; clear E.
  apply In_enumerate in Hin. apply nth_error_In in Hin.
  pose proof (in_combine_l _ _ _ _ Hin) as Hc0.
  pose proof (in_combine_r _ _ _ _ Hin) as Hc1.
  apply (Hsub _ _ Hl0) in Hc0. apply (Hsub _ _ Hl1) in Hc1.
  exists c0, c1.
  split; [exact (Hfind c0 Hc0) |]. split; [exact (Hfind c1 Hc1) |].
  intros fuel; split.
  - exists (pymax (duration c0) (0 + duration c1)%float); split.
    + rewrite (MixedCut_duration_step fuel h _ r (ACut c0) (ACut c1));
        [reflexivity | reflexivity | |]; apply getitem_Ok; simpl;
        [exact (Hfind c0 Hc0) | exact (Hfind c1 Hc1)].
    + apply pymax_add_zero_l.
  - rewrite (MixedCut_supervisions_step fuel h _ r (ACut c0) (ACut c1));
      [reflexivity | reflexivity | |]; apply getitem_Ok; simpl;
      [exact (Hfind c0 Hc0) | exact (Hfind c1 Hc1)].
Qed.

End Lhotse.

Arguments mkCut {Features SupervisionSegment} Cut_id channel start duration features
  supervisions.
Arguments Cut_id {Features SupervisionSegment} c.
Arguments channel {Features SupervisionSegment} c.
Arguments start {Features SupervisionSegment} c.
Arguments duration {Features SupervisionSegment} c.
Arguments features {Features SupervisionSegment} c.
Arguments supervisions {Features SupervisionSegment} c.
Arguments Cut_end {Features SupervisionSegment} self.
Arguments ACut {Features SupervisionSegment} c.
Arguments AMixedCut {Features SupervisionSegment} m.
Arguments mkCutSet {Features SupervisionSegment} cuts.
Arguments cuts {Features SupervisionSegment} c.
Arguments AnyCut_id {Features SupervisionSegment} c.

(** ** The code on concrete cuts

    The collaborators are given the simplest bodies that let the code run: a
    [Features] object is the string the docstring of [truncate] uses, a
    supervision is the pair of its start and its duration, arrays are lists of
    floats. *)

Local Open Scope string_scope.
Local Open Scope list_scope.

Definition demo_supervision : Set := (Seconds * Seconds)%type.
Definition demo_start (s : demo_supervision) : Seconds := fst s.
Definition demo_end (s : demo_supervision) : Seconds := (fst s + snd s)%float.

Definition demo_uuid4 (n : nat) : string :=
match n with
| 0 => "uuid-0"
| 1 => "uuid-1"
| _ => "uuid-n"
end.

Definition demo_truncate :=
  Cut_truncate string demo_supervision demo_start demo_end demo_uuid4.

(** The cut of the docstring of [truncate]. *)
Definition docstring_cut : Cut string demo_supervision :=
  mkCut "x" 0 3 8 "dummy" [].

(** A cut from 3 s to 11 s with three supervisions: from 4 s to 5 s, from 0 s
    to 20 s and from 9 s to 10 s. *)
Definition supervised_cut : Cut string demo_supervision :=
  mkCut "y" 0 3 8 "dummy" [(4, 1); (0, 20); (9, 1)]%float.

(** C1. The code at [start=3.0, duration=8.0] with [offset=1.0] and no
    [until]: the duration returned is [duration - (start + offset) = 4.0], not
    [duration - offset = 7.0]; and at [start=10.0, duration=2.0] with
    [offset=0.0] the first assertion fails, the duration computed being
    [-8.0]. *)
Theorem truncate_without_until_subtracts_the_start :
  demo_truncate docstring_cut 1 None true 0
  = Ok (mkCut "uuid-0" 0 4 4 "dummy" [], 1) /\
  (duration docstring_cut - 1 = 7)%float /\
  (0 <=? 1)%float = true /\ (1 <? duration docstring_cut)%float = true /\
  demo_truncate (mkCut "z" 0 10 2 "dummy" []) 0 None true 0 = Raise AssertionError.
Proof. repeat split. Qed.

(** C2, as the spec has it, fails: the cut [truncate(offset=5.0, until=7.0)]
    returns for the cut of the docstring starts at 8.0, which is not 5.0, and
    its end 10.0 is not within 1e-5 of 7.0. *)
Lemma truncate_docstring_cut_does_not_start_at_5 :
  exists c' n',
    demo_truncate docstring_cut 5 (Some 7%float) true 0 = Ok (c', n') /\
    (start c' =? 5)%float = false /\
    (abs (Cut_end c' - 7) <=? tolerance)%float = false.
Proof. eexists; eexists; repeat split. Qed.

(** C2, amended.  For the cut [x] with [start=3.0], [duration=8.0] and no
    supervisions, [x.truncate(offset=5.0, until=7.0)] returns a cut with
    [start == 8.0], [duration == 2.0] (so within 1e-5 of 2.0) and
    [end == 10.0]. *)
Theorem truncate_docstring_cut :
  exists c' n',
    demo_truncate docstring_cut 5 (Some 7%float) true 0 = Ok (c', n') /\
    start c' = 8%float /\ duration c' = 2%float /\ Cut_end c' = 10%float /\
    (start c' =? 8)%float = true /\
    (abs (duration c' - 2) <=? tolerance)%float = true /\
    (abs (Cut_end c' - 10) <=? tolerance)%float = true /\
    supervisions c' = [].
Proof. eexists; eexists; repeat split. Qed.

(** Two cuts and the cut set that holds them, for the mixed cuts below. *)
Definition cut_a : Cut string demo_supervision :=
  mkCut "a" 0 0 4 "dummy" [(0, 1)]%float.

Definition cut_b : Cut string demo_supervision :=
  mkCut "b" 1 0 3 "dummy" [(1, 1)]%float.

Definition demo_heap : heap string demo_supervision :=
  fun _ => mkCutSet [("a", ACut cut_a); ("b", ACut cut_b)].

Definition demo_overlay := Cut_overlay string demo_supervision demo_uuid4.
Definition demo_append := Cut_append string demo_supervision demo_uuid4.
Definition demo_duration := MixedCut_duration string demo_supervision.
Definition demo_supervisions := MixedCut_supervisions string demo_supervision.

(** Features whose frames are 25 ms long and 10 ms apart; loading gives the
    window asked for, padding leaves the arrays as they are and overlaying
    chains them. *)
Definition demo_load_features :=
  MixedCut_load_features string (list float)
    (fun _ => 0.025%float) (fun _ => 0.01%float)
    (fun _ _ start duration => [start; duration])
    (fun x y => (x, y))
    (fun x y _ _ _ _ => x ++ y)
    demo_supervision.

(** The two foreign dataclasses with one and two fields. *)
Definition demo_Features_asdict (f : string) : dict yaml :=
  [("storage_path", YStr f)].

Definition demo_Features_init (kwargs : dict yaml) : result string :=
  if only_fields ["storage_path"] kwargs
  then bind (required kwargs "storage_path") as_str
  else Raise TypeError.

Definition demo_supervision_asdict (s : demo_supervision) : dict yaml :=
  [("start", YFloat (fst s)); ("duration", YFloat (snd s))].

Definition demo_supervision_init (kwargs : dict yaml) : result demo_supervision :=
  if only_fields ["start"; "duration"] kwargs
  then
    bind (required kwargs "start") (fun start =>
    bind (required kwargs "duration") (fun duration =>
    bind (as_float start) (fun start =>
    bind (as_float duration) (fun duration => Ok (start, duration)))))
  else Raise TypeError.

Definition demo_to_yaml :=
  CutSet_to_yaml string demo_supervision demo_Features_asdict demo_supervision_asdict.

Definition demo_from_yaml :=
  CutSet_from_yaml string demo_supervision demo_Features_init demo_supervision_init.

Definition demo_cut_set : CutSet string demo_supervision :=
  mkCutSet
    [("a", ACut cut_a); ("b", ACut cut_b);
     ("m", AMixedCut (mkMixedCut "m" "a" "b" 1 0 None))].

(** A cut with [duration = -inf] and one with [duration = +inf]. *)
Definition cut_minus_infinity : Cut string demo_supervision :=
  mkCut "a" 0 0 neg_infinity "dummy" [].

Definition cut_plus_infinity : Cut string demo_supervision :=
  mkCut "b" 0 0 infinity "dummy" [].

Definition infinite_heap : heap string demo_supervision :=
  fun _ => mkCutSet [("a", ACut cut_minus_infinity); ("b", ACut cut_plus_infinity)].

Definition demo_make_cuts :=
  make_cuts_from_supervisions string unit (fun _ _ _ _ _ => "dummy") demo_supervision
    (fun _ => "recording") (fun _ => 0%Z) demo_start snd demo_uuid4.

Definition demo_mix_stereo :=
  mix_stereo_cut_set string demo_supervision demo_uuid4 (nodup Z.eq_dec).

(** The overlay of [cut_a] (4 s) and [cut_b] (3 s) at offset 0 lasts 4 s. *)
Lemma MixedCut_duration_is_max_witness :
  demo_duration 1 demo_heap
    (MixedCut_with_cut_set (mkMixedCut "m" "a" "b" 1 0 None) 0)
  = Ok (pymax 4 (1 + 3))%float /\
  exists d,
    demo_duration 1 demo_heap (MixedCut_with_cut_set (fst (demo_overlay cut_a cut_b 0 0 0)) 0)
    = Ok d /\
    same_seconds d (pymax 4 3)%float.
Proof.
  destruct (MixedCut_duration_is_max string demo_supervision demo_uuid4 demo_heap)
    as [H1 H2].
  split.
  - exact (H1 (MixedCut_with_cut_set (mkMixedCut "m" "a" "b" 1 0 None) 0) 0
             (ACut cut_a) (ACut cut_b) 0 4%float 3%float
             eq_refl eq_refl eq_refl eq_refl eq_refl 1 (le_n 1)).
  - exact (H2 cut_a cut_b 0 0 0 eq_refl eq_refl).
Defined.

(** Truncating [supervised_cut] to the window from 4 s to 6 s: the first
    supervision is kept by both rules, the second by the overlap rule only. *)
Lemma truncate_keeps_by_criterion_witness :
  exists c1 c2 n1 n2,
    demo_truncate supervised_cut 1 (Some 3%float) true 0 = Ok (c1, n1) /\
    demo_truncate supervised_cut 1 (Some 3%float) false 0 = Ok (c2, n2) /\
    supervisions c1 = [(4, 1); (0, 20)]%float /\
    supervisions c2 = [(4, 1)]%float /\
    (start c2 = start c1 /\
     duration c2 = duration c1 /\
     subsequence (supervisions c2) (supervisions c1) /\
     forall s, In s (supervisions c2) -> In s (supervisions c1)).
Proof.
  eexists; eexists; eexists; eexists.
  split; [reflexivity |]. split; [reflexivity |].
  split; [reflexivity |]. split; [reflexivity |].
  exact (proj2
           (truncate_keeps_by_criterion string demo_supervision demo_start demo_end
              demo_uuid4 supervised_cut 1%float (Some 3%float))
           0 0 _ _ _ _ eq_refl eq_refl).
Defined.

Lemma truncate_supervisions_subsequence_witness :
  exists c' n',
    demo_truncate supervised_cut 1 (Some 3%float) true 0 = Ok (c', n') /\
    (subsequence (supervisions c') (supervisions supervised_cut) /\
     forall s, In s (supervisions c') -> In s (supervisions supervised_cut)).
Proof.
  eexists; eexists. split; [reflexivity |].
  exact (truncate_supervisions_subsequence string demo_supervision demo_start demo_end
           demo_uuid4 supervised_cut 1%float (Some 3%float) true 0 _ _ eq_refl).
Defined.

(** The mixed cut of [cut_a] and [cut_b] before and after [with_cut_set]. *)
Lemma MixedCut_load_features_needs_binding_witness :
  demo_load_features demo_heap (mkMixedCut "m" "a" "b" 1 0 None) None
  = Raise (AttributeError "_cut_set") /\
  demo_load_features demo_heap
    (MixedCut_with_cut_set (mkMixedCut "m" "a" "b" 1 0 None) 0) None
  = Ok [0; 4; 0; 3]%float.
Proof.
  destruct (MixedCut_load_features_needs_binding string (list float)
              (fun _ => 0.025%float) (fun _ => 0.01%float)
              (fun _ _ start duration => [start; duration])
              (fun x y => (x, y))
              (fun x y _ _ _ _ => x ++ y)
              demo_supervision demo_heap (mkMixedCut "m" "a" "b" 1 0 None) None eq_refl)
    as [[H1 _] H2].
  split; [exact H1 |].
  exact (H2 0 cut_a cut_b eq_refl eq_refl eq_refl eq_refl).
Defined.

Lemma MixedCut_supervisions_is_concatenation_witness :
  demo_supervisions 1 demo_heap
    (MixedCut_with_cut_set (mkMixedCut "m" "a" "b" 1 0 None) 0)
  = Ok [(0, 1); (1, 1)]%float.
Proof.
  exact (proj1
           (MixedCut_supervisions_is_concatenation string demo_supervision demo_heap
              (MixedCut_with_cut_set (mkMixedCut "m" "a" "b" 1 0 None) 0) 0
              (ACut cut_a) (ACut cut_b) 0 [(0, 1)]%float [(1, 1)]%float
              eq_refl eq_refl eq_refl eq_refl eq_refl 1 (le_n 1))).
Defined.

(** [cut_a] appended by [cut_b] lasts 7 s. *)
Lemma append_is_overlay_at_the_end_witness :
  demo_duration 1 demo_heap (MixedCut_with_cut_set (fst (demo_append cut_a cut_b 0 0)) 0)
  = Ok (pymax 4 (4 + 3))%float /\
  same_seconds (pymax 4 (4 + 3))%float (4 + 3)%float.
Proof.
  destruct (proj2 (proj2 (append_is_overlay_at_the_end string demo_supervision demo_uuid4
                            cut_a cut_b 0%float))
              demo_heap 0 0 0 eq_refl eq_refl) as [H1 H2].
  split; [exact H1 | exact (H2 eq_refl eq_refl)].
Defined.

(** C7, as the spec has it, fails: a cut of duration [-inf] appended by a cut
    of duration [+inf] (which is [>= 0]) has the duration [max(-inf, nan)],
    that is [-inf], while the sum of the two durations is NaN. *)
Lemma append_duration_of_infinite_cuts :
  demo_duration 1 infinite_heap
    (MixedCut_with_cut_set (fst (demo_append cut_minus_infinity cut_plus_infinity 0 0)) 0)
  = Ok neg_infinity /\
  (0 <=? duration cut_plus_infinity)%float = true /\
  (duration cut_minus_infinity + duration cut_plus_infinity)%float = nan /\
  ~ same_seconds neg_infinity
      (duration cut_minus_infinity + duration cut_plus_infinity)%float.
Proof.
  split; [reflexivity |]. split; [reflexivity |]. split; [reflexivity |].
  intros [H|H]; [| discriminate H].
  apply (f_equal Prim2SF) in H. vm_compute in H. discriminate H.
Qed.

(** One cut set from each of the three producers. *)
Lemma produced_cut_sets_are_keyed_by_id_witness :
  (exists cut_set,
      demo_from_yaml (demo_to_yaml demo_cut_set) = Ok cut_set /\
      forall k c, In (k, c) (cuts cut_set) -> AnyCut_id c = k) /\
  (forall k c,
      In (k, c) (cuts (fst (demo_make_cuts [(0, 1); (2, 3)]%float tt 0))) ->
      AnyCut_id c = k) /\
  (exists cut_set n',
      demo_mix_stereo (mkCutSet [("a", ACut cut_a); ("b", ACut cut_b)]) 0
      = Ok (cut_set, n') /\
      forall k c, In (k, c) (cuts cut_set) -> AnyCut_id c = k).
Proof.
  destruct (produced_cut_sets_are_keyed_by_id string unit (fun _ _ _ _ _ => "dummy")
              demo_supervision (fun _ => "recording") (fun _ => 0%Z) demo_start snd
              demo_Features_init demo_supervision_init demo_uuid4 (nodup Z.eq_dec))
    as [H1 [H2 H3]].
  split; [| split].
  - eexists; split; [reflexivity |]. exact (H1 (demo_to_yaml demo_cut_set) _ eq_refl).
  - exact (H2 [(0, 1); (2, 3)]%float tt 0).
  - eexists; eexists; split; [reflexivity |].
    exact (H3 (mkCutSet [("a", ACut cut_a); ("b", ACut cut_b)]) 0 _ _ eq_refl).
Defined.

Lemma yaml_round_trip_witness :
  exists restored,
    demo_from_yaml (demo_to_yaml demo_cut_set) = Ok restored /\
    keys (cuts restored) = keys (cuts demo_cut_set) /\
    forall k,
      dict_get (cuts restored) k
      = option_map (declared_fields string demo_supervision)
          (dict_get (cuts demo_cut_set) k).
Proof.
  apply (yaml_round_trip string demo_supervision demo_Features_asdict demo_Features_init
           demo_supervision_asdict demo_supervision_init demo_cut_set).
  - intros c [<-|[<-|[<-|[]]]]; simpl; try exact I; split; try reflexivity;
      repeat constructor.
  - repeat constructor; simpl; intuition discriminate.
  - intros k c [E|[E|[E|[]]]]; inversion E; reflexivity.
Defined.

(** ** The further properties on concrete cuts *)

Definition demo_supervisions_of := MixedCut_supervisions string demo_supervision.

(** A cut set that holds a mixed cut of [cut_a] and [cut_b], bound to the
    cut set itself, next to the two cuts. *)
Definition nested_heap : heap string demo_supervision :=
  fun _ =>
    mkCutSet
      [("a", ACut cut_a); ("b", ACut cut_b);
       ("m", AMixedCut (mkMixedCut "m" "a" "b" 1 0 (Some 0)))].

(** A cut set that holds a mixed cut whose left operand is the mixed cut
    itself. *)
Definition loop_cut : MixedCut := mkMixedCut "loop" "loop" "a" 0 0 (Some 0).

Definition cyclic_heap : heap string demo_supervision :=
  fun _ => mkCutSet [("a", ACut cut_a); ("loop", AMixedCut loop_cut)].

(** Features whose frame length depends on the features object, and a cut
    whose features are framed differently from those of [cut_a]. *)
Definition demo_frame_length (f : string) : Seconds :=
  if String.eqb f "dummy" then 0.025%float else 0.032%float.

Definition cut_c : Cut string demo_supervision :=
  mkCut "c" 1 0 3 "wide" [].

Definition framing_heap : heap string demo_supervision :=
  fun _ => mkCutSet [("a", ACut cut_a); ("c", ACut cut_c)].

Definition demo_load_framed :=
  MixedCut_load_features string (list float)
    demo_frame_length (fun _ => 0.01%float)
    (fun _ _ start duration => [start; duration])
    (fun x y => (x, y))
    (fun x y _ _ _ _ => x ++ y)
    demo_supervision.

(** A second cut stored under the id [b], and a cut set that shares the key
    [b] with the cut set of [cut_a] and [cut_b]. *)
Definition cut_b' : Cut string demo_supervision :=
  mkCut "b" 1 5 2 "dummy" [].

Definition left_cut_set : CutSet string demo_supervision :=
  mkCutSet [("a", ACut cut_a); ("b", ACut cut_b)].

Definition right_cut_set : CutSet string demo_supervision :=
  mkCutSet [("b", ACut cut_b'); ("m", AMixedCut (mkMixedCut "m" "a" "b" 1 0 None))].

Definition demo_add := CutSet_add string demo_supervision.
Definition demo_with_source := CutSet_with_source_cuts_from string demo_supervision.

(** The records [to_yaml] writes for [demo_cut_set]. *)
Definition demo_records : list yaml :=
  match demo_to_yaml demo_cut_set with
  | YSeq records => records
  | _ => []
  end.

(** Three cuts of two channels: one of channel 0 and two of channel 1. *)
Definition cut_b2 : Cut string demo_supervision :=
  mkCut "b2" 1 3 3 "dummy" [].

Definition stereo_cut_set : CutSet string demo_supervision :=
  mkCutSet [("a", ACut cut_a); ("b", ACut cut_b); ("b2", ACut cut_b2)].

(** The same window of two cuts with the same start and duration, kept with
    either flag; and the same failure. *)
Lemma truncate_fails_only_by_assertion_witness :
  (exists c c',
      demo_truncate supervised_cut 1 (Some 3%float) true 0 = Ok (c, 1) /\
      demo_truncate docstring_cut 1 (Some 3%float) false 5 = Ok (c', 6) /\
      start c' = start c /\ duration c' = duration c) /\
  (exists e e',
      demo_truncate supervised_cut 5 (Some 2%float) true 0 = Raise e /\
      demo_truncate docstring_cut 5 (Some 2%float) false 5 = Raise e' /\
      e = AssertionError /\ e' = AssertionError).
Proof.
  split.
  - pose proof (truncate_fails_only_by_assertion string demo_supervision demo_start demo_end
                  demo_uuid4 supervised_cut docstring_cut 1%float (Some 3%float) true false
                  0 5 eq_refl eq_refl) as H.
    eexists; eexists. split; [reflexivity |]. split; [reflexivity |].
    exact (conj (proj1 H) (proj1 (proj2 H))).
  - pose proof (truncate_fails_only_by_assertion string demo_supervision demo_start demo_end
                  demo_uuid4 supervised_cut docstring_cut 5%float (Some 2%float) true false
                  0 5 eq_refl eq_refl) as H.
    eexists; eexists. split; [reflexivity |]. split; [reflexivity |].
    exact H.
Defined.

Lemma truncate_window_within_the_cut_witness :
  exists c' n',
    demo_truncate supervised_cut 1 (Some 3%float) true 0 = Ok (c', n') /\
    (0 <? duration c')%float = true /\
    (Cut_end c' <=? Cut_end supervised_cut + tolerance)%float = true /\
    (start supervised_cut <=? start c')%float = true /\
    channel c' = 0%Z /\ features c' = "dummy" /\ Cut_id c' = "uuid-0" /\ n' = 1.
Proof.
  eexists; eexists. split; [reflexivity |].
  destruct (truncate_window_within_the_cut string demo_supervision demo_start demo_end
              demo_uuid4 supervised_cut 1%float (Some 3%float) true 0 _ _ eq_refl)
    as (H1 & H2 & H3 & H4 & H5 & H6 & H7).
  exact (conj H1 (conj H2 (conj (H3 eq_refl) (conj H4 (conj H5 (conj H6 H7)))))).
Defined.

Lemma truncate_needs_offset_before_until_witness :
  demo_truncate docstring_cut 5 (Some 2%float) true 0 = Raise AssertionError /\
  (exists c' n',
      demo_truncate docstring_cut 5 (Some 7%float) true 0 = Ok (c', n') /\
      (5 <? 7)%float = true /\ duration c' = (7 - 5)%float) /\
  demo_truncate (mkCut "z" 0 10 2 "dummy" []) 0 None true 0 = Raise AssertionError.
Proof.
  split; [| split].
  - exact (proj1 (proj1 (truncate_needs_offset_before_until string demo_supervision
                           demo_start demo_end demo_uuid4 docstring_cut 5%float true 0)
                    2%float) eq_refl).
  - eexists; eexists. split; [reflexivity |].
    exact (proj2 (proj1 (truncate_needs_offset_before_until string demo_supervision
                           demo_start demo_end demo_uuid4 docstring_cut 5%float true 0)
                    7%float) _ _ eq_refl).
  - exact (proj1 (proj2 (truncate_needs_offset_before_until string demo_supervision
                           demo_start demo_end demo_uuid4 (mkCut "z" 0 10 2 "dummy" [])
                           0%float true 0)) eq_refl).
Defined.

(** [cut_a] starts at zero and lasts 4 s: without its first second it starts
    at 1 s and lasts 3 s. *)
Lemma truncate_without_until_at_start_zero_witness :
  exists c' n',
    demo_truncate cut_a 1 None true 0 = Ok (c', n') /\
    same_seconds (start c') 1 /\
    same_seconds (duration c') (4 - 1)%float /\
    (0 <? 4 - 1)%float = true.
Proof.
  eexists; eexists. split; [reflexivity |].
  exact (truncate_without_until_at_start_zero string demo_supervision demo_start demo_end
           demo_uuid4 cut_a 1%float true 0 _ _ eq_refl eq_refl).
Defined.

(** A mixed cut that names an id the cut set does not hold, on the left and
    on the right. *)
Lemma MixedCut_unresolved_operand_is_a_KeyError_witness :
  (demo_duration 1 demo_heap (mkMixedCut "m" "zz" "b" 1 0 (Some 0)) = Raise (KeyError "zz") /\
   demo_supervisions_of 1 demo_heap (mkMixedCut "m" "zz" "b" 1 0 (Some 0))
   = Raise (KeyError "zz") /\
   demo_load_features demo_heap (mkMixedCut "m" "zz" "b" 1 0 (Some 0)) None
   = Raise (KeyError "zz")) /\
  demo_load_features demo_heap (mkMixedCut "m" "a" "yy" 1 0 (Some 0)) None
  = Raise (KeyError "yy") /\
  demo_duration 1 demo_heap (mkMixedCut "m" "a" "yy" 1 0 (Some 0)) = Raise (KeyError "yy").
Proof.
  split; [| split].
  - exact (proj1 (MixedCut_unresolved_operand_is_a_KeyError string (list float)
                    (fun _ => 0.025%float) (fun _ => 0.01%float)
                    (fun _ _ start duration => [start; duration])
                    (fun x y => (x, y))
                    (fun x y _ _ _ _ => x ++ y)
                    demo_supervision demo_heap (mkMixedCut "m" "zz" "b" 1 0 (Some 0)) 0
                    eq_refl)
             eq_refl 0 None).
  - exact (proj1 (proj2 (MixedCut_unresolved_operand_is_a_KeyError string (list float)
                           (fun _ => 0.025%float) (fun _ => 0.01%float)
                           (fun _ _ start duration => [start; duration])
                           (fun x y => (x, y))
                           (fun x y _ _ _ _ => x ++ y)
                           demo_supervision demo_heap (mkMixedCut "m" "a" "yy" 1 0 (Some 0)) 0
                           eq_refl)
                    (ACut cut_a) eq_refl eq_refl) None).
  - exact (proj1 (proj2 (proj2 (MixedCut_unresolved_operand_is_a_KeyError string (list float)
                                  (fun _ => 0.025%float) (fun _ => 0.01%float)
                                  (fun _ _ start duration => [start; duration])
                                  (fun x y => (x, y))
                                  (fun x y _ _ _ _ => x ++ y)
                                  demo_supervision demo_heap
                                  (mkMixedCut "m" "a" "yy" 1 0 (Some 0)) 0 eq_refl)
                           (ACut cut_a) eq_refl eq_refl) cut_a 0 eq_refl)).
Defined.

(** The mix of the mixed cut [m] and [cut_b]: it has a duration and
    supervisions, and no features. *)
Lemma MixedCut_load_features_of_a_mix_of_mixes_witness :
  demo_load_features nested_heap (mkMixedCut "mm" "m" "b" 0 0 (Some 0)) None
  = Raise (AttributeError "features") /\
  demo_duration 2 nested_heap (mkMixedCut "mm" "m" "b" 0 0 (Some 0))
  = Ok (pymax (pymax 4 (1 + 3)) (0 + 3))%float /\
  demo_supervisions_of 2 nested_heap (mkMixedCut "mm" "m" "b" 0 0 (Some 0))
  = Ok [(0, 1); (1, 1); (1, 1)]%float.
Proof.
  destruct (MixedCut_load_features_of_a_mix_of_mixes string (list float)
              (fun _ => 0.025%float) (fun _ => 0.01%float)
              (fun _ _ start duration => [start; duration])
              (fun x y => (x, y))
              (fun x y _ _ _ _ => x ++ y)
              demo_supervision nested_heap (mkMixedCut "mm" "m" "b" 0 0 (Some 0)) 0
              (AMixedCut (mkMixedCut "m" "a" "b" 1 0 (Some 0))) (ACut cut_b) None
              eq_refl eq_refl eq_refl
              (or_introl (ex_intro _ (mkMixedCut "m" "a" "b" 1 0 (Some 0)) eq_refl)))
    as [H1 H2].
  split; [exact H1 |].
  exact (H2 1 (pymax 4 (1 + 3))%float 3%float [(0, 1); (1, 1)]%float [(1, 1)]%float
           eq_refl eq_refl eq_refl eq_refl).
Defined.

(** [cut_a] and [cut_c] have frames of 25 ms and of 32 ms. *)
Lemma MixedCut_load_features_checks_the_framing_witness :
  demo_load_framed framing_heap (mkMixedCut "m" "a" "c" 0 0 (Some 0)) None
  = Raise AssertionError /\
  exists feats,
    demo_load_framed framing_heap (mkMixedCut "m" "a" "a" 0 0 (Some 0)) None = Ok feats.
Proof.
  split.
  - exact (proj1 (proj1 (MixedCut_load_features_checks_the_framing string (list float)
                           demo_frame_length (fun _ => 0.01%float)
                           (fun _ _ start duration => [start; duration])
                           (fun x y => (x, y))
                           (fun x y _ _ _ _ => x ++ y)
                           demo_supervision framing_heap
                           (mkMixedCut "m" "a" "c" 0 0 (Some 0)) 0 cut_a cut_c None
                           eq_refl eq_refl eq_refl))
             (or_introl eq_refl)).
  - exact (proj1 (proj2 (MixedCut_load_features_checks_the_framing string (list float)
                           demo_frame_length (fun _ => 0.01%float)
                           (fun _ _ start duration => [start; duration])
                           (fun x y => (x, y))
                           (fun x y _ _ _ _ => x ++ y)
                           demo_supervision framing_heap
                           (mkMixedCut "m" "a" "a" 0 0 (Some 0)) 0 cut_a cut_a None
                           eq_refl eq_refl eq_refl))
             (conj eq_refl eq_refl)).
Defined.

Lemma MixedCut_that_contains_itself_never_returns_witness :
  demo_duration 100 cyclic_heap loop_cut = Raise RecursionError /\
  demo_supervisions_of 100 cyclic_heap loop_cut = Raise RecursionError.
Proof.
  exact (MixedCut_that_contains_itself_never_returns string demo_supervision cyclic_heap
           loop_cut 0 eq_refl (or_introl eq_refl) 100).
Defined.

Lemma MixedCut_duration_covers_both_operands_witness :
  exists d,
    demo_duration 1 demo_heap (mkMixedCut "m" "a" "b" 2 0 (Some 0)) = Ok d /\
    (4 <=? d)%float = true /\ (2 + 3 <=? d)%float = true.
Proof.
  exact (MixedCut_duration_covers_both_operands string demo_supervision demo_heap
           (mkMixedCut "m" "a" "b" 2 0 (Some 0)) 0 (ACut cut_a) (ACut cut_b) 0
           4%float 3%float eq_refl eq_refl eq_refl eq_refl eq_refl eq_refl eq_refl).
Defined.

(** Both cut sets hold the key [b]: the sum holds the cut of the right
    operand there, in the place the key has in the left operand. *)
Lemma CutSet_add_right_operand_wins_witness :
  dict_get (cuts (demo_add left_cut_set right_cut_set)) "b" = Some (ACut cut_b') /\
  dict_get (cuts (demo_add left_cut_set right_cut_set)) "a" = Some (ACut cut_a) /\
  keys (cuts (demo_add left_cut_set right_cut_set)) = ["a"; "b"; "m"] /\
  2 <= CutSet_len string demo_supervision (demo_add left_cut_set right_cut_set) <= 2 + 2.
Proof.
  assert (Hnd : NoDup (keys (cuts right_cut_set)))
    by (repeat constructor; simpl; intuition discriminate).
  destruct (CutSet_add_right_operand_wins string demo_supervision left_cut_set right_cut_set
              Hnd) as (H1 & H2 & H3).
  exact (conj (H1 "b") (conj (H1 "a") (conj H2 H3))).
Defined.

Lemma CutSet_add_keeps_the_keying_witness :
  NoDup (keys (cuts (demo_add left_cut_set right_cut_set))) /\
  forall k c, In (k, c) (cuts (demo_add left_cut_set right_cut_set)) -> AnyCut_id c = k.
Proof.
  apply (CutSet_add_keeps_the_keying string demo_supervision left_cut_set right_cut_set).
  - repeat constructor; simpl; intuition discriminate.
  - intros k c [E|[E|[]]]; inversion E; reflexivity.
  - intros k c [E|[E|[]]]; inversion E; reflexivity.
Defined.

Lemma simple_and_mixed_cuts_split_the_cut_set_witness :
  dict_get (CutSet_simple_cuts string demo_supervision demo_cut_set) "a" = Some cut_a /\
  dict_get (CutSet_simple_cuts string demo_supervision demo_cut_set) "m" = None /\
  dict_get (CutSet_mixed_cuts string demo_supervision demo_cut_set) "m"
  = Some (mkMixedCut "m" "a" "b" 1 0 None) /\
  dict_get (CutSet_mixed_cuts string demo_supervision demo_cut_set) "a" = None /\
  List.length (CutSet_simple_cuts string demo_supervision demo_cut_set)
  + List.length (CutSet_mixed_cuts string demo_supervision demo_cut_set) = 3.
Proof.
  assert (Hnd : NoDup (keys (cuts demo_cut_set)))
    by (repeat constructor; simpl; intuition discriminate).
  destruct (simple_and_mixed_cuts_split_the_cut_set string demo_supervision demo_cut_set Hnd)
    as (H1 & H2 & H3).
  exact (conj (H1 "a") (conj (H1 "m") (conj (H2 "m") (conj (H2 "a") H3)))).
Defined.

Lemma with_source_cuts_from_binds_every_mixed_cut_witness :
  keys (cuts (demo_with_source demo_cut_set 7)) = ["a"; "b"; "m"] /\
  dict_get (cuts (demo_with_source demo_cut_set 7)) "m"
  = Some (AMixedCut (mkMixedCut "m" "a" "b" 1 0 (Some 7))) /\
  dict_get (cuts (demo_with_source demo_cut_set 7)) "a" = Some (ACut cut_a) /\
  demo_with_source (demo_with_source demo_cut_set 7) 8 = demo_with_source demo_cut_set 8.
Proof.
  assert (Hnd : NoDup (keys (cuts demo_cut_set)))
    by (repeat constructor; simpl; intuition discriminate).
  destruct (with_source_cuts_from_binds_every_mixed_cut string demo_supervision demo_cut_set
              7 Hnd) as (H1 & H2 & _ & _ & H5).
  exact (conj H1 (conj (H2 "m") (conj (H2 "a") (H5 8)))).
Defined.

(** Three bad records after the three good ones of [demo_cut_set]. *)
Lemma from_yaml_rejects_a_malformed_record_witness :
  demo_from_yaml (YSeq (demo_records ++ [YMap [("type", YStr "Cut")]]))
  = Raise (KeyError "id") /\
  demo_from_yaml (YSeq (demo_records ++ [YMap [("id", YStr "q")]]))
  = Raise (KeyError "type") /\
  demo_from_yaml
    (YSeq (demo_records ++ [YMap [("id", YStr "q"); ("type", YStr "Segment")];
                            YMap [("id", YStr "r"); ("type", YStr "Cut")]]))
  = Raise (ValueError "Unexpected cut type during deserialization") /\
  demo_from_yaml (YSeq (demo_records ++ [YMap [("id", YStr "q"); ("type", YStr "Cut")]]))
  = Raise (KeyError "features").
Proof.
  split; [| split; [| split]].
  - exact (proj1 (from_yaml_rejects_a_malformed_record string demo_supervision
                    demo_Features_init demo_supervision_init demo_records []
                    [("type", YStr "Cut")] _ eq_refl) eq_refl).
  - exact (proj1 (proj2 (from_yaml_rejects_a_malformed_record string demo_supervision
                           demo_Features_init demo_supervision_init demo_records []
                           [("id", YStr "q")] _ eq_refl) (YStr "q") eq_refl) eq_refl).
  - exact (proj1 (proj2 (proj2 (from_yaml_rejects_a_malformed_record string demo_supervision
                                  demo_Features_init demo_supervision_init demo_records
                                  [YMap [("id", YStr "r"); ("type", YStr "Cut")]]
                                  [("id", YStr "q"); ("type", YStr "Segment")] _ eq_refl)
                           (YStr "q") eq_refl))
             (YStr "Segment") eq_refl eq_refl eq_refl).
  - exact (proj2 (proj2 (proj2 (from_yaml_rejects_a_malformed_record string demo_supervision
                                  demo_Features_init demo_supervision_init demo_records []
                                  [("id", YStr "q"); ("type", YStr "Cut")] _ eq_refl)
                           (YStr "q") eq_refl))
             (YStr "Cut") eq_refl eq_refl eq_refl).
Defined.

(** The cut set of [nested_heap], whose mixed cut is bound, written and read
    back. *)
Lemma from_yaml_returns_unbound_mixed_cuts_witness :
  exists cut_set,
    demo_from_yaml (demo_to_yaml (nested_heap 0)) = Ok cut_set /\
    dict_get (cuts cut_set) "m" = Some (AMixedCut (mkMixedCut "m" "a" "b" 1 0 None)) /\
    (forall k m,
        In (k, AMixedCut m) (cuts cut_set) ->
        _cut_set m = None /\
        forall h fuel root_dir,
          demo_duration (S fuel) h m = Raise (AttributeError "_cut_set") /\
          demo_supervisions_of (S fuel) h m = Raise (AttributeError "_cut_set") /\
          demo_load_features h m root_dir = Raise (AttributeError "_cut_set")) /\
    (forall source k m,
        In (k, AMixedCut m) (cuts (demo_with_source cut_set source)) ->
        _cut_set m = Some source).
Proof.
  eexists. split; [reflexivity |]. split; [reflexivity |].
  exact (from_yaml_returns_unbound_mixed_cuts string (list float)
           (fun _ => 0.025%float) (fun _ => 0.01%float)
           (fun _ _ start duration => [start; duration])
           (fun x y => (x, y))
           (fun x y _ _ _ _ => x ++ y)
           demo_supervision demo_Features_init demo_supervision_init
           (demo_to_yaml (nested_heap 0)) _ eq_refl).
Defined.

Lemma make_cuts_from_supervisions_makes_one_cut_each_witness :
  snd (demo_make_cuts [(0, 1); (2, 3)]%float tt 0) = 2 /\
  CutSet_len string demo_supervision (fst (demo_make_cuts [(0, 1); (2, 3)]%float tt 0)) = 2 /\
  nth_error
    (CutSet_iter string demo_supervision (fst (demo_make_cuts [(0, 1); (2, 3)]%float tt 0))) 1
  = Some (ACut (mkCut "uuid-1" 0 2 3 "dummy" [(2, 3)]%float)) /\
  dict_get (cuts (fst (demo_make_cuts [(0, 1); (2, 3)]%float tt 0))) "uuid-1"
  = Some (ACut (mkCut "uuid-1" 0 2 3 "dummy" [(2, 3)]%float)).
Proof.
  destruct (make_cuts_from_supervisions_makes_one_cut_each string unit
              (fun _ _ _ _ _ => "dummy") demo_supervision (fun _ => "recording")
              (fun _ => 0%Z) demo_start snd demo_uuid4 [(0, 1); (2, 3)]%float tt 0)
    as (H1 & _ & H3).
  assert (Hnd : NoDup (map (fun i => demo_uuid4 (0 + i)) (seq 0 2)))
    by (repeat constructor; simpl; intuition discriminate).
  destruct (H3 Hnd) as [Hlen Hnth].
  exact (conj H1 (conj Hlen (Hnth 1 (2, 3)%float eq_refl))).
Defined.

Lemma mix_stereo_cut_set_edge_cases_witness :
  demo_mix_stereo (mkCutSet []) 4 = Ok (mkCutSet [], 4) /\
  demo_mix_stereo demo_cut_set 0 = Raise (AttributeError "channel") /\
  demo_mix_stereo (mkCutSet [("a", ACut cut_a)]) 0 = Raise IndexError.
Proof.
  split; [| split].
  - exact (proj1 (mix_stereo_cut_set_edge_cases string demo_supervision demo_uuid4
                    (nodup Z.eq_dec) (mkCutSet []) 4) eq_refl).
  - exact (proj1 (proj2 (mix_stereo_cut_set_edge_cases string demo_supervision demo_uuid4
                           (nodup Z.eq_dec) demo_cut_set 0))
             "m" (mkMixedCut "m" "a" "b" 1 0 None)
             (or_intror (or_intror (or_introl eq_refl)))).
  - apply (proj2 (proj2 (mix_stereo_cut_set_edge_cases string demo_supervision demo_uuid4
                           (nodup Z.eq_dec) (mkCutSet [("a", ACut cut_a)]) 0))
             [cut_a] eq_refl).
    + discriminate.
    + apply le_n.
Defined.

(** One cut of channel 0 and two cuts of channel 1: one pair, the second cut
    of channel 1 is dropped. *)
Lemma mix_stereo_cut_set_pairs_by_position_witness :
  exists mixed,
    demo_mix_stereo stereo_cut_set 0 = Ok (mixed, 0 + 1) /\
    CutSet_len string demo_supervision mixed = 1 /\
    nth_error (CutSet_iter string demo_supervision mixed) 0
    = Some (AMixedCut (mkMixedCut "uuid-0" "a" "b" 0 0 None)).
Proof.
  destruct (mix_stereo_cut_set_pairs_by_position string demo_supervision demo_uuid4
              (nodup Z.eq_dec) stereo_cut_set 0 [cut_a; cut_b; cut_b2] 0%Z 1%Z
              eq_refl eq_refl eq_refl) as (mixed & Hrun & _ & Hpos).
  exists mixed. split; [exact Hrun |].
  assert (Hnd : NoDup (map (fun i => demo_uuid4 (0 + i)) (seq 0 1)))
    by (repeat constructor; simpl; intuition discriminate).
  destruct (Hpos Hnd) as [Hlen Hnth].
  exact (conj Hlen (Hnth 0 cut_a cut_b eq_refl eq_refl)).
Defined.

(** The cut set of [cut_a] and [cut_b], downmixed and bound to itself. *)
Lemma mix_stereo_cut_set_bound_to_its_source_witness :
  exists mixed n',
    demo_mix_stereo (demo_heap 0) 0 = Ok (mixed, n') /\
    dict_get (cuts (demo_with_source mixed 0)) "uuid-0"
    = Some (AMixedCut (mkMixedCut "uuid-0" "a" "b" 0 0 (Some 0))) /\
    forall k m,
      In (k, AMixedCut m) (cuts (demo_with_source mixed 0)) ->
      exists c0 c1,
        dict_get (cuts (demo_heap 0)) (left_cut_id m) = Some (ACut c0) /\
        dict_get (cuts (demo_heap 0)) (right_cut_id m) = Some (ACut c1) /\
        forall fuel,
          (exists d, demo_duration (S fuel) demo_heap m = Ok d /\
                     same_seconds d (pymax (duration c0) (duration c1))) /\
          demo_supervisions_of (S fuel) demo_heap m = Ok (supervisions c0 ++ supervisions c1).
Proof.
  eexists; eexists. split; [reflexivity |]. split; [reflexivity |].
  apply (mix_stereo_cut_set_bound_to_its_source string demo_supervision demo_uuid4
           (nodup Z.eq_dec) demo_heap 0 0 _ 1).
  - repeat constructor; simpl; intuition discriminate.
  - intros k c [E|[E|[]]]; inversion E; reflexivity.
  - reflexivity.
Defined.
